(** * Red-flag vetting: dataset store, matchers and scoring

    A shallow embedding of the TypeScript sources under
    [src/domain/red-flags] (name normaliser, CSV data store, IRS and OFAC
    clients, scoring, summary, tool layer) and the properties of the
    design document checked against them.

    Conventions of the embedding:
    - an ECMAScript string is the list of its UTF-16 code units ([list N]);
    - a [Map<string, V>] is a [gmap (list N) V];
    - asynchronous methods of [CsvDataStore] run in a state-and-exception
      monad over the store fields, the data directory and an I/O trace;
    - functions of the ECMAScript runtime whose tables are not part of the
      repository ([String.prototype.normalize], [toLowerCase]) and of the
      csv-parse library are taken as parameters ([JsRuntime]). *)

From Stdlib Require Import ZArith String Ascii.
From stdpp Require Import base option list gmap pretty.

Local Open Scope N_scope.

(** ** ECMAScript strings *)

Module Js.

Abbreviation jsstring := (list N).

(** Code units of an ASCII literal. *)
Definition lit (s : string) : jsstring :=
  N_of_ascii <$> list_ascii_of_string s.

Definition inRange (lo hi c : N) : bool := (lo <=? c) && (c <=? hi).

(** [\s]: WhiteSpace and LineTerminator code points. [String.prototype.trim]
    strips the same set. *)
Definition isWhiteSpace (c : N) : bool :=
  inRange 9 13 c || (c =? 32) || (c =? 160) || (c =? 5760)
  || inRange 8192 8202 c || (c =? 8232) || (c =? 8233) || (c =? 8239)
  || (c =? 8287) || (c =? 12288) || (c =? 65279).

(** [\d] *)
Definition isDigit (c : N) : bool := inRange 48 57 c.

(** [a-z] *)
Definition isLower (c : N) : bool := inRange 97 122 c.

(** [A-Z] *)
Definition isUpper (c : N) : bool := inRange 65 90 c.

Definition isAscii (c : N) : bool := c <? 128.

(** Case folding of one code unit, Basic Latin only. *)
Definition asciiLower (c : N) : N := if isUpper c then c + 32 else c.

Fixpoint dropWhile (p : N → bool) (s : jsstring) : jsstring :=
  match s with
  | [] => []
  | c :: t => if p c then dropWhile p t else s
  end.

Fixpoint takeWhile (p : N → bool) (s : jsstring) : jsstring :=
  match s with
  | [] => []
  | c :: t => if p c then c :: takeWhile p t else []
  end.

Definition trimStart (s : jsstring) : jsstring := dropWhile isWhiteSpace s.

Fixpoint trimEnd (s : jsstring) : jsstring :=
  match s with
  | [] => []
  | c :: t =>
      match trimEnd t with
      | [] => if isWhiteSpace c then [] else [c]
      | t' => c :: t'
      end
  end.

(** [s.trim()] *)
Definition trim (s : jsstring) : jsstring := trimEnd (trimStart s).

(** [s.split(sep)] for a one-code-unit separator. *)
Fixpoint split (sep : N) (s : jsstring) : list jsstring :=
  match s with
  | [] => [[]]
  | c :: t =>
      if c =? sep then [] :: split sep t
      else match split sep t with
           | [] => [[c]]
           | w :: ws => (c :: w) :: ws
           end
  end.

(** [s.replace(/[cls]/g, "")] for a character class [cls]. *)
Definition removeAll (cls : N → bool) (s : jsstring) : jsstring :=
  filter (λ c, cls c = false) s.

(** [s.replace(/\s+/g, " ")]: a white-space code unit emits a space when it
    closes its run. *)
Fixpoint collapseWhiteSpace (s : jsstring) : jsstring :=
  match s with
  | [] => []
  | c :: t =>
      if isWhiteSpace c then
        match t with
        | c' :: _ => if isWhiteSpace c' then collapseWhiteSpace t
                     else 32 :: collapseWhiteSpace t
        | [] => [32]
        end
      else c :: collapseWhiteSpace t
  end.

(** Truthiness of a string: non-empty. *)
Definition truthy (s : jsstring) : bool :=
  match s with [] => false | _ => true end.

(** [/^\d{9}$/.test(s)] *)
Definition isNineDigits (s : jsstring) : bool :=
  (length s =? 9)%nat && forallb isDigit s.

(** Template-literal rendering of an integer. *)
Definition ofZ (z : Z) : jsstring := lit (pretty z).

(** The em dash used in the detail messages. *)
Definition emDash : jsstring := [8212].

End Js.

Import Js.

(** ** Runtime services outside the repository *)

(** [normalize_nfd s] is [s.normalize("NFD")], [to_lower_case s] is
    [s.toLowerCase()], [csv_parse s] is csv-parse's synchronous [parse] with
    the options the store passes (it throws on malformed input).  The two laws
    are the behaviour of ECMAScript on Basic Latin text. *)
Class JsRuntime := {
  normalize_nfd : jsstring → jsstring;
  to_lower_case : jsstring → jsstring;
  csv_parse : jsstring → jsstring + list (list jsstring);
  normalize_nfd_ascii s :
    forallb isAscii s = true → normalize_nfd s = s;
  to_lower_case_ascii s :
    forallb isAscii s = true → to_lower_case s = asciiLower <$> s;
}.

(** ** name-normalizer.ts *)

Module NameNormalizer.

Definition ORG_SUFFIXES : list jsstring :=
  lit <$> [ "incorporated"; "inc"; "corporation"; "corp"; "association";
            "assoc"; "assn"; "organization"; "org"; "limited"; "ltd";
            "llc"; "llp"; "lp"; "co"; "company"; "nfp"; "pbc" ]%string.

(** One alternative of the suffix group against a whole token, under the
    [i] flag. *)
Definition eqIgnoreCase (a b : jsstring) : bool :=
  bool_decide (asciiLower <$> a = asciiLower <$> b).

Definition isOrgSuffix (tok : jsstring) : bool :=
  existsb (eqIgnoreCase tok) ORG_SUFFIXES.

Definition notWhiteSpace (c : N) : bool := negb (isWhiteSpace c).

(** [TRAILING_SUFFIX_PATTERN]: [\s+(suffix)$].  The alternatives contain no
    white space, so a match is the last token together with the whole run of
    white space before it; the result is what precedes the match. *)
Definition matchTrailingSuffix (s : jsstring) : option jsstring :=
  let r := reverse s in
  let tok := reverse (takeWhile notWhiteSpace r) in
  match dropWhile notWhiteSpace r with
  | [] => None
  | rest =>
      if isOrgSuffix tok then Some (reverse (dropWhile isWhiteSpace rest))
      else None
  end.

(** [s.replace(TRAILING_SUFFIX_PATTERN, "")] *)
Definition stripTrailingSuffix (s : jsstring) : jsstring :=
  default s (matchTrailingSuffix s).

(** [/^the\s+/] *)
Definition matchThePrefix (s : jsstring) : option jsstring :=
  match s with
  | 116 :: 104 :: 101 :: c :: t =>
      if isWhiteSpace c then Some (dropWhile isWhiteSpace t) else None
  | _ => None
  end.

(** [s.replace(/^the\s+/, "")] *)
Definition stripThePrefix (s : jsstring) : jsstring :=
  default s (matchThePrefix s).

(** The [do ... while (normalized !== prev && iterations < 10)] loop with
    [budget] passes left. *)
Fixpoint stripSuffixLoop (budget : nat) (s : jsstring) : jsstring :=
  match budget with
  | O => s
  | S budget' =>
      let s' := stripTrailingSuffix s in
      if bool_decide (s' = s) then s' else stripSuffixLoop budget' s'
  end.

Definition isCombiningMark (c : N) : bool := inRange 768 879 c.

Definition isKeptChar (c : N) : bool :=
  isLower c || isDigit c || isWhiteSpace c.

Section WithRuntime.
Context `{!JsRuntime}.

Definition normalizeName (name : jsstring) : jsstring :=
    let normalized := removeAll isCombiningMark (normalize_nfd name) in
    let normalized := to_lower_case normalized in
    let normalized := removeAll (λ c, negb (isKeptChar c)) normalized in
    let normalized := stripThePrefix normalized in
    let normalized := stripSuffixLoop 10 normalized in
    trim (collapseWhiteSpace normalized).

End WithRuntime.

End NameNormalizer.

Import NameNormalizer.

(** A runtime that is exact on Basic Latin text, used to evaluate the
    embedding on concrete inputs.  Its CSV parser accepts unquoted
    comma-separated text, one record per non-empty line. *)
Definition basicCsv (s : jsstring) : jsstring + list (list jsstring) :=
  inr (split 44 <$> filter (λ l, l ≠ []) (split 10 s)).

Definition basicLatin : JsRuntime :=
  {| normalize_nfd s := s;
     to_lower_case s := asciiLower <$> s;
     csv_parse := basicCsv;
     normalize_nfd_ascii _ _ := eq_refl;
     to_lower_case_ascii _ _ := eq_refl |}.

(** ** types.ts *)

(** Each interface is a record [t] in a module of its name.  Optional
    properties are [option]s: [None] when the object literal omits them. *)

Module IrsRevocationRow.
Record t := {
  ein : jsstring;
  legalName : jsstring;
  dba : jsstring;
  city : jsstring;
  state : jsstring;
  zip : jsstring;
  country : jsstring;
  exemptionType : jsstring;
  revocationDate : jsstring;
  postingDate : jsstring;
  reinstatementDate : jsstring;
}.
End IrsRevocationRow.

Module IrsRevocationResult.
Record t := {
  found : bool;
  revoked : bool;
  detail : jsstring;
  revocationDate : option jsstring;
  reinstatementDate : option jsstring;
  legalName : option jsstring;
}.
End IrsRevocationResult.

Module OfacSdnRow.
Record t := {
  entNum : jsstring;
  name : jsstring;
  sdnType : jsstring;
  program : jsstring;
  title : jsstring;
  remarks : jsstring;
}.
End OfacSdnRow.

Module OfacAltRow.
Record t := {
  entNum : jsstring;
  altNum : jsstring;
  altType : jsstring;
  altName : jsstring;
  altRemarks : jsstring;
}.
End OfacAltRow.

Inductive MatchedOn := primary | alias.

Module OfacMatch.
Record t := {
  entNum : jsstring;
  name : jsstring;
  sdnType : jsstring;
  program : jsstring;
  matchedOn : MatchedOn;
}.
End OfacMatch.

Module OfacSanctionsResult.
Record t := {
  found : bool;
  detail : jsstring;
  matches : list OfacMatch.t;
}.
End OfacSanctionsResult.

Module CourtListenerCase.
Record t := {
  id : Z;
  caseName : jsstring;
  court : jsstring;
  dateArgued : option jsstring;
  dateFiled : option jsstring;
  docketNumber : jsstring;
  absoluteUrl : jsstring;
}.
End CourtListenerCase.

(** [caseCount] is an integer count of search hits. *)
Module CourtRecordsResult.
Record t := {
  found : bool;
  detail : jsstring;
  caseCount : Z;
  cases : list CourtListenerCase.t;
}.
End CourtRecordsResult.

Inductive RedFlagSeverity := CRITICAL | HIGH | MEDIUM.

Inductive RedFlagSource := irs_revocation | ofac_sanctions | court_records.

Inductive Recommendation := CLEAN | FLAG | BLOCK.

Module RedFlag.
Record t := {
  severity : RedFlagSeverity;
  source : RedFlagSource;
  type : jsstring;
  detail : jsstring;
}.
End RedFlag.

Module RedFlagChecks.
Record t := {
  irs_revocation : IrsRevocationResult.t;
  ofac_sanctions : OfacSanctionsResult.t;
  court_records : CourtRecordsResult.t;
}.
End RedFlagChecks.

Module RedFlagSummary.
Record t := {
  headline : jsstring;
  sources_checked : Z;
  flags_found : nat;
  recommendation : Recommendation;
}.
End RedFlagSummary.

Module RedFlagReport.
Record t := {
  ein : jsstring;
  name : jsstring;
  checks : RedFlagChecks.t;
  flags : list RedFlag.t;
  clean : bool;
  summary : RedFlagSummary.t;
}.
End RedFlagReport.

(** [downloaded_at] is kept as the clock reading whose ISO rendering the
    manifest stores. *)
Module DataManifest.
Record irs_entry := {
  downloaded_at : Z;
  row_count : nat;
}.
Record ofac_entry := {
  ofac_downloaded_at : Z;
  sdn_count : nat;
  alt_count : nat;
}.
Record t := {
  irs_revocation : option irs_entry;
  ofac_sdn : option ofac_entry;
}.
End DataManifest.

Module ToolResponse.
Record t (T : Type) := {
  success : bool;
  data : option T;
  error : option jsstring;
  attribution : jsstring;
}.
Arguments success {T}.
Arguments data {T}.
Arguments error {T}.
Arguments attribution {T}.
End ToolResponse.

Module CheckRedFlagsInput.
Record t := {
  ein : jsstring;
  name : jsstring;
}.
End CheckRedFlagsInput.

Inductive RefreshSource := irs | ofac | all.

Global Instance RedFlagSeverity_eq_dec : EqDecision RedFlagSeverity.
Proof. solve_decision. Defined.

Global Instance Recommendation_eq_dec : EqDecision Recommendation.
Proof. solve_decision. Defined.

Global Instance RedFlagSource_eq_dec : EqDecision RedFlagSource.
Proof. solve_decision. Defined.

(** ** The data directory, the network and the clock *)

(** A [Buffer] is kept as its byte length and its UTF-8 decoding: the store
    only inspects the first and parses the second. *)
Record Buffer := {
  byteLength : Z;
  utf8 : jsstring;
}.

(** An entry of a ZIP directory: the size its header declares and what
    [file.buffer()] yields (it may throw). *)
Record ZipEntry := {
  uncompressedSize : Z;
  buffer : jsstring + Buffer;
}.

(** Downloaded ZIP bytes, kept as what [unzipper.Open.file] makes of them: an
    error or [directory.files]. *)
Definition ZipArchive : Type := jsstring + list ZipEntry.

Inductive DataFile := IrsZip | IrsCsv | SdnCsv | AltCsv | ManifestJson.

(** The files of [config.dataDir]; [None] is a missing file (for the
    manifest: missing or unparsable, [loadManifest] treats both alike).
    File operations themselves are assumed not to fail. *)
Record Disk := {
  irs_zip : option ZipArchive;
  irs_csv : option Buffer;
  sdn_csv : option jsstring;
  alt_csv : option jsstring;
  data_manifest : option DataManifest.t;
}.

Inductive IoEvent :=
  | HttpGet (url : jsstring)
  | WriteFile (f : DataFile)
  | ReadFile (f : DataFile)
  | ExistsSync (f : DataFile).

(** The answers of the outside world during one call of the public API: clock
    readings and HTTP responses ([inl] is a failed request with its message). *)
Record Env := {
  clock_entry : Z;
  clock_irs : Z;
  clock_ofac : Z;
  clock_exit : Z;
  http_irs : jsstring + ZipArchive;
  http_sdn : jsstring + jsstring;
  http_alt : jsstring + jsstring;
}.

Record RedFlagConfig := {
  dataMaxAgeDays : Z;
}.

(** The private fields of [class CsvDataStore]. *)
Record CsvDataStore := {
  irsMap : gmap jsstring IrsRevocationRow.t;
  ofacNameMap : gmap jsstring (list OfacSdnRow.t);
  config : RedFlagConfig;
  lastRefreshAt : Z;
}.

Record World := {
  store : CsvDataStore;
  disk : Disk;
  trace : list IoEvent;
}.

(** ** A state-and-exception monad for the asynchronous methods *)

Inductive Outcome (A : Type) :=
  | Return (a : A)
  | Throw (message : jsstring)
  | OutOfFuel.
Arguments Return {A}.
Arguments Throw {A}.
Arguments OutOfFuel {A}.

Definition M (A : Type) : Type := World → Outcome A * World.

Definition ret {A} (a : A) : M A := λ w, (Return a, w).

Definition bind {A B} (m : M A) (k : A → M B) : M B :=
  λ w, match m w with
       | (Return a, w') => k a w'
       | (Throw e, w') => (Throw e, w')
       | (OutOfFuel, w') => (OutOfFuel, w')
       end.

Definition throw {A} (message : jsstring) : M A := λ w, (Throw message, w).

Definition outOfFuel {A} : M A := λ w, (OutOfFuel, w).

(** [try { body } catch (error) { handler(getErrorMessage(error)) }].  An
    exception is kept as its message: that is what [getErrorMessage] of
    core/logging extracts, written inline in the older version of the loader
    as [error instanceof Error ? error.message : String(error)]. *)
Definition tryCatch {A} (body : M A) (handler : jsstring → M A) : M A :=
  λ w, match body w with
       | (Throw e, w') => handler e w'
       | r => r
       end.

Notation "x <- m ;; k" := (bind m (λ x, k))
  (at level 100, m at next level, right associativity).
Notation "m ;;; k" := (bind m (λ _, k))
  (at level 100, right associativity).

Definition getStore : M CsvDataStore := λ w, (Return (store w), w).

Definition getDisk : M Disk := λ w, (Return (disk w), w).

Definition putStore (s : CsvDataStore) : M unit :=
  λ w, (Return tt, {| store := s; disk := disk w; trace := trace w |}).

Definition putDisk (d : Disk) : M unit :=
  λ w, (Return tt, {| store := store w; disk := d; trace := trace w |}).

Definition emit (e : IoEvent) : M unit :=
  λ w, (Return tt, {| store := store w; disk := disk w;
                      trace := trace w ++ [e] |}).

Definition set_irsMap (m : gmap jsstring IrsRevocationRow.t) : M unit :=
  s <- getStore ;;
  putStore {| irsMap := m; ofacNameMap := ofacNameMap s; config := config s;
              lastRefreshAt := lastRefreshAt s |}.

Definition set_ofacNameMap (m : gmap jsstring (list OfacSdnRow.t)) : M unit :=
  s <- getStore ;;
  putStore {| irsMap := irsMap s; ofacNameMap := m; config := config s;
              lastRefreshAt := lastRefreshAt s |}.

Definition set_lastRefreshAt (t : Z) : M unit :=
  s <- getStore ;;
  putStore {| irsMap := irsMap s; ofacNameMap := ofacNameMap s;
              config := config s; lastRefreshAt := t |}.

(** [axios.get(url, ...)]: the request is issued, then resolves or rejects. *)
Definition httpGet {A} (url : jsstring) (response : jsstring + A) : M A :=
  emit (HttpGet url) ;;;
  match response with
  | inl message => throw message
  | inr body => ret body
  end.

Definition existsSync (f : DataFile) : M bool :=
  emit (ExistsSync f) ;;;
  d <- getDisk ;;
  ret match f with
      | IrsZip => bool_decide (is_Some (irs_zip d))
      | IrsCsv => bool_decide (is_Some (irs_csv d))
      | SdnCsv => bool_decide (is_Some (sdn_csv d))
      | AltCsv => bool_decide (is_Some (alt_csv d))
      | ManifestJson => bool_decide (is_Some (data_manifest d))
      end.

Definition enoent : jsstring := lit "ENOENT: no such file or directory".

Definition fromFile {A} (content : option A) : M A :=
  match content with
  | Some c => ret c
  | None => throw enoent
  end.

Definition writeIrsZip (z : ZipArchive) : M unit :=
  emit (WriteFile IrsZip) ;;;
  d <- getDisk ;;
  putDisk {| irs_zip := Some z; irs_csv := irs_csv d; sdn_csv := sdn_csv d;
             alt_csv := alt_csv d; data_manifest := data_manifest d |}.

Definition writeIrsCsv (b : Buffer) : M unit :=
  emit (WriteFile IrsCsv) ;;;
  d <- getDisk ;;
  putDisk {| irs_zip := irs_zip d; irs_csv := Some b; sdn_csv := sdn_csv d;
             alt_csv := alt_csv d; data_manifest := data_manifest d |}.

Definition writeSdnCsv (s : jsstring) : M unit :=
  emit (WriteFile SdnCsv) ;;;
  d <- getDisk ;;
  putDisk {| irs_zip := irs_zip d; irs_csv := irs_csv d; sdn_csv := Some s;
             alt_csv := alt_csv d; data_manifest := data_manifest d |}.

Definition writeAltCsv (s : jsstring) : M unit :=
  emit (WriteFile AltCsv) ;;;
  d <- getDisk ;;
  putDisk {| irs_zip := irs_zip d; irs_csv := irs_csv d; sdn_csv := sdn_csv d;
             alt_csv := Some s; data_manifest := data_manifest d |}.

Definition readIrsCsv : M jsstring :=
  emit (ReadFile IrsCsv) ;;;
  d <- getDisk ;;
  b <- fromFile (irs_csv d) ;;
  ret (utf8 b).

Definition readSdnCsv : M jsstring :=
  emit (ReadFile SdnCsv) ;;; d <- getDisk ;; fromFile (sdn_csv d).

Definition readAltCsv : M jsstring :=
  emit (ReadFile AltCsv) ;;; d <- getDisk ;; fromFile (alt_csv d).

(** [unzipper.Open.file(zipPath)] followed by [directory.files]. *)
Definition openIrsZip : M (list ZipEntry) :=
  emit (ReadFile IrsZip) ;;;
  d <- getDisk ;;
  z <- fromFile (irs_zip d) ;;
  match z with
  | inl message => throw message
  | inr files => ret files
  end.

(** [file.buffer()] *)
Definition entryBuffer (file : ZipEntry) : M Buffer :=
  emit (ReadFile IrsZip) ;;;
  match buffer file with
  | inl message => throw message
  | inr b => ret b
  end.

(** ** csv-loader.ts: [class CsvDataStore] *)

Definition IRS_REVOCATION_URL : jsstring :=
  lit "https://apps.irs.gov/pub/epostcard/data-download-revocation.zip".
Definition OFAC_SDN_URL : jsstring :=
  lit "https://www.treasury.gov/ofac/downloads/sdn.csv".
Definition OFAC_ALT_URL : jsstring :=
  lit "https://www.treasury.gov/ofac/downloads/alt.csv".

Definition MAX_ZIP_SIZE_BYTES : Z := 100 * 1024 * 1024.
Definition MIN_IRS_ROWS : Z := 400000.
Definition MIN_OFAC_ENTRIES : Z := 4000.
Definition REFRESH_COOLDOWN_MS : Z := 60000.

(** [map.size] *)
Definition mapSize {V} (m : gmap jsstring V) : Z := Z.of_nat (size m).

(** The class [[-\s]]. *)
Definition isDashOrWhiteSpace (c : N) : bool := (c =? 45) || isWhiteSpace c.

(** [fields[i]?.trim() || ''] *)
Definition fieldAt (fields : list jsstring) (i : nat) : jsstring :=
  match fields !! i with
  | Some f => trim f
  | None => []
  end.

(** The body of the [for] loop of [parseIrsCsv] on [lines[i]]. *)
Definition parseIrsLine (map : gmap jsstring IrsRevocationRow.t)
    (rawLine : jsstring) : gmap jsstring IrsRevocationRow.t :=
  let line := trim rawLine in
  if negb (truthy line) then map
  else
    let fields := split 124 line in
    if (length fields <? 11)%nat then map
    else
      let ein := removeAll isDashOrWhiteSpace (fieldAt fields 0) in
      if negb (isNineDigits ein) then map
      else
        let row :=
          {| IrsRevocationRow.ein := ein;
             IrsRevocationRow.legalName := fieldAt fields 1;
             IrsRevocationRow.dba := fieldAt fields 2;
             IrsRevocationRow.city := fieldAt fields 3;
             IrsRevocationRow.state := fieldAt fields 4;
             IrsRevocationRow.zip := fieldAt fields 5;
             IrsRevocationRow.country := fieldAt fields 6;
             IrsRevocationRow.exemptionType := fieldAt fields 7;
             IrsRevocationRow.revocationDate := fieldAt fields 8;
             IrsRevocationRow.postingDate := fieldAt fields 9;
             IrsRevocationRow.reinstatementDate := fieldAt fields 10 |} in
        <[ein := row]> map.

(** The header line is skipped: the loop starts at index 1. *)
Definition parseIrsCsv (content : jsstring) : gmap jsstring IrsRevocationRow.t :=
  foldl parseIrsLine ∅ (drop 1 (split 10 content)).

Definition lookupEin (s : CsvDataStore) (ein : jsstring)
    : option IrsRevocationRow.t :=
  let normalized := removeAll isDashOrWhiteSpace ein in
  irsMap s !! normalized.

Definition loadManifest : M DataManifest.t :=
  emit (ReadFile ManifestJson) ;;;
  d <- getDisk ;;
  ret (default {| DataManifest.irs_revocation := None;
                  DataManifest.ofac_sdn := None |}
         (data_manifest d)).

Definition saveManifest (manifest : DataManifest.t) : M unit :=
  emit (WriteFile ManifestJson) ;;;
  d <- getDisk ;;
  putDisk {| irs_zip := irs_zip d; irs_csv := irs_csv d; sdn_csv := sdn_csv d;
             alt_csv := alt_csv d; data_manifest := Some manifest |}.

(** [isStale] at clock reading [now]. *)
Definition isStale (s : CsvDataStore) (now : Z) (downloadedAt : option Z)
    : bool :=
  match downloadedAt with
  | None => true
  | Some downloaded =>
      (dataMaxAgeDays (config s) * (1000 * 60 * 60 * 24) <? now - downloaded)%Z
  end.

(** [parseIrsFromDisk], given the method it calls when no cache exists. *)
Definition parseIrsFromDiskWith
    (downloadAndParseIrs : DataManifest.t → M DataManifest.t) : M unit :=
  cached <- existsSync IrsCsv ;;
  if negb cached then
    manifest <- loadManifest ;;
    downloadAndParseIrs manifest ;;;
    ret tt
  else
    content <- readIrsCsv ;;
    let loaded := parseIrsCsv content in
    set_irsMap loaded.

(** [downloadAndParseIrs], given the method its [catch] block falls back to.
    It returns the manifest object as the caller sees it afterwards (the
    method mutates its argument on success). *)
Definition downloadAndParseIrsWith (parseIrsFromDisk : M unit) (env : Env)
    (manifest : DataManifest.t) : M DataManifest.t :=
  tryCatch
    (response <- httpGet IRS_REVOCATION_URL (http_irs env) ;;
     writeIrsZip response ;;;
     files <- openIrsZip ;;
     match files with
     | [] => throw (lit "IRS ZIP file is empty")
     | file :: _ =>
         if negb (uncompressedSize file =? 0)%Z
            && (MAX_ZIP_SIZE_BYTES <? uncompressedSize file)%Z
         then throw (lit "IRS ZIP entry too large: "
                       ++ ofZ (uncompressedSize file) ++ lit " bytes (limit: "
                       ++ ofZ MAX_ZIP_SIZE_BYTES ++ lit ")")
         else
           content <- entryBuffer file ;;
           if (MAX_ZIP_SIZE_BYTES <? byteLength content)%Z
           then throw (lit "IRS ZIP extracted content too large: "
                         ++ ofZ (byteLength content) ++ lit " bytes (limit: "
                         ++ ofZ MAX_ZIP_SIZE_BYTES ++ lit ")")
           else
             writeIrsCsv content ;;;
             let newMap := parseIrsCsv (utf8 content) in
             if (mapSize newMap <? MIN_IRS_ROWS)%Z
             then throw (lit "IRS data too small: " ++ ofZ (mapSize newMap)
                           ++ lit " rows (expected >= " ++ ofZ MIN_IRS_ROWS
                           ++ lit ")")
             else
               set_irsMap newMap ;;;
               let manifest' :=
                 {| DataManifest.irs_revocation :=
                      Some {| DataManifest.downloaded_at := clock_irs env;
                              DataManifest.row_count := size newMap |};
                    DataManifest.ofac_sdn :=
                      DataManifest.ofac_sdn manifest |} in
               saveManifest manifest' ;;;
               ret manifest'
     end)
    (λ msg,
       cached <- existsSync IrsCsv ;;
       if cached then parseIrsFromDisk ;;; ret manifest
       else throw (lit "Cannot load IRS revocation data: " ++ msg)).

(** The two methods call each other; [depth] bounds the nesting of calls. *)
Fixpoint downloadAndParseIrs (depth : nat) (env : Env)
    (manifest : DataManifest.t) : M DataManifest.t :=
  match depth with
  | O => outOfFuel
  | S depth' =>
      downloadAndParseIrsWith
        (parseIrsFromDiskWith (downloadAndParseIrs depth' env)) env manifest
  end.

Definition parseIrsFromDisk (depth : nat) (env : Env) : M unit :=
  match depth with
  | O => outOfFuel
  | S depth' => parseIrsFromDiskWith (downloadAndParseIrs depth' env)
  end.

Section WithRuntime.
Context `{!JsRuntime}.

Definition lookupName (s : CsvDataStore) (name : jsstring) : list OfacSdnRow.t :=
  let normalized := normalizeName name in
  default [] (ofacNameMap s !! normalized).

(** [record[i]?.trim() || ''] is [fieldAt]. *)
Definition parseSdnCsv (content : jsstring) : jsstring + list OfacSdnRow.t :=
  match csv_parse content with
  | inl message => inl message
  | inr records =>
      inr ((λ record,
              {| OfacSdnRow.entNum := fieldAt record 0;
                 OfacSdnRow.name := fieldAt record 1;
                 OfacSdnRow.sdnType := fieldAt record 2;
                 OfacSdnRow.program := fieldAt record 3;
                 OfacSdnRow.title := fieldAt record 4;
                 OfacSdnRow.remarks := fieldAt record 5 |})
             <$> filter (λ record, ¬ (length record < 6)%nat) records)
  end.

Definition parseAltCsv (content : jsstring) : jsstring + list OfacAltRow.t :=
  match csv_parse content with
  | inl message => inl message
  | inr records =>
      inr ((λ record,
              {| OfacAltRow.entNum := fieldAt record 0;
                 OfacAltRow.altNum := fieldAt record 1;
                 OfacAltRow.altType := fieldAt record 2;
                 OfacAltRow.altName := fieldAt record 3;
                 OfacAltRow.altRemarks := fieldAt record 4 |})
             <$> filter (λ record, ¬ (length record < 5)%nat) records)
  end.

(** The two local maps of [buildOfacNameMap]. *)
Record OfacIndex := {
  map : gmap jsstring (list OfacSdnRow.t);
  sdnByEntNum : gmap jsstring OfacSdnRow.t;
}.

(** Body of the first loop, on one primary row.  [existing] is either the
    array already stored under the key, extended in place, or a new one. *)
Definition indexSdnRow (ix : OfacIndex) (row : OfacSdnRow.t) : OfacIndex :=
  let byEntNum := <[OfacSdnRow.entNum row := row]> (sdnByEntNum ix) in
  let normalized := normalizeName (OfacSdnRow.name row) in
  if truthy normalized then
    let existing := default [] (map ix !! normalized) in
    {| map := <[normalized := existing ++ [row]]> (map ix);
       sdnByEntNum := byEntNum |}
  else {| map := map ix; sdnByEntNum := byEntNum |}.

(** [existing.some((r) => r.entNum === sdnRow.entNum)] *)
Definition someEntNum (existing : list OfacSdnRow.t) (sdnRow : OfacSdnRow.t)
    : bool :=
  existsb (λ r, bool_decide (OfacSdnRow.entNum r = OfacSdnRow.entNum sdnRow)) existing.

(** Body of the second loop, on one alias row. *)
Definition indexAltRow (ix : OfacIndex) (alt : OfacAltRow.t) : OfacIndex :=
  match sdnByEntNum ix !! OfacAltRow.entNum alt with
  | None => ix
  | Some sdnRow =>
      let normalized := normalizeName (OfacAltRow.altName alt) in
      if truthy normalized then
        let existing := default [] (map ix !! normalized) in
        let existing :=
          if someEntNum existing sdnRow then existing
          else existing ++ [sdnRow] in
        {| map := <[normalized := existing]> (map ix);
           sdnByEntNum := sdnByEntNum ix |}
      else ix
  end.

Definition buildOfacNameMap (sdnRows : list OfacSdnRow.t)
    (altRows : list OfacAltRow.t) : gmap jsstring (list OfacSdnRow.t) :=
  let ix := foldl indexSdnRow {| map := ∅; sdnByEntNum := ∅ |} sdnRows in
  map (foldl indexAltRow ix altRows).

Definition fromResult {A} (r : jsstring + A) : M A :=
  match r with
  | inl message => throw message
  | inr a => ret a
  end.

Definition parseOfacFromDiskWith
    (downloadAndParseOfac : DataManifest.t → M DataManifest.t) : M unit :=
  sdnCached <- existsSync SdnCsv ;;
  altCached <- (if sdnCached then existsSync AltCsv else ret false) ;;
  if negb sdnCached || negb altCached then
    manifest <- loadManifest ;;
    downloadAndParseOfac manifest ;;;
    ret tt
  else
    sdnContent <- readSdnCsv ;;
    altContent <- readAltCsv ;;
    sdnRows <- fromResult (parseSdnCsv sdnContent) ;;
    altRows <- fromResult (parseAltCsv altContent) ;;
    let loaded := buildOfacNameMap sdnRows altRows in
    set_ofacNameMap loaded.

(** Both requests of the [Promise.all] are issued before either result is
    used. *)
Definition downloadAndParseOfacWith (parseOfacFromDisk : M unit) (env : Env)
    (manifest : DataManifest.t) : M DataManifest.t :=
  tryCatch
    (emit (HttpGet OFAC_SDN_URL) ;;;
     emit (HttpGet OFAC_ALT_URL) ;;;
     sdnData <- fromResult (http_sdn env) ;;
     altData <- fromResult (http_alt env) ;;
     writeSdnCsv sdnData ;;;
     writeAltCsv altData ;;;
     sdnRows <- fromResult (parseSdnCsv sdnData) ;;
     altRows <- fromResult (parseAltCsv altData) ;;
     let newMap := buildOfacNameMap sdnRows altRows in
     if (mapSize newMap <? MIN_OFAC_ENTRIES)%Z
     then throw (lit "OFAC data too small: " ++ ofZ (mapSize newMap)
                   ++ lit " entries (expected >= " ++ ofZ MIN_OFAC_ENTRIES
                   ++ lit ")")
     else
       set_ofacNameMap newMap ;;;
       let manifest' :=
         {| DataManifest.irs_revocation :=
              DataManifest.irs_revocation manifest;
            DataManifest.ofac_sdn :=
              Some {| DataManifest.ofac_downloaded_at := clock_ofac env;
                      DataManifest.sdn_count := length sdnRows;
                      DataManifest.alt_count := length altRows |} |} in
       saveManifest manifest' ;;;
       ret manifest')
    (λ msg,
       sdnCached <- existsSync SdnCsv ;;
       altCached <- (if sdnCached then existsSync AltCsv else ret false) ;;
       if sdnCached && altCached then parseOfacFromDisk ;;; ret manifest
       else throw (lit "Cannot load OFAC data: " ++ msg)).

Fixpoint downloadAndParseOfac (depth : nat) (env : Env)
    (manifest : DataManifest.t) : M DataManifest.t :=
  match depth with
  | O => outOfFuel
  | S depth' =>
      downloadAndParseOfacWith
        (parseOfacFromDiskWith (downloadAndParseOfac depth' env)) env manifest
  end.

Definition parseOfacFromDisk (depth : nat) (env : Env) : M unit :=
  match depth with
  | O => outOfFuel
  | S depth' => parseOfacFromDiskWith (downloadAndParseOfac depth' env)
  end.

(** Nesting depth granted to the public methods; [callDepth_enough] below
    shows that no call ever needs more than depth 1. *)
Definition callDepth : nat := 2.

Definition initialize (env : Env) : M unit :=
  manifest <- loadManifest ;;
  s <- getStore ;;
  let irsStale :=
    isStale s (clock_entry env)
      (DataManifest.downloaded_at <$> DataManifest.irs_revocation manifest) in
  let ofacStale :=
    isStale s (clock_entry env)
      (DataManifest.ofac_downloaded_at <$> DataManifest.ofac_sdn manifest) in
  manifest <- (if irsStale then downloadAndParseIrs callDepth env manifest
               else parseIrsFromDisk callDepth env ;;; ret manifest) ;;
  (if ofacStale then downloadAndParseOfac callDepth env manifest ;;; ret tt
   else parseOfacFromDisk callDepth env).

(** [Math.ceil(ms / 1000)] on an integer number of milliseconds. *)
Definition ceilSeconds (ms : Z) : Z := (- ((- ms) / 1000))%Z.

Definition cooldownMessage (waitSec : Z) : jsstring :=
  lit "Refresh cooldown: try again in " ++ ofZ waitSec ++ lit "s".

Record RefreshResult := {
  irs_refreshed : bool;
  ofac_refreshed : bool;
}.

Definition refresh (env : Env) (source : option RefreshSource)
    : M RefreshResult :=
  s <- getStore ;;
  let now := clock_entry env in
  let elapsed := (now - lastRefreshAt s)%Z in
  if (elapsed <? REFRESH_COOLDOWN_MS)%Z then
    let waitSec := ceilSeconds (REFRESH_COOLDOWN_MS - elapsed) in
    throw (cooldownMessage waitSec)
  else
    manifest <- loadManifest ;;
    let target := default all source in
    let refreshIrs :=
      match target with irs | all => true | ofac => false end in
    let refreshOfac :=
      match target with ofac | all => true | irs => false end in
    manifest <- (if refreshIrs then downloadAndParseIrs callDepth env manifest
                 else ret manifest) ;;
    (if refreshOfac then downloadAndParseOfac callDepth env manifest ;;; ret tt
     else ret tt) ;;;
    set_lastRefreshAt (clock_exit env) ;;;
    ret {| irs_refreshed := refreshIrs; ofac_refreshed := refreshOfac |}.

End WithRuntime.

(** ** irs-revocation-client.ts *)

Module IrsRevocationClient.

Definition invalidFormatDetail (ein : jsstring) : jsstring :=
  lit "Invalid EIN format: expected 9 digits, got " ++ [34] ++ ein ++ [34].

Definition notFoundDetail : jsstring :=
  lit "EIN not found in IRS auto-revocation list (good " ++ emDash
    ++ lit " no revocation on record)".

Definition check (store : CsvDataStore) (ein : jsstring)
    : IrsRevocationResult.t :=
  let normalized := removeAll isDashOrWhiteSpace ein in
  if negb (isNineDigits normalized) then
    {| IrsRevocationResult.found := false;
       IrsRevocationResult.revoked := false;
       IrsRevocationResult.detail := invalidFormatDetail ein;
       IrsRevocationResult.revocationDate := None;
       IrsRevocationResult.reinstatementDate := None;
       IrsRevocationResult.legalName := None |}
  else
    match lookupEin store normalized with
    | None =>
        {| IrsRevocationResult.found := false;
           IrsRevocationResult.revoked := false;
           IrsRevocationResult.detail := notFoundDetail;
           IrsRevocationResult.revocationDate := None;
           IrsRevocationResult.reinstatementDate := None;
           IrsRevocationResult.legalName := None |}
    | Some row =>
        if truthy (IrsRevocationRow.reinstatementDate row) then
          {| IrsRevocationResult.found := true;
             IrsRevocationResult.revoked := false;
             IrsRevocationResult.detail :=
               lit "Was revoked on " ++ IrsRevocationRow.revocationDate row
                 ++ lit " but reinstated on "
                 ++ IrsRevocationRow.reinstatementDate row;
             IrsRevocationResult.revocationDate :=
               Some (IrsRevocationRow.revocationDate row);
             IrsRevocationResult.reinstatementDate :=
               Some (IrsRevocationRow.reinstatementDate row);
             IrsRevocationResult.legalName :=
               Some (IrsRevocationRow.legalName row) |}
        else
          {| IrsRevocationResult.found := true;
             IrsRevocationResult.revoked := true;
             IrsRevocationResult.detail :=
               lit "Tax-exempt status REVOKED on "
                 ++ IrsRevocationRow.revocationDate row ++ lit " " ++ emDash
                 ++ lit " failed to file Form 990 for 3 consecutive years";
             IrsRevocationResult.revocationDate :=
               Some (IrsRevocationRow.revocationDate row);
             IrsRevocationResult.reinstatementDate := None;
             IrsRevocationResult.legalName :=
               Some (IrsRevocationRow.legalName row) |}
    end.

End IrsRevocationClient.

(** ** ofac-sdn-client.ts *)

Module OfacSdnClient.

Section WithRuntime.
Context `{!JsRuntime}.

Definition noMatchDetail : jsstring :=
  lit "No OFAC SDN matches found (good " ++ emDash
    ++ lit " not on sanctions list)".

Definition toMatch (normalized : jsstring) (row : OfacSdnRow.t)
    : OfacMatch.t :=
  let primaryNormalized := normalizeName (OfacSdnRow.name row) in
  let matchedOn :=
    if bool_decide (normalized = primaryNormalized) then primary else alias in
  {| OfacMatch.entNum := OfacSdnRow.entNum row;
     OfacMatch.name := OfacSdnRow.name row;
     OfacMatch.sdnType := OfacSdnRow.sdnType row;
     OfacMatch.program := OfacSdnRow.program row;
     OfacMatch.matchedOn := matchedOn |}.

Definition check (store : CsvDataStore) (name : jsstring)
    : OfacSanctionsResult.t :=
  let rows := lookupName store name in
  if (length rows =? 0)%nat then
    {| OfacSanctionsResult.found := false;
       OfacSanctionsResult.detail := noMatchDetail;
       OfacSanctionsResult.matches := [] |}
  else
    let normalized := normalizeName name in
    let matches := toMatch normalized <$> rows in
    {| OfacSanctionsResult.found := true;
       OfacSanctionsResult.detail :=
         lit "OFAC SDN MATCH " ++ emDash ++ lit " "
           ++ ofZ (Z.of_nat (length matches))
           ++ lit " sanctioned entity/entities found matching " ++ [34]
           ++ name ++ [34];
       OfacSanctionsResult.matches := matches |}.

End WithRuntime.

End OfacSdnClient.

(** ** scoring.ts *)

Definition aggregateFlags (irs : IrsRevocationResult.t)
    (ofac : OfacSanctionsResult.t) (court : CourtRecordsResult.t)
    : list RedFlag.t :=
  let flags := [] in
  let flags :=
    if IrsRevocationResult.revoked irs then
      flags ++ [ {| RedFlag.severity := CRITICAL;
                    RedFlag.source := irs_revocation;
                    RedFlag.type := lit "tax_exempt_status_revoked";
                    RedFlag.detail := IrsRevocationResult.detail irs |} ]
    else flags in
  let flags :=
    if OfacSanctionsResult.found ofac then
      flags ++ [ {| RedFlag.severity := CRITICAL;
                    RedFlag.source := ofac_sanctions;
                    RedFlag.type := lit "sanctions_list_match";
                    RedFlag.detail := OfacSanctionsResult.detail ofac |} ]
    else flags in
  let flags :=
    if CourtRecordsResult.found court then
      let severity :=
        if (3 <=? CourtRecordsResult.caseCount court)%Z then HIGH
        else MEDIUM in
      flags ++ [ {| RedFlag.severity := severity;
                    RedFlag.source := court_records;
                    RedFlag.type := lit "federal_court_cases";
                    RedFlag.detail := CourtRecordsResult.detail court |} ]
    else flags in
  flags.

Definition isCritical (f : RedFlag.t) : bool :=
  bool_decide (RedFlag.severity f = CRITICAL).

Definition getRecommendation (flags : list RedFlag.t) : Recommendation :=
  if existsb isCritical flags then BLOCK
  else if (0 <? length flags)%nat then FLAG
  else CLEAN.

(** ** messages.ts *)

Definition HEADLINES (r : Recommendation) : jsstring :=
  match r with
  | CLEAN => lit "No Red Flags Detected"
  | FLAG => lit "Red Flags Found " ++ emDash ++ lit " Manual Review Required"
  | BLOCK => lit "CRITICAL Red Flags " ++ emDash ++ lit " Do Not Proceed"
  end.

Definition generateSummary (flags : list RedFlag.t)
    (recommendation : Recommendation) (sourcesChecked : Z)
    : RedFlagSummary.t :=
  {| RedFlagSummary.headline := HEADLINES recommendation;
     RedFlagSummary.sources_checked := sourcesChecked;
     RedFlagSummary.flags_found := length flags;
     RedFlagSummary.recommendation := recommendation |}.

(** ** tools.ts *)

Module Tools.

Definition ATTRIBUTION : jsstring :=
  lit "Data from IRS Auto-Revocation List, US Treasury OFAC SDN List, and CourtListener (Free Law Project)".

Definition MAX_NAME_LENGTH : nat := 500.
Definition MAX_EIN_LENGTH : nat := 20.

Definition validationError {T} (message : jsstring) : ToolResponse.t T :=
  {| ToolResponse.success := false;
     ToolResponse.data := None;
     ToolResponse.error := Some message;
     ToolResponse.attribution := ATTRIBUTION |}.

(** [courtClient.searchByOrgName(name)] as the caller sees it: a result or a
    rejection with its message. *)
Definition CourtListenerClient : Type :=
  jsstring → jsstring + CourtRecordsResult.t.

Definition courtNotConfigured : CourtRecordsResult.t :=
  {| CourtRecordsResult.found := false;
     CourtRecordsResult.detail :=
       lit "Court record checks not configured (no CourtListener API token)";
     CourtRecordsResult.caseCount := 0;
     CourtRecordsResult.cases := [] |}.

Section WithRuntime.
Context `{!JsRuntime}.

(** The two store-backed clients are given by the store they wrap. *)
Definition checkRedFlags (store : CsvDataStore)
    (courtClient : option CourtListenerClient) (input : CheckRedFlagsInput.t)
    : ToolResponse.t RedFlagReport.t :=
  let ein := trim (CheckRedFlagsInput.ein input) in
  let name := trim (CheckRedFlagsInput.name input) in
  if negb (truthy ein) || negb (truthy name) then
    validationError (lit "Both ein and name are required")
  else if (MAX_EIN_LENGTH <? length ein)%nat then
    validationError (lit "EIN too long (max "
                       ++ ofZ (Z.of_nat MAX_EIN_LENGTH) ++ lit " characters)")
  else if (MAX_NAME_LENGTH <? length name)%nat then
    validationError (lit "Name too long (max "
                       ++ ofZ (Z.of_nat MAX_NAME_LENGTH) ++ lit " characters)")
  else
    let irsResult := IrsRevocationClient.check store ein in
    let ofacResult := OfacSdnClient.check store name in
    match match courtClient with
          | Some client => client name
          | None => inr courtNotConfigured
          end with
    | inl message =>
        validationError (lit "Red flag check failed: " ++ message)
    | inr courtResult =>
        let flags := aggregateFlags irsResult ofacResult courtResult in
        let recommendation := getRecommendation flags in
        let summary := generateSummary flags recommendation 3 in
        let report :=
          {| RedFlagReport.ein := ein;
             RedFlagReport.name := name;
             RedFlagReport.checks :=
               {| RedFlagChecks.irs_revocation := irsResult;
                  RedFlagChecks.ofac_sanctions := ofacResult;
                  RedFlagChecks.court_records := courtResult |};
             RedFlagReport.flags := flags;
             RedFlagReport.clean := (length flags =? 0)%nat;
             RedFlagReport.summary := summary |} in
        {| ToolResponse.success := true;
           ToolResponse.data := Some report;
           ToolResponse.error := None;
           ToolResponse.attribution := ATTRIBUTION |}
    end.

End WithRuntime.

End Tools.


(** ** tools.ts: the single-source tools *)

Module CheckIrsRevocationInput.
Record t := {
  ein : jsstring;
}.
End CheckIrsRevocationInput.

Module CheckOfacSanctionsInput.
Record t := {
  name : jsstring;
}.
End CheckOfacSanctionsInput.

Module RefreshDataInput.
Record t := {
  source : option RefreshSource;
}.
End RefreshDataInput.

Module ToolsSingle.

Definition checkIrsRevocation (store : CsvDataStore)
    (input : CheckIrsRevocationInput.t)
    : ToolResponse.t IrsRevocationResult.t :=
  let ein := trim (CheckIrsRevocationInput.ein input) in
  if negb (truthy ein) then Tools.validationError (lit "EIN is required")
  else if (Tools.MAX_EIN_LENGTH <? length ein)%nat then
    Tools.validationError
      (lit "EIN too long (max " ++ ofZ (Z.of_nat Tools.MAX_EIN_LENGTH)
         ++ lit " characters)")
  else
    let result := IrsRevocationClient.check store ein in
    {| ToolResponse.success := true;
       ToolResponse.data := Some result;
       ToolResponse.error := None;
       ToolResponse.attribution := Tools.ATTRIBUTION |}.

Section WithRuntime.
Context `{!JsRuntime}.

Definition checkOfacSanctions (store : CsvDataStore)
    (input : CheckOfacSanctionsInput.t)
    : ToolResponse.t OfacSanctionsResult.t :=
  let name := trim (CheckOfacSanctionsInput.name input) in
  if negb (truthy name) then Tools.validationError (lit "Name is required")
  else if (Tools.MAX_NAME_LENGTH <? length name)%nat then
    Tools.validationError
      (lit "Name too long (max " ++ ofZ (Z.of_nat Tools.MAX_NAME_LENGTH)
         ++ lit " characters)")
  else
    let result := OfacSdnClient.check store name in
    {| ToolResponse.success := true;
       ToolResponse.data := Some result;
       ToolResponse.error := None;
       ToolResponse.attribution := Tools.ATTRIBUTION |}.

(** [refreshData]: the response and the world [store.refresh] leaves.  Running
    out of call depth is kept apart from the two outcomes of the [try]. *)
Definition refreshData (env : Env) (input : RefreshDataInput.t)
    : M (ToolResponse.t RefreshResult) :=
  let source := default all (RefreshDataInput.source input) in
  tryCatch
    (result <- refresh env (Some source) ;;
     ret {| ToolResponse.success := true;
            ToolResponse.data := Some result;
            ToolResponse.error := None;
            ToolResponse.attribution := Tools.ATTRIBUTION |})
    (λ message,
       ret (Tools.validationError (lit "Data refresh failed: " ++ message))).

End WithRuntime.

End ToolsSingle.

(** ** courtlistener-client.ts *)

Module RateLimiter.

Record t := {
  lastRequestTime : Z;
  delayMs : Z;
}.

(** The largest delay a timer takes. *)
Definition TIMEOUT_MAX : Z := 2147483647.

(** The delay [setTimeout(resolve, ms)] applies: a request below 1 or above
    [TIMEOUT_MAX] is replaced by 1 ms. *)
Definition timerDelay (ms : Z) : Z :=
  if (ms <? 1)%Z || (TIMEOUT_MAX <? ms)%Z then 1%Z else ms.

(** [waitIfNeeded] at clock reading [now]: the delay of the timer the caller
    awaits before its request (0 when it does not wait), and the limiter it
    leaves.  [lastRequestTime] is the slot the caller reserves, [now +
    waitTime]; the timer is set for [waitTime] and fires after
    [timerDelay waitTime].  Clock readings and delays are integers. *)
Definition waitIfNeeded (now : Z) (r : t) : Z * t :=
  let elapsed := (now - lastRequestTime r)%Z in
  if (elapsed <? delayMs r)%Z then
    let waitTime := (delayMs r - elapsed)%Z in
    (timerDelay waitTime,
     {| lastRequestTime := (now + waitTime)%Z; delayMs := delayMs r |})
  else (0%Z, {| lastRequestTime := now; delayMs := delayMs r |}).

(** [new RateLimiter(delayMs)] *)
Definition new (delayMs : Z) : t :=
  {| lastRequestTime := 0; delayMs := delayMs |}.

End RateLimiter.

Module CourtListenerClient.

Record CourtListenerDocket := {
  id : Z;
  case_name : jsstring;
  court : jsstring;
  date_argued : option jsstring;
  date_filed : option jsstring;
  docket_number : jsstring;
  absolute_url : jsstring;
}.

(** The body of a search response as the code reads it: an object whose
    [count] and [results] may be missing or [null] ([None]) and whose
    [results], when present, is an array of dockets and [null]s ([None]). *)
Record CourtListenerSearchResponse := {
  count : option Z;
  results : option (list (option CourtListenerDocket));
}.

(** How [this.client.get] settles: a response with its body ([None] when
    the body is JSON [null]), an axios error that carries an HTTP status, or
    any other rejection. *)
Inductive Settled :=
  | Resolved (data : option CourtListenerSearchResponse)
  | HttpError (status : Z) (message : jsstring)
  | Rejected (message : jsstring).

(** The messages of the [TypeError]s raised by [response.data.results] on a
    [null] body and by [d.id] on a [null] docket. *)
Definition nullBodyError : jsstring :=
  lit "Cannot read properties of null (reading 'results')".
Definition nullDocketError : jsstring :=
  lit "Cannot read properties of null (reading 'id')".

(** The class of the pattern that strips Solr query syntax: backslash,
    double quote, plus, minus, exclamation mark, round, curly and square
    brackets, caret, tilde, asterisk, question mark, colon and slash. *)
Definition isSolrSyntax (c : N) : bool :=
  existsb (N.eqb c)
    [92; 34; 43; 45; 33; 40; 41; 123; 125; 91; 93; 94; 126; 42; 63; 58; 47].

Definition sanitizeName (name : jsstring) : jsstring :=
  removeAll isSolrSyntax name.

(** The [q] parameter of the search request. *)
Definition searchQuery (name : jsstring) : jsstring :=
  [34] ++ sanitizeName name ++ [34].

Definition toCase (d : CourtListenerDocket) : CourtListenerCase.t :=
  {| CourtListenerCase.id := id d;
     CourtListenerCase.caseName := case_name d;
     CourtListenerCase.court := court d;
     CourtListenerCase.dateArgued := date_argued d;
     CourtListenerCase.dateFiled := date_filed d;
     CourtListenerCase.docketNumber := docket_number d;
     CourtListenerCase.absoluteUrl :=
       if truthy (absolute_url d)
       then lit "https://www.courtlistener.com" ++ absolute_url d
       else [] |}.

Definition pastYears (name : jsstring) (lookbackYears : Z) : jsstring :=
  lit " for " ++ [34] ++ name ++ [34] ++ lit " in the past "
    ++ ofZ lookbackYears ++ lit " year(s)".

(** [searchByOrgName] from the point where the request settles.  A
    [TypeError] raised inside the [try] is not an axios error, so the [catch]
    block throws it again. *)
Definition searchByOrgName (name : jsstring) (lookbackYears : Z)
    (settled : Settled) : jsstring + CourtRecordsResult.t :=
  match settled with
  | Resolved None => inl nullBodyError
  | Resolved (Some data) =>
      let results := default [] (results data) in
      let totalCount := default 0%Z (count data) in
      if (length results =? 0)%nat then
        inr {| CourtRecordsResult.found := false;
               CourtRecordsResult.detail :=
                 lit "No federal court cases found"
                   ++ pastYears name lookbackYears;
               CourtRecordsResult.caseCount := 0;
               CourtRecordsResult.cases := [] |}
      else
        match mapM (M := option) (λ d, d) results with
        | None => inl nullDocketError
        | Some dockets =>
            inr {| CourtRecordsResult.found := true;
                   CourtRecordsResult.detail :=
                     lit "Found " ++ ofZ totalCount
                       ++ lit " federal court case(s)"
                       ++ pastYears name lookbackYears;
                   CourtRecordsResult.caseCount := totalCount;
                   CourtRecordsResult.cases := toCase <$> dockets |}
        end
  | HttpError status message =>
      if (status =? 401)%Z then
        inl (lit "CourtListener API token is invalid or expired")
      else if (status =? 429)%Z then
        inr {| CourtRecordsResult.found := false;
               CourtRecordsResult.detail :=
                 lit "CourtListener rate limit exceeded "
                   ++ [226; 8364; 8221] ++ lit " try again later";
               CourtRecordsResult.caseCount := 0;
               CourtRecordsResult.cases := [] |}
      else inl message
  | Rejected message => inl message
  end.

End CourtListenerClient.

(** ** core/config.ts *)

Module Config.

Record t := {
  courtlistenerApiToken : option jsstring;
  courtlistenerBaseUrl : jsstring;
  courtlistenerRateLimitMs : Z;
  dataDir : jsstring;
  dataMaxAgeDays : Z;
}.

Definition COURTLISTENER_BASE_URL : jsstring :=
  lit "https://www.courtlistener.com/api/rest/v4".

Section WithNumber.

(** [Number(val)] where [Number.isInteger] accepts it, [None] where it does
    not. *)
Variable integerOf : jsstring → option Z.

(** [envInt] over [process.env]. *)
Definition envInt (env : gmap jsstring jsstring) (key : jsstring)
    (fallback : Z) : Z :=
  match env !! key with
  | None => fallback
  | Some val =>
      if bool_decide (trim val = []) then fallback
      else default fallback (integerOf val)
  end.

(** [loadConfig], given the resolved path of the data directory. *)
Definition loadConfig (resolvedDataDir : jsstring)
    (env : gmap jsstring jsstring) : t :=
  {| courtlistenerApiToken :=
       match env !! lit "COURTLISTENER_API_TOKEN" with
       | Some token => if truthy token then Some token else None
       | None => None
       end;
     courtlistenerBaseUrl := COURTLISTENER_BASE_URL;
     courtlistenerRateLimitMs :=
       Z.max 100 (envInt env (lit "COURTLISTENER_RATE_LIMIT_MS") 500);
     dataDir := resolvedDataDir;
     dataMaxAgeDays := Z.max 1 (envInt env (lit "DATA_MAX_AGE_DAYS") 7) |}.

End WithNumber.

End Config.

(** What [new CsvDataStore(config)] keeps of the configuration. *)
Definition storeConfig (c : Config.t) : RedFlagConfig :=
  {| dataMaxAgeDays := Config.dataMaxAgeDays c |}.

(** * Vocabulary of the statements *)

(** Every code unit of [s] is in the class [p]. *)
Definition allOf (p : N → bool) (s : jsstring) : Prop :=
  Forall (λ c, p c = true) s.

(** The class [[a-z0-9 ]]. *)
Definition isPlain (c : N) : bool := isLower c || isDigit c || (c =? 32).

(** White space occurs only as single U+0020 code units: each is followed by
    the end of the string or by a code unit that is not white space. *)
Fixpoint singleSpaced (s : jsstring) : bool :=
  match s with
  | [] => true
  | c :: t =>
      (if isWhiteSpace c then
         (c =? 32) && match t with
                      | [] => true
                      | c' :: _ => negb (isWhiteSpace c')
                      end
       else true)
      && singleSpaced t
  end.

(** The flags of [aggregateFlags] that come from the court-records check. *)
Definition litigationFlags (flags : list RedFlag.t) : list RedFlag.t :=
  filter (λ f, RedFlag.source f = court_records) flags.

(** The flag the third block of [aggregateFlags] pushes. *)
Definition courtFlag (court : CourtRecordsResult.t) : RedFlag.t :=
  {| RedFlag.severity :=
       if (3 <=? CourtRecordsResult.caseCount court)%Z then HIGH else MEDIUM;
     RedFlag.source := court_records;
     RedFlag.type := lit "federal_court_cases";
     RedFlag.detail := CourtRecordsResult.detail court |}.

(** The rule of the design document for litigation results: the case count
    alone decides the litigation flag. *)
Definition caseCountDecidesFlag : Prop :=
  ∀ irs ofac court,
    let count := CourtRecordsResult.caseCount court in
    let flags := litigationFlags (aggregateFlags irs ofac court) in
    ((1 ≤ count)%Z
     → ∃ f, flags = [f]
            ∧ RedFlag.severity f = if (3 <=? count)%Z then HIGH else MEDIUM)
    ∧ (count = 0%Z → flags = []).

(** The primary rows whose name normalises to [key], in list order. *)
Definition rowsUnder `{!JsRuntime} (key : jsstring)
    (rows : list OfacSdnRow.t) : list OfacSdnRow.t :=
  filter (λ r, normalizeName (OfacSdnRow.name r) = key) rows.

(** No two rows of a sequence carry the same entity number. *)
Definition distinctEntNums (rows : list OfacSdnRow.t) : Prop :=
  NoDup (OfacSdnRow.entNum <$> rows).

(** The rule of the design document for the name index, for arbitrary
    primary and alias rows. *)
Definition indexNeverRepeatsEntity `{!JsRuntime} : Prop :=
  ∀ sdnRows altRows key rows,
    buildOfacNameMap sdnRows altRows !! key = Some rows
    → distinctEntNums rows.

(** The store right after [new CsvDataStore(config)]. *)
Definition newStore (config : RedFlagConfig) : CsvDataStore :=
  {| irsMap := ∅; ofacNameMap := ∅; config := config; lastRefreshAt := 0 |}.

(** The worlds a store can be in: it is constructed, [initialize] and
    [refresh] run on it (to completion or to a throw) under any answers of
    the outside world, and other processes may change the data directory in
    between. *)
Inductive reachable `{!JsRuntime} : World → Prop :=
  | reachable_new config d :
      reachable {| store := newStore config; disk := d; trace := [] |}
  | reachable_initialize env w :
      reachable w → reachable (initialize env w).2
  | reachable_refresh env source w :
      reachable w → reachable (refresh env source w).2
  | reachable_disk d w :
      reachable w
      → reachable {| store := store w; disk := d; trace := trace w |}.

(** [sound I m]: started where [I] holds, [m] ends by returning or throwing,
    never for lack of call depth, and [I] holds where it ends. *)
Definition sound {A} (I : World → Prop) (m : M A) : Prop :=
  ∀ w, I w → I (m w).2 ∧ (m w).1 ≠ OutOfFuel.

(** A property of the published name map, as a property of the world. *)
Definition onNameMap (J : gmap jsstring (list OfacSdnRow.t) → Prop)
    (w : World) : Prop :=
  J (ofacNameMap (store w)).

(** The cooldown rule as the design document words it: of any two
    invocations of [refresh] whose starts are less than 60 s apart, the
    second is rejected and leaves the world as it found it. *)
Definition cooldownBetweenInvocations `{!JsRuntime} : Prop :=
  ∀ w env1 source1 env2 source2,
    reachable w
    → (0 ≤ clock_entry env2 - clock_entry env1 < REFRESH_COOLDOWN_MS)%Z
    → let w1 := (refresh env1 source1 w).2 in
      (∃ waitSec, (refresh env2 source2 w1).1 = Throw (cooldownMessage waitSec))
      ∧ (refresh env2 source2 w1).2 = w1.

(** The names the design document lists as having an empty normalised form:
    punctuation only, a lone ["the"], an organisational suffix on its own. *)
Definition isAsciiPunctuation (c : N) : bool :=
  isAscii c
  && negb (isLower c || isUpper c || isDigit c || isWhiteSpace c).

Definition degenerateName (name : jsstring) : Prop :=
  allOf isAsciiPunctuation name ∨ name = lit "the" ∨ isOrgSuffix name = true.

(** The rule of the design document for such names: in every state of the
    store their normalised form is empty and the sanctions check finds
    nothing for them. *)
Definition degenerateNamesNeverMatch `{!JsRuntime} : Prop :=
  ∀ w name,
    reachable w
    → degenerateName name
    → normalizeName name = []
      ∧ OfacSanctionsResult.found (OfacSdnClient.check (store w) name) = false
      ∧ OfacSanctionsResult.matches (OfacSdnClient.check (store w) name) = [].

(** ** Sample data *)

Module Sample.

Definition flagOf (s : RedFlagSeverity) : RedFlag.t :=
  {| RedFlag.severity := s; RedFlag.source := court_records;
     RedFlag.type := lit "federal_court_cases"; RedFlag.detail := [] |}.

Definition irsClean : IrsRevocationResult.t :=
  {| IrsRevocationResult.found := false;
     IrsRevocationResult.revoked := false;
     IrsRevocationResult.detail := IrsRevocationClient.notFoundDetail;
     IrsRevocationResult.revocationDate := None;
     IrsRevocationResult.reinstatementDate := None;
     IrsRevocationResult.legalName := None |}.

Definition ofacClean : OfacSanctionsResult.t :=
  {| OfacSanctionsResult.found := false;
     OfacSanctionsResult.detail := [];
     OfacSanctionsResult.matches := [] |}.

Definition courtResult (found : bool) (caseCount : Z) : CourtRecordsResult.t :=
  {| CourtRecordsResult.found := found;
     CourtRecordsResult.detail := [];
     CourtRecordsResult.caseCount := caseCount;
     CourtRecordsResult.cases := [] |}.

Definition irsRow (ein reinstatementDate : string) : IrsRevocationRow.t :=
  {| IrsRevocationRow.ein := lit ein;
     IrsRevocationRow.legalName := lit "REVOKED NONPROFIT INC";
     IrsRevocationRow.dba := [];
     IrsRevocationRow.city := lit "NEW YORK";
     IrsRevocationRow.state := lit "NY";
     IrsRevocationRow.zip := lit "10001";
     IrsRevocationRow.country := lit "US";
     IrsRevocationRow.exemptionType := lit "03";
     IrsRevocationRow.revocationDate := lit "15-MAY-2022";
     IrsRevocationRow.postingDate := lit "01-JUN-2022";
     IrsRevocationRow.reinstatementDate := lit reinstatementDate |}.

(** A store holding one revoked and one reinstated organisation. *)
Definition irsStore : CsvDataStore :=
  {| irsMap :=
       <[lit "123456789" := irsRow "123456789" ""]>
         (<[lit "987654321" := irsRow "987654321" "10-JAN-2023"]> ∅);
     ofacNameMap := ∅;
     config := {| dataMaxAgeDays := 7 |};
     lastRefreshAt := 0 |}.

Definition sdnRow (entNum name : string) : OfacSdnRow.t :=
  {| OfacSdnRow.entNum := lit entNum;
     OfacSdnRow.name := lit name;
     OfacSdnRow.sdnType := lit "Entity";
     OfacSdnRow.program := lit "SDGT";
     OfacSdnRow.title := [];
     OfacSdnRow.remarks := [] |}.

Definition altRow (entNum altName : string) : OfacAltRow.t :=
  {| OfacAltRow.entNum := lit entNum;
     OfacAltRow.altNum := lit "1";
     OfacAltRow.altType := lit "aka";
     OfacAltRow.altName := lit altName;
     OfacAltRow.altRemarks := [] |}.

(** A data directory that holds cached sanctions files only. *)
Definition ofacDisk : Disk :=
  {| irs_zip := None;
     irs_csv := None;
     sdn_csv :=
       Some (lit "1001,ACME TRADING CO,Entity,SDGT,,"
               ++ [10] ++ lit "1002,Acme Trading,Entity,SDGT,,");
     alt_csv :=
       Some (lit "1001,1,aka,Acme Trading Inc,"
               ++ [10] ++ lit "1002,2,aka,ACME,"
               ++ [10] ++ lit "9999,3,aka,Ghost Holdings,");
     data_manifest := None |}.

(** The outside world with the network down at clock reading [t]. *)
Definition offline (t : Z) : Env :=
  {| clock_entry := t; clock_irs := t; clock_ofac := t; clock_exit := t;
     http_irs := inl (lit "connect ETIMEDOUT");
     http_sdn := inl (lit "connect ETIMEDOUT");
     http_alt := inl (lit "connect ETIMEDOUT") |}.

(** A revocation file with its header line and one row. *)
Definition irsCsvText (ein legalName : string) : jsstring :=
  lit "EIN|LEGAL_NAME|DBA|CITY|STATE|ZIP|COUNTRY|EXEMPTION_TYPE|REVOCATION_DATE|POSTING_DATE|REINSTATEMENT_DATE"
    ++ [10] ++ lit ein ++ lit "|" ++ lit legalName
    ++ lit "||NEW YORK|NY|10001|US|03|15-MAY-2022|01-JUN-2022|".

Definition bufferOf (text : jsstring) : Buffer :=
  {| byteLength := Z.of_nat (length text); utf8 := text |}.

Definition cachedText : jsstring := irsCsvText "111111111" "ESTABLISHED CHARITY".

Definition truncatedText : jsstring :=
  irsCsvText "222222222" "TRUNCATED PAYLOAD ORG".

(** A data directory with cached copies of all three files. *)
Definition cachedDisk : Disk :=
  {| irs_zip := None;
     irs_csv := Some (bufferOf cachedText);
     sdn_csv := sdn_csv ofacDisk;
     alt_csv := alt_csv ofacDisk;
     data_manifest := None |}.

(** A store serving the revocation list of [cachedDisk]. *)
Definition servingStore : CsvDataStore :=
  {| irsMap := parseIrsCsv cachedText;
     ofacNameMap := ∅;
     config := {| dataMaxAgeDays := 7 |};
     lastRefreshAt := 0 |}.

Definition servingWorld : World :=
  {| store := servingStore; disk := cachedDisk; trace := [] |}.

(** The revocation server answers with an archive whose only entry holds a
    one-row file; the sanctions server is down. *)
Definition truncatedDownload (t : Z) : Env :=
  {| clock_entry := t; clock_irs := t; clock_ofac := t; clock_exit := t;
     http_irs :=
       inr (inr [ {| uncompressedSize := byteLength (bufferOf truncatedText);
                     buffer := inr (bufferOf truncatedText) |} ]);
     http_sdn := inl (lit "connect ETIMEDOUT");
     http_alt := inl (lit "connect ETIMEDOUT") |}.

(** A new store on an empty data directory. *)
Definition emptyDisk : Disk :=
  {| irs_zip := None; irs_csv := None; sdn_csv := None; alt_csv := None;
     data_manifest := None |}.

Definition freshWorld (d : Disk) : World :=
  {| store := newStore {| dataMaxAgeDays := 7 |}; disk := d; trace := [] |}.

Definition sampleInput : CheckRedFlagsInput.t :=
  {| CheckRedFlagsInput.ein := lit " 12-3456789 ";
     CheckRedFlagsInput.name := lit "Revoked Nonprofit Inc" |}.

(** A data directory whose cached sanctions files list one entity named
    ["The"] and one named ["Inc"]. *)
Definition bareWordsDisk : Disk :=
  {| irs_zip := None;
     irs_csv := None;
     sdn_csv :=
       Some (lit "3001,The,Entity,SDGT,,"
               ++ [10] ++ lit "3002,Inc,Entity,SDGT,,");
     alt_csv := Some (lit "3001,1,aka,The Inc,");
     data_manifest := None |}.

End Sample.

(** ** Vocabulary of the further properties *)

(** What [checkRedFlags] requires of its input once trimmed. *)
Definition validRedFlagsInput (input : CheckRedFlagsInput.t) : Prop :=
  let ein := trim (CheckRedFlagsInput.ein input) in
  let name := trim (CheckRedFlagsInput.name input) in
  ein ≠ [] ∧ name ≠ []
  ∧ (length ein ≤ Tools.MAX_EIN_LENGTH)%nat
  ∧ (length name ≤ Tools.MAX_NAME_LENGTH)%nat.

(** The court client does not reject the search for [name]. *)
Definition courtAnswers (courtClient : option Tools.CourtListenerClient)
    (name : jsstring) : Prop :=
  match courtClient with
  | Some client => is_Some (match client name with
                            | inl _ => None
                            | inr r => Some r
                            end)
  | None => True
  end.

(** What a limiter does with a series of callers, given the clock reading
    at which each calls [waitIfNeeded]: for each caller the delay of the
    timer it awaits and the slot it reserves, which is the value of
    [lastRequestTime] after its call. *)
Fixpoint schedule (r : RateLimiter.t) (arrivals : list Z) : list (Z * Z) :=
  match arrivals with
  | [] => []
  | now :: rest =>
      let call := RateLimiter.waitIfNeeded now r in
      (call.1, RateLimiter.lastRequestTime call.2) :: schedule call.2 rest
  end.

Definition reservedSlots (r : RateLimiter.t) (arrivals : list Z) : list Z :=
  snd <$> schedule r arrivals.

(** The clock readings, the delay and the slots of a run stay between 0 and
    2^52, where the additions and subtractions of [waitIfNeeded] are exact on
    JavaScript numbers. *)
Definition withinSafeIntegers (r : RateLimiter.t) (arrivals : list Z)
    : Prop :=
  (0 ≤ RateLimiter.delayMs r ≤ 2 ^ 52)%Z
  ∧ Forall (λ t, (0 ≤ t ≤ 2 ^ 52)%Z)
      (RateLimiter.lastRequestTime r :: arrivals ++ reservedSlots r arrivals).

(** A caller awaits a timer that is due at its slot, unless the slot is more
    than [TIMEOUT_MAX] away: then the timer is due after 1 ms. *)
Definition sleepsUntilSlot (now : Z) (call : Z * Z) : Prop :=
  call.1 = if (RateLimiter.TIMEOUT_MAX <? call.2 - now)%Z then 1%Z
           else (call.2 - now)%Z.

(** Consecutive elements are at least [gap] apart. *)
Fixpoint spaced (gap : Z) (times : list Z) : Prop :=
  match times with
  | t1 :: ((t2 :: _) as rest) => (t1 + gap ≤ t2)%Z ∧ spaced gap rest
  | _ => True
  end.

(** From [w] to [w'] the I/O trace was only extended and no file of the data
    directory went missing. *)
Definition onlyAdds (w w' : World) : Prop :=
  trace w `prefix_of` trace w'
  ∧ (is_Some (irs_zip (disk w)) → is_Some (irs_zip (disk w')))
  ∧ (is_Some (irs_csv (disk w)) → is_Some (irs_csv (disk w')))
  ∧ (is_Some (sdn_csv (disk w)) → is_Some (sdn_csv (disk w')))
  ∧ (is_Some (alt_csv (disk w)) → is_Some (alt_csv (disk w')))
  ∧ (is_Some (data_manifest (disk w)) → is_Some (data_manifest (disk w'))).

(** The EIN map is the parse of the extracted revocation file on disk. *)
Definition irsMirrorsDisk (w : World) : Prop :=
  ∃ b, irs_csv (disk w) = Some b ∧ irsMap (store w) = parseIrsCsv (utf8 b).

(** The name map is the index of the two sanctions files on disk. *)
Definition ofacMirrorsDisk `{!JsRuntime} (w : World) : Prop :=
  ∃ sdnContent altContent sdnRows altRows,
    sdn_csv (disk w) = Some sdnContent
    ∧ alt_csv (disk w) = Some altContent
    ∧ parseSdnCsv sdnContent = inr sdnRows
    ∧ parseAltCsv altContent = inr altRows
    ∧ ofacNameMap (store w) = buildOfacNameMap sdnRows altRows.

(** Why a primary row may be listed under [key]: its own name normalises to
    the key, or the name of an alias row of its entity does. *)
Definition listedFor `{!JsRuntime} (isAlt : OfacAltRow.t → Prop)
    (key : jsstring) (row : OfacSdnRow.t) : Prop :=
  normalizeName (OfacSdnRow.name row) = key
  ∨ ∃ alt, isAlt alt
           ∧ OfacAltRow.entNum alt = OfacSdnRow.entNum row
           ∧ normalizeName (OfacAltRow.altName alt) = key.

(** Both local maps of [buildOfacNameMap] hold rows of [isSdn] only; an
    entity number leads to a row that carries it, and a key of the name map
    is not empty and leads to a list that is not empty and holds only rows
    listed for the key. *)
Definition indexJustified `{!JsRuntime} (isSdn : OfacSdnRow.t → Prop)
    (isAlt : OfacAltRow.t → Prop) (ix : OfacIndex) : Prop :=
  (∀ entNum row,
     sdnByEntNum ix !! entNum = Some row
     → isSdn row ∧ OfacSdnRow.entNum row = entNum)
  ∧ (∀ key rows,
       map ix !! key = Some rows
       → key ≠ [] ∧ rows ≠ []
         ∧ ∀ row, row ∈ rows → isSdn row ∧ listedFor isAlt key row).

(** The class [[A-Za-z0-9\s]]: what survives the normaliser's filter once
    lower-cased. *)
Definition isLetterDigitSpace (c : N) : bool :=
  isLower c || isUpper c || isDigit c || isWhiteSpace c.

(** A search response with one docket on its page and a total of four. *)
Module SampleCourt.

Definition docket : CourtListenerClient.CourtListenerDocket :=
  {| CourtListenerClient.id := 7;
     CourtListenerClient.case_name := lit "Doe v. Acme";
     CourtListenerClient.court := lit "cand";
     CourtListenerClient.date_argued := None;
     CourtListenerClient.date_filed := Some (lit "2024-05-01");
     CourtListenerClient.docket_number := lit "3:24-cv-1";
     CourtListenerClient.absolute_url := lit "/docket/7/" |}.

Definition response : CourtListenerClient.CourtListenerSearchResponse :=
  {| CourtListenerClient.count := Some 4%Z;
     CourtListenerClient.results := Some [Some docket] |}.

End SampleCourt.

(** A data directory whose manifest records both sources as downloaded at
    clock reading 1700000000000, with the three cache files. *)
Module SampleCache.

Definition irsEntry : DataManifest.irs_entry :=
  {| DataManifest.downloaded_at := 1700000000000;
     DataManifest.row_count := 1 |}.

Definition ofacEntry : DataManifest.ofac_entry :=
  {| DataManifest.ofac_downloaded_at := 1700000000000;
     DataManifest.sdn_count := 2;
     DataManifest.alt_count := 3 |}.

Definition manifest : DataManifest.t :=
  {| DataManifest.irs_revocation := Some irsEntry;
     DataManifest.ofac_sdn := Some ofacEntry |}.

Definition freshDisk : Disk :=
  {| irs_zip := None;
     irs_csv := irs_csv Sample.cachedDisk;
     sdn_csv := sdn_csv Sample.cachedDisk;
     alt_csv := alt_csv Sample.cachedDisk;
     data_manifest := Some manifest |}.

End SampleCache.

(** The rows of the sanctions files of [Sample.ofacDisk]: two entities whose
    names normalise alike, an alias for each, and an alias of an entity that
    is not listed. *)
Module SampleOfac.

Definition sdnRows : list OfacSdnRow.t :=
  [Sample.sdnRow "1001" "ACME TRADING CO"; Sample.sdnRow "1002" "Acme Trading"].

Definition altRows : list OfacAltRow.t :=
  [Sample.altRow "1001" "Acme Trading Inc"; Sample.altRow "1002" "ACME";
   Sample.altRow "9999" "Ghost Holdings"].

(** A store that serves the index of these rows. *)
Definition store : CsvDataStore :=
  {| irsMap := ∅;
     ofacNameMap := @buildOfacNameMap basicLatin sdnRows altRows;
     config := {| dataMaxAgeDays := 7 |};
     lastRefreshAt := 0 |}.

End SampleOfac.

(** * Properties *)

(** ** Character classes and string primitives *)

Module JsFacts.

Lemma isWhiteSpace_space : isWhiteSpace 32 = true.
Proof. reflexivity. Qed.

Lemma isPlain_cases c :
  isPlain c = true → (isLower c = true ∨ isDigit c = true) ∨ c = 32.
Proof.
  unfold isPlain. rewrite !orb_true_iff, N.eqb_eq. tauto.
Qed.

Lemma isPlain_isKeptChar c : isPlain c = true → isKeptChar c = true.
Proof.
  intros [[Hc|Hc]| ->]%isPlain_cases; unfold isKeptChar; rewrite ?Hc; [done| |done].
  by rewrite orb_true_r.
Qed.

Lemma isKeptChar_isPlain c :
  isKeptChar c = true → (isWhiteSpace c = true → c = 32) → isPlain c = true.
Proof.
  unfold isKeptChar, isPlain. intros Hk Hws.
  destruct (isLower c); [done|]. destruct (isDigit c); [done|]. simpl in *.
  rewrite (Hws Hk). reflexivity.
Qed.

Lemma isPlain_bounds c :
  isPlain c = true → c = 32 ∨ (48 ≤ c ∧ c ≤ 57) ∨ (97 ≤ c ∧ c ≤ 122).
Proof.
  intros [[Hc|Hc]| ->]%isPlain_cases; [| |by left].
  - unfold isLower, inRange in Hc. apply andb_true_iff in Hc as [H1 H2].
    apply N.leb_le in H1, H2. right; right. done.
  - unfold isDigit, inRange in Hc. apply andb_true_iff in Hc as [H1 H2].
    apply N.leb_le in H1, H2. right; left. done.
Qed.

Lemma isPlain_isAscii c : isPlain c = true → isAscii c = true.
Proof.
  intros Hc%isPlain_bounds. unfold isAscii. apply N.ltb_lt. lia.
Qed.

Lemma isPlain_not_combining c :
  isPlain c = true → isCombiningMark c = false.
Proof.
  intros Hc%isPlain_bounds. unfold isCombiningMark, inRange.
  apply andb_false_iff. left. apply N.leb_gt. lia.
Qed.

Lemma isPlain_asciiLower c : isPlain c = true → asciiLower c = c.
Proof.
  intros Hc%isPlain_bounds. unfold asciiLower, isUpper, inRange.
  destruct (65 <=? c) eqn:H1; [|done]. destruct (c <=? 90) eqn:H2; [|done].
  apply N.leb_le in H1, H2. lia.
Qed.

Lemma allOf_impl (p q : N → bool) s :
  (∀ c, p c = true → q c = true) → allOf p s → allOf q s.
Proof. intros Hpq Hs. by eapply Forall_impl. Qed.

Lemma allOf_forallb p s : allOf p s → forallb p s = true.
Proof.
  intros Hs. apply forallb_forall. intros c Hc.
  by apply (proj1 (Forall_forall _ _) Hs), list_elem_of_In.
Qed.

Lemma allOf_dropWhile p q s : allOf p s → allOf p (dropWhile q s).
Proof.
  induction 1 as [|c s Hc Hs IH]; simpl; [constructor|].
  destruct (q c); [done|by constructor].
Qed.

Lemma allOf_reverse p s : allOf p s → allOf p (reverse s).
Proof. apply Forall_reverse. Qed.

Lemma allOf_trimEnd p s : allOf p s → allOf p (trimEnd s).
Proof.
  induction 1 as [|c s Hc Hs IH]; simpl; [constructor|].
  destruct (trimEnd s) as [|c' s'].
  - destruct (isWhiteSpace c); by repeat constructor.
  - by constructor.
Qed.

Lemma allOf_trim p s : allOf p s → allOf p (trim s).
Proof. intros Hs. by apply allOf_trimEnd, allOf_dropWhile. Qed.

Lemma allOf_removeAll cls s : allOf (λ c, negb (cls c)) (removeAll cls s).
Proof.
  unfold removeAll, allOf. apply Forall_forall. intros c Hc.
  apply list_elem_of_filter in Hc as [Hc _]. by rewrite Hc.
Qed.

Lemma removeAll_id cls s : allOf (λ c, negb (cls c)) s → removeAll cls s = s.
Proof.
  unfold removeAll. induction 1 as [|c s Hc Hs IH]; [done|].
  rewrite filter_cons_True; [by rewrite IH|]. by apply negb_true_iff.
Qed.

Lemma collapseWhiteSpace_cons_other c t :
  isWhiteSpace c = false
  → collapseWhiteSpace (c :: t) = c :: collapseWhiteSpace t.
Proof. intros Hc. simpl. by rewrite Hc. Qed.

Lemma singleSpaced_collapseWhiteSpace s :
  singleSpaced (collapseWhiteSpace s) = true.
Proof.
  induction s as [|c t IH]; [done|].
  destruct (isWhiteSpace c) eqn:Hc.
  - cbn [collapseWhiteSpace]. rewrite Hc. destruct t as [|c' t']; [done|].
    destruct (isWhiteSpace c') eqn:Hc'; [done|].
    rewrite collapseWhiteSpace_cons_other in IH |- * by done.
    cbn [singleSpaced] in IH |- *. rewrite Hc' in IH |- *.
    by rewrite isWhiteSpace_space.
  - rewrite collapseWhiteSpace_cons_other by done.
    cbn [singleSpaced]. by rewrite Hc.
Qed.

Lemma singleSpaced_tail c t : singleSpaced (c :: t) = true → singleSpaced t = true.
Proof. cbn [singleSpaced]. by intros [_ ?]%andb_true_iff. Qed.

Lemma collapseWhiteSpace_id s :
  singleSpaced s = true → collapseWhiteSpace s = s.
Proof.
  induction s as [|c t IH]; [done|]. intros Hs.
  pose proof (singleSpaced_tail _ _ Hs) as Ht. specialize (IH Ht).
  cbn [singleSpaced] in Hs. apply andb_true_iff in Hs as [Hc _].
  destruct (isWhiteSpace c) eqn:Hws.
  - apply andb_true_iff in Hc as [->%N.eqb_eq Hnext].
    cbn [collapseWhiteSpace]. rewrite Hws. destruct t as [|c' t']; [done|].
    apply negb_true_iff in Hnext. rewrite Hnext. by rewrite IH.
  - rewrite collapseWhiteSpace_cons_other by done. by rewrite IH.
Qed.

Lemma singleSpaced_dropWhile p s :
  singleSpaced s = true → singleSpaced (dropWhile p s) = true.
Proof.
  induction s as [|c t IH]; [done|]. intros Hs. simpl.
  destruct (p c); [|done]. by eapply IH, singleSpaced_tail.
Qed.

Lemma trimEnd_head t c2 t2 : trimEnd t = c2 :: t2 → ∃ t', t = c2 :: t'.
Proof.
  destruct t as [|c t]; [done|]. simpl.
  destruct (trimEnd t); [destruct (isWhiteSpace c)|]; intros [= <- <-]; eauto.
Qed.

Lemma singleSpaced_trimEnd s :
  singleSpaced s = true → singleSpaced (trimEnd s) = true.
Proof.
  induction s as [|c t IH]; [done|]. intros Hs.
  pose proof (singleSpaced_tail _ _ Hs) as Ht. specialize (IH Ht).
  cbn [trimEnd]. destruct (trimEnd t) as [|c2 t2] eqn:Htrim.
  - destruct (isWhiteSpace c) eqn:Hc; [done|]. simpl. by rewrite Hc.
  - destruct (trimEnd_head _ _ _ Htrim) as [t' ->].
    cbn [singleSpaced] in Hs. apply andb_true_iff in Hs as [Hc _].
    change (singleSpaced (c :: c2 :: t2))
      with ((if isWhiteSpace c then (c =? 32) && negb (isWhiteSpace c2)
             else true) && singleSpaced (c2 :: t2)).
    by rewrite Hc, IH.
Qed.

Lemma allOf_collapseWhiteSpace s :
  allOf isKeptChar s → allOf isPlain (collapseWhiteSpace s).
Proof.
  induction 1 as [|c t Hc Ht IH]; [constructor|].
  destruct (isWhiteSpace c) eqn:Hws.
  - cbn [collapseWhiteSpace]. rewrite Hws. destruct t as [|c' t'].
    + by repeat constructor.
    + destruct (isWhiteSpace c'); [done|]. by constructor.
  - rewrite collapseWhiteSpace_cons_other by done. constructor; [|done].
    apply isKeptChar_isPlain; [done|]. by rewrite Hws.
Qed.

Lemma trimEnd_cons c t :
  trimEnd (c :: t)
  = match trimEnd t with
    | [] => if isWhiteSpace c then [] else [c]
    | t' => c :: t'
    end.
Proof. reflexivity. Qed.

Lemma trimEnd_trimEnd s : trimEnd (trimEnd s) = trimEnd s.
Proof.
  induction s as [|c t IH]; [done|]. rewrite trimEnd_cons.
  destruct (trimEnd t) as [|c2 t2] eqn:Htrim.
  - destruct (isWhiteSpace c) eqn:Hc; [done|]. simpl. by rewrite Hc.
  - by rewrite trimEnd_cons, IH.
Qed.

Lemma trimStart_head s :
  match trimStart s with
  | [] => True
  | c :: _ => isWhiteSpace c = false
  end.
Proof.
  unfold trimStart. induction s as [|c t IH]; [done|]. simpl.
  by destruct (isWhiteSpace c) eqn:Hc.
Qed.

Lemma trim_trim s : trim (trim s) = trim s.
Proof.
  unfold trim. pose proof (trimStart_head s) as Hhead.
  destruct (trimStart s) as [|c u]; [done|].
  assert (∃ u', trimEnd (c :: u) = c :: u') as [u' Hu].
  { cbn [trimEnd]. destruct (trimEnd u); [rewrite Hhead|]; eauto. }
  rewrite Hu. unfold trimStart. simpl. rewrite Hhead.
  rewrite <- Hu. apply trimEnd_trimEnd.
Qed.

Lemma length_dropWhile p s : (length (dropWhile p s) ≤ length s)%nat.
Proof.
  induction s as [|c t IH]; [done|]. simpl. destruct (p c); simpl; lia.
Qed.

Lemma dropWhile_head p s c rest : dropWhile p s = c :: rest → p c = false.
Proof.
  induction s as [|c' t IH]; [done|]. simpl.
  destruct (p c') eqn:Hc; [done|]. by intros [= <- _].
Qed.

Lemma length_trimEnd s : (length (trimEnd s) ≤ length s)%nat.
Proof.
  induction s as [|c t IH]; [done|]. rewrite trimEnd_cons.
  destruct (trimEnd t); [destruct (isWhiteSpace c)|]; simpl in *; lia.
Qed.

Lemma length_trim s : (length (trim s) ≤ length s)%nat.
Proof.
  unfold trim, trimStart. pose proof (length_trimEnd (dropWhile isWhiteSpace s)).
  pose proof (length_dropWhile isWhiteSpace s). lia.
Qed.

Lemma length_collapseWhiteSpace s :
  (length (collapseWhiteSpace s) ≤ length s)%nat.
Proof.
  induction s as [|c t IH]; [done|]. cbn [collapseWhiteSpace].
  destruct (isWhiteSpace c); [|simpl; lia].
  destruct t as [|c' t']; [done|].
  destruct (isWhiteSpace c'); simpl in *; lia.
Qed.

End JsFacts.

(** ** Scoring *)

Module ScoringFacts.
Import Sample.

Lemma existsb_isCritical (flags : list RedFlag.t) :
  existsb isCritical flags = true
  ↔ ∃ f, f ∈ flags ∧ RedFlag.severity f = CRITICAL.
Proof.
  rewrite existsb_exists. split.
  - intros (f & Hin & Hc). exists f. split; [by apply list_elem_of_In|].
    by apply bool_decide_eq_true in Hc.
  - intros (f & Hin & Hc). exists f. split; [by apply list_elem_of_In|].
    by apply bool_decide_eq_true.
Qed.

Lemma getRecommendation_CLEAN_iff (flags : list RedFlag.t) :
  getRecommendation flags = CLEAN ↔ flags = [].
Proof.
  unfold getRecommendation. destruct flags as [|f flags]; [done|].
  split; [|done]. simpl. by destruct (isCritical f || existsb isCritical flags).
Qed.

(** C6. [getRecommendation] depends on the flag list only: no flag gives
    CLEAN, a non-empty list without a CRITICAL flag gives FLAG, and one
    CRITICAL flag anywhere in the list gives BLOCK whatever else it holds. *)
Theorem getRecommendation_thresholds (flags : list RedFlag.t) :
  (flags = [] → getRecommendation flags = CLEAN)
  ∧ (flags ≠ [] → (∀ f, f ∈ flags → RedFlag.severity f ≠ CRITICAL)
     → getRecommendation flags = FLAG)
  ∧ ((∃ f, f ∈ flags ∧ RedFlag.severity f = CRITICAL)
     → getRecommendation flags = BLOCK).
Proof.
  split_and!.
  - by intros ->.
  - intros Hne Hno. unfold getRecommendation.
    destruct (existsb isCritical flags) eqn:Hex.
    + apply existsb_isCritical in Hex as (f & Hin & Hc).
      by destruct (Hno f Hin).
    + by destruct flags.
  - intros Hex. unfold getRecommendation.
    by apply existsb_isCritical in Hex as ->.
Qed.

Lemma getRecommendation_thresholds_witness :
  getRecommendation [] = CLEAN
  ∧ getRecommendation [flagOf MEDIUM; flagOf HIGH] = FLAG
  ∧ getRecommendation [flagOf MEDIUM; flagOf CRITICAL; flagOf HIGH] = BLOCK.
Proof.
  split_and!.
  - by apply (getRecommendation_thresholds []).
  - apply (getRecommendation_thresholds [flagOf MEDIUM; flagOf HIGH]);
      [done|]. intros f Hf. set_unfold in Hf. by destruct Hf as [->|[->|[]]].
  - apply (getRecommendation_thresholds
             [flagOf MEDIUM; flagOf CRITICAL; flagOf HIGH]).
    exists (flagOf CRITICAL). split; [|done]. set_solver.
Defined.

Lemma litigationFlags_aggregateFlags irs ofac court :
  litigationFlags (aggregateFlags irs ofac court)
  = if CourtRecordsResult.found court then [courtFlag court] else [].
Proof.
  unfold aggregateFlags, litigationFlags.
  by destruct (IrsRevocationResult.revoked irs),
    (OfacSanctionsResult.found ofac), (CourtRecordsResult.found court).
Qed.

(** C4, counterexample.  A result with [found = false] and [caseCount = 5]
    raises no litigation flag, and one with [found = true] and
    [caseCount = 0] raises a MEDIUM flag. *)
Lemma caseCountDecidesFlag_fails :
  aggregateFlags irsClean ofacClean (courtResult false 5) = []
  ∧ litigationFlags (aggregateFlags irsClean ofacClean (courtResult true 0))
    = [courtFlag (courtResult true 0)]
  ∧ ¬ caseCountDecidesFlag.
Proof.
  split_and!; [done..|].
  intros H. destruct (H irsClean ofacClean (courtResult false 5)) as [H1 _].
  destruct H1 as (f & Hf & _); [done|]. discriminate Hf.
Qed.

(** C4, amended.  The litigation flag is gated by [court.found], not by the
    case count: [found = true] gives exactly one litigation flag, HIGH when
    [caseCount >= 3] and MEDIUM otherwise; [found = false] gives none.  The
    other fields of the three results play no part. *)
Theorem litigation_flag_by_found irs ofac court :
  let flags := litigationFlags (aggregateFlags irs ofac court) in
  (CourtRecordsResult.found court = true
   → ∃ f, flags = [f]
          ∧ RedFlag.severity f
            = (if (3 <=? CourtRecordsResult.caseCount court)%Z then HIGH
               else MEDIUM)
          ∧ RedFlag.detail f = CourtRecordsResult.detail court)
  ∧ (CourtRecordsResult.found court = false → flags = []).
Proof.
  cbv zeta. rewrite litigationFlags_aggregateFlags. split; intros ->; [|done].
  by exists (courtFlag court).
Qed.

Lemma litigation_flag_by_found_witness :
  (∃ f, litigationFlags (aggregateFlags irsClean ofacClean (courtResult true 4))
        = [f]
        ∧ RedFlag.severity f = HIGH ∧ RedFlag.detail f = [])
  ∧ litigationFlags (aggregateFlags irsClean ofacClean (courtResult false 4))
    = [].
Proof.
  split.
  - by apply (litigation_flag_by_found irsClean ofacClean (courtResult true 4)).
  - by apply (litigation_flag_by_found irsClean ofacClean
                (courtResult false 4)).
Defined.

End ScoringFacts.

(** ** IRS revocation client *)

Module IrsRevocationClientFacts.
Import Sample.

Lemma removeAll_removeAll cls s : removeAll cls (removeAll cls s) = removeAll cls s.
Proof.
  unfold removeAll. induction s as [|c s IH]; [done|].
  rewrite filter_cons. case_decide as Hc; [|done].
  rewrite filter_cons. case_decide; [|done]. by rewrite IH.
Qed.

Lemma lookupEin_normalized store ein :
  lookupEin store (removeAll isDashOrWhiteSpace ein)
  = irsMap store !! removeAll isDashOrWhiteSpace ein.
Proof. unfold lookupEin. by rewrite removeAll_removeAll. Qed.

(** C5. [check] sorts every input into four cases.  A malformed EIN (not nine
    digits once dashes and white space are removed) gives [found = false],
    [revoked = false] and the invalid-format detail, the same for every
    store, so the store plays no part.  A well-formed EIN without a row
    gives [found = false], [revoked = false]; with a row whose
    [reinstatementDate] is empty, [found = true], [revoked = true]; with a
    row whose [reinstatementDate] is not empty, [found = true],
    [revoked = false]. *)
Theorem check_four_way (store : CsvDataStore) (ein : jsstring) :
  let normalized := removeAll isDashOrWhiteSpace ein in
  let result := IrsRevocationClient.check store ein in
  (isNineDigits normalized = false
   → IrsRevocationResult.found result = false
     ∧ IrsRevocationResult.revoked result = false
     ∧ IrsRevocationResult.detail result
       = IrsRevocationClient.invalidFormatDetail ein
     ∧ ∀ store', IrsRevocationClient.check store' ein = result)
  ∧ (isNineDigits normalized = true
     → irsMap store !! normalized = None
     → IrsRevocationResult.found result = false
       ∧ IrsRevocationResult.revoked result = false)
  ∧ (∀ row, isNineDigits normalized = true
     → irsMap store !! normalized = Some row
     → IrsRevocationRow.reinstatementDate row = []
     → IrsRevocationResult.found result = true
       ∧ IrsRevocationResult.revoked result = true)
  ∧ (∀ row, isNineDigits normalized = true
     → irsMap store !! normalized = Some row
     → IrsRevocationRow.reinstatementDate row ≠ []
     → IrsRevocationResult.found result = true
       ∧ IrsRevocationResult.revoked result = false).
Proof.
  cbv zeta. unfold IrsRevocationClient.check.
  rewrite lookupEin_normalized. split_and!.
  - by intros ->.
  - by intros -> ->.
  - by intros row -> -> ->.
  - intros row -> -> Hne. simpl.
    by destruct (IrsRevocationRow.reinstatementDate row).
Qed.

Lemma check_four_way_witness :
  let check := IrsRevocationClient.check irsStore in
  (IrsRevocationResult.found (check (lit "12-ABC6789")) = false
   ∧ IrsRevocationResult.revoked (check (lit "12-ABC6789")) = false)
  ∧ (IrsRevocationResult.found (check (lit "55-5555555")) = false
     ∧ IrsRevocationResult.revoked (check (lit "55-5555555")) = false)
  ∧ (IrsRevocationResult.found (check (lit "12-3456789")) = true
     ∧ IrsRevocationResult.revoked (check (lit "12-3456789")) = true)
  ∧ (IrsRevocationResult.found (check (lit "987 654 321")) = true
     ∧ IrsRevocationResult.revoked (check (lit "987 654 321")) = false).
Proof.
  cbv zeta. split_and!.
  - destruct (check_four_way irsStore (lit "12-ABC6789")) as (H & _).
    by destruct H as (? & _).
  - destruct (check_four_way irsStore (lit "12-ABC6789")) as (H & _).
    by destruct H as (_ & ? & _).
  - destruct (check_four_way irsStore (lit "55-5555555")) as (_ & H & _).
    by destruct H as (? & _).
  - destruct (check_four_way irsStore (lit "55-5555555")) as (_ & H & _).
    by destruct H as (_ & ?).
  - destruct (check_four_way irsStore (lit "12-3456789")) as (_ & _ & H & _).
    by destruct (H (irsRow "123456789" "")).
  - destruct (check_four_way irsStore (lit "12-3456789")) as (_ & _ & H & _).
    by destruct (H (irsRow "123456789" "")).
  - destruct (check_four_way irsStore (lit "987 654 321")) as (_ & _ & _ & H).
    by destruct (H (irsRow "987654321" "10-JAN-2023")).
  - destruct (check_four_way irsStore (lit "987 654 321")) as (_ & _ & _ & H).
    by destruct (H (irsRow "987654321" "10-JAN-2023")).
Defined.

End IrsRevocationClientFacts.

(** ** Tool layer *)

Module ToolsFacts.

Section WithRuntime.
Context `{!JsRuntime}.

(** C9. A successful [checkRedFlags] response carries a report that agrees
    with itself: [clean] holds exactly when [flags] is empty, which is
    exactly when the recommendation of the summary is CLEAN, and
    [flags_found] is the length of [flags]. *)
Theorem checkRedFlags_report_consistent (store : CsvDataStore)
    (courtClient : option Tools.CourtListenerClient)
    (input : CheckRedFlagsInput.t) :
  let response := Tools.checkRedFlags store courtClient input in
  ToolResponse.success response = true
  → ∃ report,
      ToolResponse.data response = Some report
      ∧ (RedFlagReport.clean report = true ↔ RedFlagReport.flags report = [])
      ∧ (RedFlagReport.flags report = []
         ↔ RedFlagSummary.recommendation (RedFlagReport.summary report)
           = CLEAN)
      ∧ RedFlagSummary.flags_found (RedFlagReport.summary report)
        = length (RedFlagReport.flags report).
Proof.
  cbv zeta. unfold Tools.checkRedFlags.
  repeat case_match; simpl; try done; intros _.
  all: eexists; (split; [done|]); simpl; split_and!; [| |done].
  all: try (rewrite Nat.eqb_eq; apply length_zero_iff_nil).
  all: symmetry; apply ScoringFacts.getRecommendation_CLEAN_iff.
Qed.

End WithRuntime.

Lemma checkRedFlags_report_consistent_witness :
  ∃ report,
    ToolResponse.data
      (@Tools.checkRedFlags basicLatin Sample.irsStore None Sample.sampleInput)
    = Some report
    ∧ (RedFlagReport.clean report = true ↔ RedFlagReport.flags report = [])
    ∧ (RedFlagReport.flags report = []
       ↔ RedFlagSummary.recommendation (RedFlagReport.summary report) = CLEAN)
    ∧ RedFlagSummary.flags_found (RedFlagReport.summary report)
      = length (RedFlagReport.flags report).
Proof.
  apply (@checkRedFlags_report_consistent basicLatin Sample.irsStore None
           Sample.sampleInput).
  reflexivity.
Defined.

End ToolsFacts.

(** ** The sanctions name index *)

Module OfacIndexFacts.

Section WithRuntime.
Context `{!JsRuntime}.

Lemma truthy_false (s : jsstring) : truthy s = false ↔ s = [].
Proof. by destruct s. Qed.

Lemma truthy_true (s : jsstring) : truthy s = true ↔ s ≠ [].
Proof. by destruct s. Qed.

Lemma indexSdnRow_sdnByEntNum ix row :
  sdnByEntNum (indexSdnRow ix row)
  = <[OfacSdnRow.entNum row := row]> (sdnByEntNum ix).
Proof. unfold indexSdnRow. by case_match. Qed.

Lemma indexSdnRow_empty_key ix row :
  map ix !! [] = None → map (indexSdnRow ix row) !! [] = None.
Proof.
  intros Hix. unfold indexSdnRow.
  destruct (truthy _) eqn:Ht; simpl; [|done].
  apply truthy_true in Ht. by rewrite lookup_insert_ne.
Qed.

Lemma indexAltRow_empty_key ix alt :
  map ix !! [] = None → map (indexAltRow ix alt) !! [] = None.
Proof.
  intros Hix. unfold indexAltRow.
  destruct (sdnByEntNum ix !! _); [|done].
  destruct (truthy _) eqn:Ht; simpl; [|done].
  apply truthy_true in Ht. by rewrite lookup_insert_ne.
Qed.

Lemma foldl_indexSdnRow_empty_key rows ix :
  map ix !! [] = None → map (foldl indexSdnRow ix rows) !! [] = None.
Proof.
  revert ix. induction rows as [|row rows IH]; intros ix Hix; [done|].
  simpl. by apply IH, indexSdnRow_empty_key.
Qed.

Lemma foldl_indexAltRow_empty_key alts ix :
  map ix !! [] = None → map (foldl indexAltRow ix alts) !! [] = None.
Proof.
  revert ix. induction alts as [|alt alts IH]; intros ix Hix; [done|].
  simpl. by apply IH, indexAltRow_empty_key.
Qed.

(** Entries with an empty normalised name are skipped at build time. *)
Lemma buildOfacNameMap_empty_key sdnRows altRows :
  buildOfacNameMap sdnRows altRows !! [] = None.
Proof.
  unfold buildOfacNameMap.
  by apply foldl_indexAltRow_empty_key, foldl_indexSdnRow_empty_key.
Qed.

Lemma rowsUnder_snoc key rows row :
  rowsUnder key (rows ++ [row])
  = rowsUnder key rows
    ++ (if decide (normalizeName (OfacSdnRow.name row) = key) then [row]
        else []).
Proof.
  unfold rowsUnder. by rewrite filter_app.
Qed.

(** After the first loop a key holds the primary rows that normalise to it. *)
Lemma indexSdnRow_rowsUnder ix processed row :
  (∀ key, key ≠ [] → default [] (map ix !! key) = rowsUnder key processed)
  → ∀ key, key ≠ []
    → default [] (map (indexSdnRow ix row) !! key)
      = rowsUnder key (processed ++ [row]).
Proof.
  intros Hix key Hkey. rewrite rowsUnder_snoc. unfold indexSdnRow.
  destruct (truthy _) eqn:Ht; simpl.
  - destruct (decide (normalizeName (OfacSdnRow.name row) = key)) as [<-|Hne].
    + rewrite lookup_insert_eq. simpl. by rewrite Hix.
    + rewrite lookup_insert_ne by done. rewrite Hix by done.
      by rewrite app_nil_r.
  - apply truthy_false in Ht. rewrite Ht.
    rewrite decide_False by done. rewrite Hix by done. by rewrite app_nil_r.
Qed.

Lemma foldl_indexSdnRow_rowsUnder rows ix processed :
  (∀ key, key ≠ [] → default [] (map ix !! key) = rowsUnder key processed)
  → ∀ key, key ≠ []
    → default [] (map (foldl indexSdnRow ix rows) !! key)
      = rowsUnder key (processed ++ rows).
Proof.
  revert ix processed.
  induction rows as [|row rows IH]; intros ix processed Hix key Hkey.
  - rewrite app_nil_r. by apply Hix.
  - simpl. rewrite (assoc_L _ processed [row] rows : processed ++ row :: rows = (processed ++ [row]) ++ rows).
    apply IH; [|done]. by apply indexSdnRow_rowsUnder.
Qed.

Lemma distinctEntNums_rowsUnder key rows :
  distinctEntNums rows → distinctEntNums (rowsUnder key rows).
Proof.
  unfold distinctEntNums, rowsUnder. intros Hnd.
  eapply sublist_NoDup; [done|]. apply fmap_sublist, sublist_filter.
Qed.

Lemma distinctEntNums_prefix rows1 rows2 :
  rows1 `prefix_of` rows2 → distinctEntNums rows2 → distinctEntNums rows1.
Proof.
  unfold distinctEntNums. intros [rest ->]. rewrite fmap_app.
  by intros [Hnd _]%NoDup_app.
Qed.

Lemma someEntNum_false existing sdnRow :
  someEntNum existing sdnRow = false
  → OfacSdnRow.entNum sdnRow ∉ OfacSdnRow.entNum <$> existing.
Proof.
  unfold someEntNum. intros Hsome Hin.
  apply list_elem_of_fmap in Hin as (r & Heq & Hr).
  apply not_true_iff_false in Hsome. apply Hsome.
  apply existsb_exists. exists r. split; [by apply list_elem_of_In|].
  by apply bool_decide_eq_true.
Qed.

(** The second loop only appends to the lists of the first. *)
Lemma indexAltRow_prefix ix alt key :
  default [] (map ix !! key)
  `prefix_of` default [] (map (indexAltRow ix alt) !! key).
Proof.
  unfold indexAltRow.
  destruct (sdnByEntNum ix !! _) as [sdnRow|]; [|done].
  destruct (truthy _); [|done]. cbn [map].
  destruct (decide (normalizeName (OfacAltRow.altName alt) = key))
    as [<-|Hne]; [|by rewrite lookup_insert_ne].
  rewrite lookup_insert_eq. cbn.
  destruct (someEntNum _ _); [done|]. by apply prefix_app_r.
Qed.

Lemma foldl_indexAltRow_prefix alts ix key :
  default [] (map ix !! key)
  `prefix_of` default [] (map (foldl indexAltRow ix alts) !! key).
Proof.
  revert ix. induction alts as [|alt alts IH]; intros ix; [done|].
  cbn [foldl]. etrans; [apply indexAltRow_prefix|apply IH].
Qed.

(** The second loop never adds an entity number a key already holds. *)
Lemma indexAltRow_distinct ix alt key :
  distinctEntNums (default [] (map ix !! key))
  → distinctEntNums (default [] (map (indexAltRow ix alt) !! key)).
Proof.
  intros Hix. unfold indexAltRow.
  destruct (sdnByEntNum ix !! _) as [sdnRow|]; [|done].
  destruct (truthy _); [|done]. cbn [map].
  destruct (decide (normalizeName (OfacAltRow.altName alt) = key))
    as [<-|Hne]; [|by rewrite lookup_insert_ne].
  rewrite lookup_insert_eq. cbn [default from_option id].
  destruct (someEntNum _ sdnRow) eqn:Hsome; [done|].
  unfold distinctEntNums. rewrite fmap_app. cbn [fmap list_fmap].
  apply NoDup_app. split_and!; [done| |apply NoDup_singleton].
  intros e He Hin. apply list_elem_of_singleton in Hin as ->.
  by apply someEntNum_false in Hsome.
Qed.

Lemma foldl_indexAltRow_distinct alts ix key :
  distinctEntNums (default [] (map ix !! key))
  → distinctEntNums (default [] (map (foldl indexAltRow ix alts) !! key)).
Proof.
  revert ix. induction alts as [|alt alts IH]; intros ix Hix; [done|].
  cbn [foldl]. by apply IH, indexAltRow_distinct.
Qed.

(** C8, amended.  The sequence stored under a key holds no two rows with
    the same entity number exactly when the primary rows whose own name
    normalises to that key carry pairwise distinct entity numbers, whatever
    the alias rows are: the duplicate test guards the alias insertions only.
    In particular no key repeats an entity number when the primary rows
    carry pairwise distinct entity numbers. *)
Theorem buildOfacNameMap_distinct (sdnRows : list OfacSdnRow.t)
    (altRows : list OfacAltRow.t) (key : jsstring) (rows : list OfacSdnRow.t) :
  buildOfacNameMap sdnRows altRows !! key = Some rows
  → (distinctEntNums rows ↔ distinctEntNums (rowsUnder key sdnRows))
    ∧ (distinctEntNums sdnRows → distinctEntNums rows).
Proof.
  intros Hrows.
  assert (key ≠ []) as Hkey.
  { intros ->. by rewrite buildOfacNameMap_empty_key in Hrows. }
  assert (distinctEntNums rows ↔ distinctEntNums (rowsUnder key sdnRows))
    as Hiff.
  { unfold buildOfacNameMap in Hrows. cbv zeta in Hrows.
    pose proof (foldl_indexSdnRow_rowsUnder sdnRows
                  {| map := ∅; sdnByEntNum := ∅ |} [] ltac:(done) key Hkey)
      as Hfirst.
    rewrite app_nil_l in Hfirst. rewrite <- Hfirst.
    set (ix := foldl indexSdnRow {| map := ∅; sdnByEntNum := ∅ |} sdnRows)
      in *.
    pose proof (foldl_indexAltRow_prefix altRows ix key) as Hprefix.
    pose proof (foldl_indexAltRow_distinct altRows ix key) as Hkeep.
    rewrite Hrows in Hprefix, Hkeep. cbn [default from_option id] in *.
    split; [by apply distinctEntNums_prefix|exact Hkeep]. }
  split; [exact Hiff|]. intros Hall. apply Hiff.
  by apply distinctEntNums_rowsUnder.
Qed.

End WithRuntime.

(** C8, counterexample.  Two primary rows with the same entity number whose
    names normalise to the same key both land in that key's sequence: the
    first loop pushes without the duplicate test. *)
Lemma indexNeverRepeatsEntity_fails :
  @buildOfacNameMap basicLatin
     [Sample.sdnRow "1001" "ACME TRADING CO";
      Sample.sdnRow "1001" "ACME TRADING COMPANY"] []
    !! lit "acme trading"
  = Some [Sample.sdnRow "1001" "ACME TRADING CO";
          Sample.sdnRow "1001" "ACME TRADING COMPANY"]
  ∧ ¬ @indexNeverRepeatsEntity basicLatin.
Proof.
  assert (@buildOfacNameMap basicLatin
            [Sample.sdnRow "1001" "ACME TRADING CO";
             Sample.sdnRow "1001" "ACME TRADING COMPANY"] []
            !! lit "acme trading"
          = Some [Sample.sdnRow "1001" "ACME TRADING CO";
                  Sample.sdnRow "1001" "ACME TRADING COMPANY"]) as Hbuilt
    by (vm_compute; reflexivity).
  split; [done|]. intros Hclaim. apply Hclaim in Hbuilt.
  unfold distinctEntNums in Hbuilt. simpl in Hbuilt.
  apply NoDup_cons_1_1 in Hbuilt. apply Hbuilt. by left.
Qed.

Lemma buildOfacNameMap_distinct_witness :
  let sdnRows := [Sample.sdnRow "1001" "Alpha"; Sample.sdnRow "1001" "Beta"] in
  let altRows := [Sample.altRow "1001" "Alpha"] in
  ¬ distinctEntNums sdnRows
  ∧ @buildOfacNameMap basicLatin sdnRows altRows !! lit "alpha"
    = Some [Sample.sdnRow "1001" "Alpha"]
  ∧ distinctEntNums [Sample.sdnRow "1001" "Alpha"].
Proof.
  cbv zeta.
  assert (@buildOfacNameMap basicLatin
            [Sample.sdnRow "1001" "Alpha"; Sample.sdnRow "1001" "Beta"]
            [Sample.altRow "1001" "Alpha"] !! lit "alpha"
          = Some [Sample.sdnRow "1001" "Alpha"]) as Hbuilt
    by (vm_compute; reflexivity).
  split_and!; [|exact Hbuilt|].
  - unfold distinctEntNums. intros Hnd%NoDup_cons_1_1. apply Hnd. by left.
  - destruct (@buildOfacNameMap_distinct basicLatin _ _ _ _ Hbuilt)
      as [Hiff _].
    apply Hiff. unfold distinctEntNums. apply (bool_decide_unpack _). vm_compute.
    exact I.
Defined.

End OfacIndexFacts.

(** ** The store: call depth and invariants of the published name map *)

Module StoreFacts.

Lemma tryCatch_ext {A} (body : M A) h1 h2 w :
  (∀ e w', h1 e w' = h2 e w') → tryCatch body h1 w = tryCatch body h2 w.
Proof.
  intros Hh. unfold tryCatch. by destruct (body w) as [[a|e|] w'].
Qed.

Lemma bind_Return {A B} (m : M A) (k : A → M B) w b w' :
  bind m k w = (Return b, w')
  → ∃ a w1, m w = (Return a, w1) ∧ k a w1 = (Return b, w').
Proof.
  unfold bind. destruct (m w) as [[a|e|] w1]; [eauto|done..].
Qed.

(** The fallback of [downloadAndParseIrs] runs [parseIrsFromDisk] only after
    it has seen the cache file, so the nested call never downloads again:
    what the method does is the same at every call depth. *)
Lemma downloadAndParseIrsWith_fallback f g env manifest w :
  downloadAndParseIrsWith (parseIrsFromDiskWith f) env manifest w
  = downloadAndParseIrsWith (parseIrsFromDiskWith g) env manifest w.
Proof.
  unfold downloadAndParseIrsWith. apply tryCatch_ext. intros e w'.
  unfold parseIrsFromDiskWith, bind, existsSync, emit, getDisk, ret. simpl.
  destruct (irs_csv (disk w')) eqn:Hcsv; simpl; by rewrite ?Hcsv.
Qed.

Lemma downloadAndParseIrs_depth depth env manifest w :
  downloadAndParseIrs (S depth) env manifest w
  = downloadAndParseIrsWith (parseIrsFromDiskWith (λ _, throw [])) env
      manifest w.
Proof. simpl. apply downloadAndParseIrsWith_fallback. Qed.

Section Soundness.
Context `{!JsRuntime}.
Variable J : gmap jsstring (list OfacSdnRow.t) → Prop.
Hypothesis J_built : ∀ sdnRows altRows, J (buildOfacNameMap sdnRows altRows).

Local Abbreviation I := (onNameMap J).

Lemma downloadAndParseOfacWith_fallback f g env manifest w :
  downloadAndParseOfacWith (parseOfacFromDiskWith f) env manifest w
  = downloadAndParseOfacWith (parseOfacFromDiskWith g) env manifest w.
Proof.
  unfold downloadAndParseOfacWith. apply tryCatch_ext. intros e w'.
  unfold parseOfacFromDiskWith, bind, existsSync, emit, getDisk, ret. simpl.
  destruct (sdn_csv (disk w')) eqn:Hsdn, (alt_csv (disk w')) eqn:Halt.
  all: by repeat (progress (simpl; rewrite ?Hsdn, ?Halt)).
Qed.

Lemma downloadAndParseOfac_depth depth env manifest w :
  downloadAndParseOfac (S depth) env manifest w
  = downloadAndParseOfacWith (parseOfacFromDiskWith (λ _, throw [])) env
      manifest w.
Proof. simpl. apply downloadAndParseOfacWith_fallback. Qed.

Lemma sound_ret {A} (a : A) : sound I (ret a).
Proof. by intros w. Qed.

Lemma sound_throw {A} e : sound I (@throw A e).
Proof. by intros w. Qed.

Lemma sound_bind {A B} (m : M A) (k : A → M B) :
  sound I m → (∀ a, sound I (k a)) → sound I (bind m k).
Proof.
  intros Hm Hk w Hw. unfold bind. destruct (Hm w Hw) as [Hw' Hfuel].
  destruct (m w) as [[a|e|] w']; simpl in *; [by apply Hk|done..].
Qed.

Lemma sound_tryCatch {A} (body : M A) handler :
  sound I body → (∀ e, sound I (handler e)) → sound I (tryCatch body handler).
Proof.
  intros Hm Hh w Hw. unfold tryCatch. destruct (Hm w Hw) as [Hw' Hfuel].
  destruct (body w) as [[a|e|] w']; simpl in *; [done|by apply Hh|done].
Qed.

Lemma sound_getStore : sound I getStore.
Proof. by intros w. Qed.

Lemma sound_getDisk : sound I getDisk.
Proof. by intros w. Qed.

Lemma sound_putDisk d : sound I (putDisk d).
Proof. by intros w. Qed.

Lemma sound_emit e : sound I (emit e).
Proof. by intros w. Qed.

Lemma sound_set_irsMap m : sound I (set_irsMap m).
Proof. by intros w. Qed.

Lemma sound_set_lastRefreshAt t : sound I (set_lastRefreshAt t).
Proof. by intros w. Qed.

Lemma sound_set_ofacNameMap m : J m → sound I (set_ofacNameMap m).
Proof. by intros Hm w. Qed.

Create HintDb sound discriminated.

Hint Resolve sound_ret sound_throw sound_getStore sound_getDisk sound_putDisk
  sound_emit sound_set_irsMap sound_set_lastRefreshAt : sound.

(** Splits a monadic program along its binds, handlers and branches. *)
Ltac sound_step :=
  first
    [ solve [eauto with sound]
    | apply sound_set_ofacNameMap; apply J_built
    | apply sound_tryCatch
    | apply sound_bind
    | progress intros
    | case_match ].

Ltac sound_tac := repeat sound_step.

Lemma sound_httpGet {A} url (r : jsstring + A) : sound I (httpGet url r).
Proof. unfold httpGet. sound_tac. Qed.

Lemma sound_existsSync f : sound I (existsSync f).
Proof. unfold existsSync. sound_tac. Qed.

Lemma sound_fromFile {A} (c : option A) : sound I (fromFile c).
Proof. unfold fromFile. sound_tac. Qed.

Lemma sound_fromResult {A} (r : jsstring + A) : sound I (fromResult r).
Proof. unfold fromResult. sound_tac. Qed.

Hint Resolve sound_httpGet sound_existsSync sound_fromFile sound_fromResult
  : sound.

Lemma sound_disk_io :
  (∀ z, sound I (writeIrsZip z)) ∧ (∀ b, sound I (writeIrsCsv b))
  ∧ (∀ s, sound I (writeSdnCsv s)) ∧ (∀ s, sound I (writeAltCsv s))
  ∧ sound I readIrsCsv ∧ sound I readSdnCsv ∧ sound I readAltCsv
  ∧ sound I openIrsZip ∧ (∀ f, sound I (entryBuffer f))
  ∧ sound I loadManifest ∧ (∀ m, sound I (saveManifest m)).
Proof.
  unfold writeIrsZip, writeIrsCsv, writeSdnCsv, writeAltCsv, readIrsCsv,
    readSdnCsv, readAltCsv, openIrsZip, entryBuffer, loadManifest,
    saveManifest.
  split_and!; sound_tac.
Qed.

Lemma sound_writeIrsZip z : sound I (writeIrsZip z).
Proof. apply sound_disk_io. Qed.
Lemma sound_writeIrsCsv b : sound I (writeIrsCsv b).
Proof. apply sound_disk_io. Qed.
Lemma sound_writeSdnCsv s : sound I (writeSdnCsv s).
Proof. apply sound_disk_io. Qed.
Lemma sound_writeAltCsv s : sound I (writeAltCsv s).
Proof. apply sound_disk_io. Qed.
Lemma sound_readIrsCsv : sound I readIrsCsv.
Proof. apply sound_disk_io. Qed.
Lemma sound_readSdnCsv : sound I readSdnCsv.
Proof. apply sound_disk_io. Qed.
Lemma sound_readAltCsv : sound I readAltCsv.
Proof. apply sound_disk_io. Qed.
Lemma sound_openIrsZip : sound I openIrsZip.
Proof. apply sound_disk_io. Qed.
Lemma sound_entryBuffer f : sound I (entryBuffer f).
Proof. apply sound_disk_io. Qed.
Lemma sound_loadManifest : sound I loadManifest.
Proof. apply sound_disk_io. Qed.
Lemma sound_saveManifest m : sound I (saveManifest m).
Proof. apply sound_disk_io. Qed.

Hint Resolve sound_writeIrsZip sound_writeIrsCsv sound_writeSdnCsv
  sound_writeAltCsv sound_readIrsCsv sound_readSdnCsv sound_readAltCsv
  sound_openIrsZip sound_entryBuffer sound_loadManifest sound_saveManifest
  : sound.

Lemma sound_parseIrsFromDiskWith download :
  (∀ m, sound I (download m)) → sound I (parseIrsFromDiskWith download).
Proof. intros Hd. unfold parseIrsFromDiskWith. sound_tac. Qed.

Lemma sound_downloadAndParseIrsWith fromDisk env manifest :
  sound I fromDisk → sound I (downloadAndParseIrsWith fromDisk env manifest).
Proof. intros Hd. unfold downloadAndParseIrsWith. sound_tac. Qed.

(** Depth 1 is enough for [downloadAndParseIrs], depth 2 for
    [parseIrsFromDisk]. *)
Lemma sound_downloadAndParseIrs depth env manifest :
  sound I (downloadAndParseIrs (S depth) env manifest).
Proof.
  intros w Hw. rewrite downloadAndParseIrs_depth. revert w Hw.
  apply sound_downloadAndParseIrsWith, sound_parseIrsFromDiskWith.
  intros m. apply sound_throw.
Qed.

Lemma sound_parseIrsFromDisk depth env :
  sound I (parseIrsFromDisk (S (S depth)) env).
Proof.
  apply sound_parseIrsFromDiskWith. intros m. apply sound_downloadAndParseIrs.
Qed.

Lemma sound_parseOfacFromDiskWith download :
  (∀ m, sound I (download m)) → sound I (parseOfacFromDiskWith download).
Proof. intros Hd. unfold parseOfacFromDiskWith. sound_tac. Qed.

Lemma sound_downloadAndParseOfacWith fromDisk env manifest :
  sound I fromDisk → sound I (downloadAndParseOfacWith fromDisk env manifest).
Proof. intros Hd. unfold downloadAndParseOfacWith. sound_tac. Qed.

Lemma sound_downloadAndParseOfac depth env manifest :
  sound I (downloadAndParseOfac (S depth) env manifest).
Proof.
  intros w Hw. rewrite downloadAndParseOfac_depth. revert w Hw.
  apply sound_downloadAndParseOfacWith, sound_parseOfacFromDiskWith.
  intros m. apply sound_throw.
Qed.

Lemma sound_parseOfacFromDisk depth env :
  sound I (parseOfacFromDisk (S (S depth)) env).
Proof.
  apply sound_parseOfacFromDiskWith. intros m.
  apply sound_downloadAndParseOfac.
Qed.

Hint Resolve sound_downloadAndParseIrs sound_parseIrsFromDisk
  sound_downloadAndParseOfac sound_parseOfacFromDisk : sound.

Lemma sound_initialize env : sound I (initialize env).
Proof. unfold initialize, callDepth. sound_tac. Qed.

Lemma sound_refresh env source : sound I (refresh env source).
Proof. unfold refresh, callDepth. sound_tac. Qed.

(** Every map the store ever publishes as [ofacNameMap] is the empty map of
    the constructor or a result of [buildOfacNameMap]. *)
Lemma reachable_ofacNameMap w : J ∅ → reachable w → I w.
Proof.
  intros Hnew. induction 1 as [config d|env w _ IH|env source w _ IH|d w _ IH].
  - done.
  - by apply sound_initialize.
  - by apply sound_refresh.
  - done.
Qed.

End Soundness.

Section WithRuntime.
Context `{!JsRuntime}.

(** The public methods always end by returning or throwing: the call depth
    they grant is never exhausted. *)
Lemma callDepth_enough env source w :
  (initialize env w).1 ≠ OutOfFuel ∧ (refresh env source w).1 ≠ OutOfFuel.
Proof.
  split.
  - by apply (sound_initialize (λ _, True)).
  - by apply (sound_refresh (λ _, True)).
Qed.

Lemma reachable_empty_key w : reachable w → ofacNameMap (store w) !! [] = None.
Proof.
  apply (reachable_ofacNameMap (λ m, m !! [] = None)); [|done].
  apply OfacIndexFacts.buildOfacNameMap_empty_key.
Qed.

(** C10, amended.  In every world the store can reach, the name map has no
    entry under the empty key, and checking a name whose normalised form is
    the empty string gives [found = false] with no match.  A lone ["the"] and
    a bare suffix such as ["Inc"] are not such names. *)
Theorem check_empty_normalized (w : World) (name : jsstring) :
  reachable w
  → normalizeName name = []
  → ofacNameMap (store w) !! [] = None
    ∧ OfacSdnClient.check (store w) name
      = {| OfacSanctionsResult.found := false;
           OfacSanctionsResult.detail := OfacSdnClient.noMatchDetail;
           OfacSanctionsResult.matches := [] |}.
Proof.
  intros Hw Hname. pose proof (reachable_empty_key w Hw) as Hkey.
  split; [done|]. unfold OfacSdnClient.check, lookupName.
  by rewrite Hname, Hkey.
Qed.

End WithRuntime.

(** C10, counterexample.  A lone ["the"] and a bare suffix normalise to
    themselves, not to the empty string: the prefix pattern needs white space
    after ["the"] and the suffix pattern white space before the suffix.  A
    store that has loaded a list with an entity named ["The"] and one named
    ["Inc"] finds both. *)
Lemma degenerateNamesNeverMatch_fails :
  let w := (@refresh basicLatin (Sample.offline 1700000000000) (Some ofac)
              (Sample.freshWorld Sample.bareWordsDisk)).2 in
  @normalizeName basicLatin (lit "the") = lit "the"
  ∧ @normalizeName basicLatin (lit "Inc") = lit "inc"
  ∧ OfacSanctionsResult.found
      (@OfacSdnClient.check basicLatin (store w) (lit "the")) = true
  ∧ OfacSanctionsResult.found
      (@OfacSdnClient.check basicLatin (store w) (lit "Inc")) = true
  ∧ ¬ @degenerateNamesNeverMatch basicLatin.
Proof.
  cbv zeta. split_and!; [vm_compute; reflexivity..|].
  intros Hclaim.
  destruct (Hclaim
              (@refresh basicLatin (Sample.offline 1700000000000) (Some ofac)
                 (Sample.freshWorld Sample.bareWordsDisk)).2
              (lit "the")) as (Hempty & _).
  - apply reachable_refresh, reachable_new.
  - right. by left.
  - vm_compute in Hempty. discriminate Hempty.
Qed.

Lemma check_empty_normalized_witness :
  let w := (@refresh basicLatin (Sample.offline 1700000000000) (Some ofac)
              (Sample.freshWorld Sample.ofacDisk)).2 in
  size (ofacNameMap (store w)) = 2%nat
  ∧ ofacNameMap (store w) !! [] = None
  ∧ OfacSanctionsResult.found
      (@OfacSdnClient.check basicLatin (store w) (lit "-- & Co.")) = false
  ∧ OfacSanctionsResult.matches
      (@OfacSdnClient.check basicLatin (store w) (lit "-- & Co.")) = [].
Proof.
  cbv zeta. split; [by vm_compute|].
  destruct (@check_empty_normalized basicLatin
              (@refresh basicLatin (Sample.offline 1700000000000) (Some ofac)
                 (Sample.freshWorld Sample.ofacDisk)).2
              (lit "-- & Co.")) as [Hkey Hcheck].
  - apply reachable_refresh, reachable_new.
  - by vm_compute.
  - split_and!.
    + exact Hkey.
    + exact (f_equal OfacSanctionsResult.found Hcheck).
    + exact (f_equal OfacSanctionsResult.matches Hcheck).
Defined.

(** *** The corrupted-download guard *)

(** What [downloadAndParseIrs] does with a download that passes the size
    guards but parses to fewer rows than [MIN_IRS_ROWS]: the extracted bytes
    are already in the cache file when the row count is checked, so the
    fallback of the [catch] block parses and publishes them. *)
Lemma below_floor_download_is_published depth env manifest w entry rest
    content :
  http_irs env = inr (inr (entry :: rest))
  → (negb (uncompressedSize entry =? 0)
     && (MAX_ZIP_SIZE_BYTES <? uncompressedSize entry))%Z = false
  → buffer entry = inr content
  → (MAX_ZIP_SIZE_BYTES <? byteLength content)%Z = false
  → (mapSize (parseIrsCsv (utf8 content)) <? MIN_IRS_ROWS)%Z = true
  → (downloadAndParseIrs (S depth) env manifest w).1 = Return manifest
    ∧ irsMap (store (downloadAndParseIrs (S depth) env manifest w).2)
      = parseIrsCsv (utf8 content)
    ∧ irs_csv (disk (downloadAndParseIrs (S depth) env manifest w).2)
      = Some content.
Proof.
  intros Hhttp Hheader Hbuffer Hlength Hrows.
  rewrite downloadAndParseIrs_depth.
  unfold downloadAndParseIrsWith, tryCatch, bind, httpGet, writeIrsZip,
    openIrsZip, entryBuffer, writeIrsCsv, fromFile, emit, getDisk, putDisk,
    ret, throw, existsSync, parseIrsFromDiskWith, readIrsCsv, set_irsMap,
    getStore, putStore.
  rewrite Hhttp. cbn -[parseIrsCsv mapSize ofZ lit MAX_ZIP_SIZE_BYTES
                       MIN_IRS_ROWS Z.ltb Z.eqb].
  rewrite Hheader, Hbuffer.
  cbn -[parseIrsCsv mapSize ofZ lit MAX_ZIP_SIZE_BYTES MIN_IRS_ROWS Z.ltb
        Z.eqb].
  rewrite Hlength.
  cbn -[parseIrsCsv mapSize ofZ lit MAX_ZIP_SIZE_BYTES MIN_IRS_ROWS Z.ltb
        Z.eqb].
  rewrite Hrows.
  cbn -[parseIrsCsv mapSize ofZ lit MAX_ZIP_SIZE_BYTES MIN_IRS_ROWS Z.ltb
        Z.eqb].
  done.
Qed.

(** C1, the code at a failing input.  A store serves the one-row list of
    its cache; [refresh("irs")] receives an archive whose file parses to one
    other row, below [MIN_IRS_ROWS].  The call returns normally and the
    published map is the map parsed from the rejected download: the row
    served before is gone. *)
Theorem below_floor_download_replaces_generation :
  let run := @refresh basicLatin (Sample.truncatedDownload 1700000000000)
               (Some irs) Sample.servingWorld in
  (mapSize (parseIrsCsv Sample.truncatedText) <? MIN_IRS_ROWS)%Z = true
  ∧ run.1 = Return {| irs_refreshed := true; ofac_refreshed := false |}
  ∧ is_Some (lookupEin (store Sample.servingWorld) (lit "11-1111111"))
  ∧ lookupEin (store run.2) (lit "11-1111111") = None
  ∧ is_Some (lookupEin (store run.2) (lit "22-2222222"))
  ∧ irsMap (store run.2) = parseIrsCsv Sample.truncatedText
  ∧ irsMap (store run.2) ≠ irsMap (store Sample.servingWorld).
Proof.
  cbv zeta. split_and!; try (vm_compute; reflexivity).
  - vm_compute. eauto.
  - vm_compute. eauto.
  - intros Heq.
    apply (f_equal (λ m, m !! lit "111111111")) in Heq.
    vm_compute in Heq. discriminate Heq.
Qed.

(** *** The refresh cooldown *)

Lemma refresh_rejected `{!JsRuntime} env source w :
  (clock_entry env - lastRefreshAt (store w) < REFRESH_COOLDOWN_MS)%Z
  → refresh env source w
    = (Throw (cooldownMessage
                (ceilSeconds (REFRESH_COOLDOWN_MS
                              - (clock_entry env - lastRefreshAt (store w))))),
       w).
Proof.
  intros Hcool%Z.ltb_lt. unfold refresh, bind, getStore.
  by rewrite Hcool.
Qed.

Lemma refresh_completed `{!JsRuntime} env source w result w' :
  refresh env source w = (Return result, w')
  → lastRefreshAt (store w') = clock_exit env.
Proof.
  unfold refresh. intros (s & w1 & _ & Hrun)%bind_Return.
  destruct (_ <? _)%Z; [done|].
  apply bind_Return in Hrun as (m & w2 & _ & Hrun).
  apply bind_Return in Hrun as (m' & w3 & _ & Hrun).
  apply bind_Return in Hrun as (u & w4 & _ & Hrun).
  apply bind_Return in Hrun as (u' & w5 & Hset & Hret).
  injection Hret as _ <-. unfold set_lastRefreshAt, bind, getStore, putStore
    in Hset. by injection Hset as _ <-.
Qed.

Lemma ceilSeconds_bounds elapsed :
  (0 ≤ elapsed < REFRESH_COOLDOWN_MS)%Z
  → (1 ≤ ceilSeconds (REFRESH_COOLDOWN_MS - elapsed) ≤ 60)%Z.
Proof.
  unfold ceilSeconds, REFRESH_COOLDOWN_MS. intros Helapsed.
  pose proof (Z.div_le_lower_bound (- (60000 - elapsed)) 1000 (-60)).
  pose proof (Z.div_lt_upper_bound (- (60000 - elapsed)) 1000 0).
  lia.
Qed.

(** C7, amended.  When a [refresh] has completed successfully, a [refresh]
    on the same store that starts less than 60 s after that completion fails
    with "Refresh cooldown: try again in Ns" and leaves the world as it found
    it: no download, no disk access, no change to the published generations
    or the manifest. *)
Theorem refresh_cooldown_after_completion `{!JsRuntime} env1 source1 w result
    w1 env2 source2 :
  refresh env1 source1 w = (Return result, w1)
  → (clock_entry env2 - clock_exit env1 < REFRESH_COOLDOWN_MS)%Z
  → refresh env2 source2 w1
    = (Throw (cooldownMessage
                (ceilSeconds (REFRESH_COOLDOWN_MS
                              - (clock_entry env2 - clock_exit env1)))),
       w1).
Proof.
  intros Hfirst Hsoon. apply refresh_completed in Hfirst.
  rewrite <- Hfirst in Hsoon |- *. by apply refresh_rejected.
Qed.

Lemma refresh_cooldown_after_completion_witness :
  let first := @refresh basicLatin (Sample.offline 1700000000000) None
                 (Sample.freshWorld Sample.cachedDisk) in
  first.1 = Return {| irs_refreshed := true; ofac_refreshed := true |}
  ∧ @refresh basicLatin (Sample.offline 1700000059000) (Some irs) first.2
    = (Throw (lit "Refresh cooldown: try again in 1s"), first.2).
Proof.
  cbv zeta.
  assert ((@refresh basicLatin (Sample.offline 1700000000000) None
             (Sample.freshWorld Sample.cachedDisk)).1
          = Return {| irs_refreshed := true; ofac_refreshed := true |})
    as Hfirst by (vm_compute; reflexivity).
  split; [exact Hfirst|].
  apply (@refresh_cooldown_after_completion basicLatin
           (Sample.offline 1700000000000) None
           (Sample.freshWorld Sample.cachedDisk)
           {| irs_refreshed := true; ofac_refreshed := true |}
           _ (Sample.offline 1700000059000) (Some irs)).
  - rewrite <- Hfirst. apply surjective_pairing.
  - reflexivity.
Defined.

(** C7, counterexample.  A refresh completes; a second call 59 s later is
    rejected; a third call 2 s after the second, 61 s after the completion,
    is not rejected: it runs and does its I/O.  The window is anchored at the
    last completed refresh, not at the last invocation. *)
Lemma cooldownBetweenInvocations_fails :
  let first := @refresh basicLatin (Sample.offline 1700000000000) None
                 (Sample.freshWorld Sample.cachedDisk) in
  let second := @refresh basicLatin (Sample.offline 1700000059000) None
                  first.2 in
  let third := @refresh basicLatin (Sample.offline 1700000061000) None
                 second.2 in
  first.1 = Return {| irs_refreshed := true; ofac_refreshed := true |}
  ∧ second.1 = Throw (lit "Refresh cooldown: try again in 1s")
  ∧ third.1 = Return {| irs_refreshed := true; ofac_refreshed := true |}
  ∧ (length (trace second.2) < length (trace third.2))%nat
  ∧ ¬ @cooldownBetweenInvocations basicLatin.
Proof.
  cbv zeta. split_and!; [vm_compute; reflexivity..| |].
  - vm_compute. lia.
  - intros Hclaim.
    destruct (Hclaim
                (@refresh basicLatin (Sample.offline 1700000000000) None
                   (Sample.freshWorld Sample.cachedDisk)).2
                (Sample.offline 1700000059000) None
                (Sample.offline 1700000061000) None) as [_ Hsame].
    + apply reachable_refresh, reachable_new.
    + by vm_compute.
    + apply (f_equal (λ w, length (trace w))) in Hsame.
      vm_compute in Hsame. discriminate Hsame.
Qed.

(** A refresh that throws does not start the window at all: on a new store
    with no cache and the network down, [refresh] throws "Cannot load IRS
    revocation data", [lastRefreshAt] stays 0, and a call one second later
    issues the HTTP request again. *)
Example refresh_after_failure_not_rejected :
  let first := @refresh basicLatin (Sample.offline 1700000000000) None
                 (Sample.freshWorld Sample.emptyDisk) in
  let second := @refresh basicLatin (Sample.offline 1700000001000) None
                  first.2 in
  first.1 = Throw (lit "Cannot load IRS revocation data: connect ETIMEDOUT")
  ∧ lastRefreshAt (store first.2) = 0%Z
  ∧ second.1
    = Throw (lit "Cannot load IRS revocation data: connect ETIMEDOUT")
  ∧ trace second.2
    = trace first.2
      ++ [ReadFile ManifestJson; HttpGet IRS_REVOCATION_URL; ExistsSync IrsCsv].
Proof. cbv zeta. split_and!; vm_compute; reflexivity. Qed.

End StoreFacts.

(** ** The name normaliser *)

Module NameNormalizerFacts.
Import JsFacts.

Lemma allOf_stripThePrefix p s : allOf p s → allOf p (stripThePrefix s).
Proof.
  intros Hs. unfold stripThePrefix, matchThePrefix.
  repeat (case_match; try done). simpl. subst.
  apply allOf_dropWhile. by repeat apply Forall_cons_1 in Hs as [_ Hs].
Qed.

Lemma allOf_stripTrailingSuffix p s :
  allOf p s → allOf p (stripTrailingSuffix s).
Proof.
  intros Hs. unfold stripTrailingSuffix, matchTrailingSuffix.
  destruct (dropWhile notWhiteSpace (reverse s)) as [|c rest] eqn:Hrest;
    [done|].
  destruct (isOrgSuffix _); [|done].
  change (allOf p (reverse (dropWhile isWhiteSpace (c :: rest)))).
  apply allOf_reverse, allOf_dropWhile. rewrite <- Hrest.
  by apply allOf_dropWhile, allOf_reverse.
Qed.

Lemma allOf_stripSuffixLoop p budget s :
  allOf p s → allOf p (stripSuffixLoop budget s).
Proof.
  revert s. induction budget as [|budget IH]; intros s Hs; [done|]. simpl.
  case_bool_decide; [by apply allOf_stripTrailingSuffix|].
  by apply IH, allOf_stripTrailingSuffix.
Qed.

Lemma stripThePrefix_stable s :
  matchThePrefix s = None → stripThePrefix s = s.
Proof. unfold stripThePrefix. by intros ->. Qed.

Lemma stripTrailingSuffix_stable s :
  matchTrailingSuffix s = None → stripTrailingSuffix s = s.
Proof. unfold stripTrailingSuffix. by intros ->. Qed.

Lemma stripSuffixLoop_stable budget s :
  matchTrailingSuffix s = None → stripSuffixLoop (S budget) s = s.
Proof.
  intros Hs. cbn [stripSuffixLoop].
  rewrite stripTrailingSuffix_stable by done.
  by rewrite bool_decide_eq_true_2.
Qed.

Lemma matchThePrefix_shorter s x :
  matchThePrefix s = Some x → (length x < length s)%nat.
Proof.
  intros Hm. unfold matchThePrefix in Hm.
  destruct s as [|c1 [|c2 [|c3 [|c4 t]]]]; try done;
    repeat (case_match; try done).
  injection Hm as <-. pose proof (length_dropWhile isWhiteSpace t).
  simpl. lia.
Qed.

Lemma matchTrailingSuffix_shorter s y :
  matchTrailingSuffix s = Some y → (length y < length s)%nat.
Proof.
  unfold matchTrailingSuffix.
  destruct (dropWhile notWhiteSpace (reverse s)) as [|c rest] eqn:Hrest;
    [done|].
  destruct (isOrgSuffix _); [|done]. intros [= <-].
  pose proof (dropWhile_head _ _ _ _ Hrest) as Hc.
  apply negb_false_iff in Hc.
  pose proof (length_dropWhile notWhiteSpace (reverse s)) as Hlen.
  rewrite Hrest, length_reverse in Hlen. rewrite length_reverse.
  cbn [dropWhile]. rewrite Hc.
  pose proof (length_dropWhile isWhiteSpace rest). simpl in Hlen. lia.
Qed.

Lemma length_stripTrailingSuffix s :
  (length (stripTrailingSuffix s) ≤ length s)%nat.
Proof.
  unfold stripTrailingSuffix.
  destruct (matchTrailingSuffix s) as [y|] eqn:Hy; [|done].
  apply matchTrailingSuffix_shorter in Hy. simpl. lia.
Qed.

Lemma length_stripSuffixLoop budget s :
  (length (stripSuffixLoop budget s) ≤ length s)%nat.
Proof.
  revert s. induction budget as [|budget IH]; intros s; [done|].
  cbn [stripSuffixLoop]. pose proof (length_stripTrailingSuffix s).
  case_bool_decide; [done|].
  pose proof (IH (stripTrailingSuffix s)). lia.
Qed.

Lemma stripSuffixLoop_shorter budget s y :
  matchTrailingSuffix s = Some y
  → (length (stripSuffixLoop (S budget) s) < length s)%nat.
Proof.
  intros Hy. cbn [stripSuffixLoop].
  assert (stripTrailingSuffix s = y) as ->
    by (unfold stripTrailingSuffix; by rewrite Hy).
  apply matchTrailingSuffix_shorter in Hy.
  case_bool_decide; [lia|].
  pose proof (length_stripSuffixLoop budget y). lia.
Qed.

Section WithRuntime.
Context `{!JsRuntime}.

(** The result of [normalizeName] is text over [[a-z0-9 ]] with single
    interior spaces. *)
Lemma normalizeName_shape s :
  ∃ t, normalizeName s = trim t ∧ allOf isPlain t ∧ singleSpaced t = true.
Proof.
  unfold normalizeName. eexists. split; [done|]. split.
  - apply allOf_collapseWhiteSpace, allOf_stripSuffixLoop,
      allOf_stripThePrefix.
    eapply allOf_impl; [|apply allOf_removeAll].
    intros c. simpl. by rewrite negb_involutive.
  - apply singleSpaced_collapseWhiteSpace.
Qed.

(** On text of that shape the first three steps and the last change
    nothing. *)
Lemma normalizeName_plain r :
  allOf isPlain r → singleSpaced r = true → trim r = r
  → normalizeName r = trim (collapseWhiteSpace
                             (stripSuffixLoop 10 (stripThePrefix r))).
Proof.
  intros Hplain Hspaced Htrim. unfold normalizeName.
  rewrite normalize_nfd_ascii
    by (apply allOf_forallb; eapply allOf_impl;
        [apply isPlain_isAscii|exact Hplain]).
  rewrite (removeAll_id isCombiningMark r)
    by (eapply allOf_impl; [|exact Hplain]; intros c Hc; simpl;
        by rewrite isPlain_not_combining).
  rewrite to_lower_case_ascii
    by (apply allOf_forallb; eapply allOf_impl;
        [apply isPlain_isAscii|exact Hplain]).
  assert (asciiLower <$> r = r) as Hlower.
  { clear Hspaced Htrim. induction Hplain as [|c r Hc Hr IH]; [done|].
    rewrite fmap_cons. by rewrite isPlain_asciiLower, IH. }
  rewrite Hlower.
  rewrite removeAll_id; [done|].
  eapply allOf_impl; [|exact Hplain]. intros c Hc. simpl.
  by rewrite isPlain_isKeptChar.
Qed.

(** A second pass that finds something to strip returns a shorter string. *)
Lemma normalizeName_second_pass_shorter s :
  matchThePrefix (normalizeName s) ≠ None
  ∨ matchTrailingSuffix (normalizeName s) ≠ None
  → (length (normalizeName (normalizeName s)) < length (normalizeName s))%nat.
Proof.
  intros Hstrip.
  destruct (normalizeName_shape s) as (t & Hr & Hplain & Hspaced).
  rewrite normalizeName_plain.
  - set (r := normalizeName s) in *.
    pose proof (length_trim
                  (collapseWhiteSpace (stripSuffixLoop 10 (stripThePrefix r)))).
    pose proof (length_collapseWhiteSpace
                  (stripSuffixLoop 10 (stripThePrefix r))).
    pose proof (length_stripSuffixLoop 10 (stripThePrefix r)).
    destruct (matchThePrefix r) as [x|] eqn:Hx.
    + assert (stripThePrefix r = x) as Heq
        by (unfold stripThePrefix; by rewrite Hx).
      rewrite Heq in *. apply matchThePrefix_shorter in Hx. lia.
    + rewrite stripThePrefix_stable in * by done.
      destruct (matchTrailingSuffix r) as [y|] eqn:Hy; [|by destruct Hstrip].
      pose proof (stripSuffixLoop_shorter 9 r y Hy). lia.
  - rewrite Hr. by apply allOf_trim.
  - rewrite Hr. by apply singleSpaced_trimEnd, singleSpaced_dropWhile.
  - rewrite Hr. apply trim_trim.
Qed.

(** C3, amended.  Normalising a normalised name is a no-op exactly when
    that name offers the second pass nothing to strip: it does not start
    with ["the"] followed by a space and does not end in a space followed by
    an organisational suffix. *)
Theorem normalizeName_idempotent_when_stable (s : jsstring) :
  normalizeName (normalizeName s) = normalizeName s
  ↔ matchThePrefix (normalizeName s) = None
    ∧ matchTrailingSuffix (normalizeName s) = None.
Proof.
  split.
  - intros Hfix.
    destruct (matchThePrefix (normalizeName s)) as [x|] eqn:Hx.
    { pose proof (normalizeName_second_pass_shorter s) as Hlt.
      rewrite Hx, Hfix in Hlt. specialize (Hlt ltac:(by left)). lia. }
    destruct (matchTrailingSuffix (normalizeName s)) as [y|] eqn:Hy; [|done].
    pose proof (normalizeName_second_pass_shorter s) as Hlt.
    rewrite Hy, Hfix in Hlt. specialize (Hlt ltac:(by right)). lia.
  - intros [Hprefix Hsuffix].
    destruct (normalizeName_shape s) as (t & Hr & Hplain & Hspaced).
    assert (singleSpaced (normalizeName s) = true) as Hspaced'.
    { rewrite Hr. by apply singleSpaced_trimEnd, singleSpaced_dropWhile. }
    rewrite normalizeName_plain.
    + rewrite stripThePrefix_stable by done.
      rewrite stripSuffixLoop_stable by done.
      rewrite collapseWhiteSpace_id by done.
      rewrite Hr. apply trim_trim.
    + rewrite Hr. by apply allOf_trim.
    + done.
    + rewrite Hr. apply trim_trim.
Qed.

End WithRuntime.

(** C3, counterexample.  ["The The Band"] normalises to ["the band"], which
    normalises to ["band"]. *)
Lemma normalizeName_not_idempotent :
  @normalizeName basicLatin (lit "The The Band") = lit "the band"
  ∧ @normalizeName basicLatin (lit "the band") = lit "band"
  ∧ @normalizeName basicLatin (@normalizeName basicLatin (lit "The The Band"))
    ≠ @normalizeName basicLatin (lit "The The Band").
Proof. split_and!; [by vm_compute..|]. by vm_compute. Qed.

Lemma normalizeName_idempotent_when_stable_witness :
  @normalizeName basicLatin (lit "Acme Corp Inc") = lit "acme"
  ∧ @normalizeName basicLatin (@normalizeName basicLatin (lit "Acme Corp Inc"))
    = @normalizeName basicLatin (lit "Acme Corp Inc").
Proof.
  split; [by vm_compute|].
  apply (@normalizeName_idempotent_when_stable basicLatin
           (lit "Acme Corp Inc")).
  split; by vm_compute.
Defined.

(** Other inputs on which a second pass strips more: a trailing suffix
    followed by stripped punctuation, and more than ten stacked suffixes.
    A lone ["the"] or ["inc"] is left as it is. *)
Example normalizeName_second_pass :
  let n s := @normalizeName basicLatin (lit s) in
  n "Acme Inc -"%string = lit "acme inc"
  ∧ n "acme inc"%string = lit "acme"
  ∧ n "a co co co co co co co co co co co"%string = lit "a co"
  ∧ n "a co"%string = lit "a"
  ∧ n "the"%string = lit "the"
  ∧ n "inc"%string = lit "inc"
  ∧ n "the "%string = lit ""
  ∧ n "-- & Co."%string = lit "".
Proof. by vm_compute. Qed.

(** The cases of the repository's own normaliser tests. *)
Example normalizeName_tests :
  let n s := @normalizeName basicLatin (lit s) in
  n "HELLO WORLD"%string = lit "hello world"
  ∧ n "Hello, World!"%string = lit "hello world"
  ∧ n "O'Brien & Associates"%string = lit "obrien associates"
  ∧ n "The Red Cross"%string = lit "red cross"
  ∧ n "Save the Children"%string = lit "save the children"
  ∧ n "Acme Corporation"%string = lit "acme"
  ∧ n "Acme Foundation"%string = lit "acme foundation"
  ∧ n "Acme Corp Inc"%string = lit "acme"
  ∧ n "Inc Something"%string = lit "inc something"
  ∧ n "National Wildlife Fund"%string = lit "national wildlife fund"
  ∧ n "Hello    World"%string = lit "hello world"
  ∧ n "  Hello  "%string = lit "hello"
  ∧ n ""%string = lit "".
Proof. by vm_compute. Qed.

End NameNormalizerFacts.

(** * Further properties *)

(** ** Scoring: order of the flags and the recommendation of three checks *)

Module ScoringMore.

Lemma getRecommendation_BLOCK_checks irs ofac court :
  getRecommendation (aggregateFlags irs ofac court) = BLOCK
  ↔ IrsRevocationResult.revoked irs = true
    ∨ OfacSanctionsResult.found ofac = true.
Proof.
  unfold aggregateFlags, getRecommendation.
  destruct (IrsRevocationResult.revoked irs),
    (OfacSanctionsResult.found ofac), (CourtRecordsResult.found court);
    simpl; try (destruct (3 <=? _)%Z; simpl);
    intuition (try discriminate; auto).
Qed.

(** X1. The flags of [aggregateFlags] come in the fixed order revocation,
    sanctions, litigation, at most one per source, and a flag is CRITICAL
    exactly when it does not come from the court records. *)
Theorem aggregateFlags_order irs ofac court :
  let flags := aggregateFlags irs ofac court in
  RedFlag.source <$> flags
    `sublist_of` [irs_revocation; ofac_sanctions; court_records]
  ∧ (length flags ≤ 3)%nat
  ∧ ∀ f, f ∈ flags
         → (RedFlag.severity f = CRITICAL
            ↔ RedFlag.source f ≠ court_records).
Proof.
  cbv zeta. unfold aggregateFlags.
  destruct (IrsRevocationResult.revoked irs),
    (OfacSanctionsResult.found ofac), (CourtRecordsResult.found court);
    simpl; (split_and!; [repeat first [apply sublist_nil
                                       | apply sublist_skip
                                       | apply sublist_cons]
                        | lia |]).
  all: intros f Hf; set_unfold in Hf.
  all: destruct_or?; try done; subst; simpl; try done.
  all: by destruct (3 <=? _)%Z.
Qed.

(** X2. The recommendation for three check results is BLOCK exactly when the
    organisation is revoked or sanctioned, FLAG exactly when it is neither
    but court cases were found, and CLEAN exactly when none of the three
    holds: court records alone never block. *)
Theorem recommendation_of_checks irs ofac court :
  let r := getRecommendation (aggregateFlags irs ofac court) in
  (r = BLOCK
   ↔ IrsRevocationResult.revoked irs = true
     ∨ OfacSanctionsResult.found ofac = true)
  ∧ (r = FLAG
     ↔ IrsRevocationResult.revoked irs = false
       ∧ OfacSanctionsResult.found ofac = false
       ∧ CourtRecordsResult.found court = true)
  ∧ (r = CLEAN
     ↔ IrsRevocationResult.revoked irs = false
       ∧ OfacSanctionsResult.found ofac = false
       ∧ CourtRecordsResult.found court = false).
Proof.
  cbv zeta. unfold aggregateFlags, getRecommendation.
  destruct (IrsRevocationResult.revoked irs),
    (OfacSanctionsResult.found ofac), (CourtRecordsResult.found court);
    simpl; try (destruct (3 <=? _)%Z; simpl);
    intuition (try discriminate; auto).
Qed.

End ScoringMore.

(** ** The court client *)

Module CourtListenerFacts.
Import CourtListenerClient.

Lemma searchByOrgName_not_found name lookbackYears settled r :
  searchByOrgName name lookbackYears settled = inr r
  → CourtRecordsResult.found r = false
  → CourtRecordsResult.caseCount r = 0%Z.
Proof.
  unfold searchByOrgName. intros Hr Hfound.
  repeat case_match; simplify_eq; done.
Qed.


(** X4. For a result of [searchByOrgName], the case count decides the
    litigation flag whenever it is at least 1: one flag, HIGH from three
    cases on and MEDIUM below. *)
Theorem searchByOrgName_flag name lookbackYears settled r irs ofac :
  searchByOrgName name lookbackYears settled = inr r
  → (1 ≤ CourtRecordsResult.caseCount r)%Z
  → litigationFlags (aggregateFlags irs ofac r) = [courtFlag r]
    ∧ RedFlag.severity (courtFlag r)
      = if (3 <=? CourtRecordsResult.caseCount r)%Z then HIGH else MEDIUM.
Proof.
  intros Hr Hcount. split; [|done].
  rewrite ScoringFacts.litigationFlags_aggregateFlags.
  pose proof (searchByOrgName_not_found _ _ _ _ Hr) as Hzero.
  destruct (CourtRecordsResult.found r); [done|].
  rewrite Hzero in Hcount by done. lia.
Qed.

Lemma searchByOrgName_flag_witness :
  ∃ r,
    searchByOrgName (lit "Acme") 1 (Resolved (Some SampleCourt.response))
    = inr r
    ∧ litigationFlags (aggregateFlags Sample.irsClean Sample.ofacClean r)
      = [courtFlag r]
    ∧ RedFlag.severity (courtFlag r) = HIGH.
Proof.
  eexists. split; [reflexivity|].
  eapply (searchByOrgName_flag (lit "Acme") 1
            (Resolved (Some SampleCourt.response)));
    [reflexivity|simpl; lia].
Defined.

Lemma isSolrSyntax_quote : isSolrSyntax 34 = true.
Proof. reflexivity. Qed.

(** X5. The search query is a phrase between two double quotes whose body
    holds no character of the Solr query syntax, so the name cannot close
    the phrase or add operators; the body is what is left of the name, in
    order. *)
Theorem searchQuery_sanitized name :
  ∃ body,
    searchQuery name = [34] ++ body ++ [34]
    ∧ (∀ c, c ∈ body → isSolrSyntax c = false)
    ∧ (34 ∉ body)
    ∧ body `sublist_of` name
    ∧ sanitizeName body = body.
Proof.
  exists (sanitizeName name). unfold searchQuery, sanitizeName. split_and!.
  - done.
  - intros c Hc. pose proof (JsFacts.allOf_removeAll isSolrSyntax name) as Hall.
    apply (proj1 (Forall_forall _ _) Hall) in Hc. by apply negb_true_iff.
  - intros Hq. unfold removeAll in Hq.
    by apply list_elem_of_filter in Hq as [Hq _].
  - apply sublist_filter.
  - apply IrsRevocationClientFacts.removeAll_removeAll.
Qed.

Lemma waitIfNeeded_lastRequestTime now r :
  RateLimiter.lastRequestTime (RateLimiter.waitIfNeeded now r).2
  = Z.max now (RateLimiter.lastRequestTime r + RateLimiter.delayMs r)
  ∧ RateLimiter.delayMs (RateLimiter.waitIfNeeded now r).2
    = RateLimiter.delayMs r
  ∧ sleepsUntilSlot now
      ((RateLimiter.waitIfNeeded now r).1,
       RateLimiter.lastRequestTime (RateLimiter.waitIfNeeded now r).2).
Proof.
  unfold RateLimiter.waitIfNeeded, sleepsUntilSlot, RateLimiter.timerDelay,
    RateLimiter.TIMEOUT_MAX.
  destruct (_ <? RateLimiter.delayMs r)%Z eqn:Hlt; cbn;
    [apply Z.ltb_lt in Hlt|apply Z.ltb_ge in Hlt].
  - split_and!; [lia|done|].
    replace (now + (RateLimiter.delayMs r
                    - (now - RateLimiter.lastRequestTime r)) - now)%Z
      with (RateLimiter.delayMs r - (now - RateLimiter.lastRequestTime r))%Z
      by lia.
    destruct (_ <? 1)%Z eqn:Hone; [apply Z.ltb_lt in Hone; lia|].
    by destruct (2147483647 <? _)%Z.
  - split_and!; [lia|done|]. by rewrite Z.sub_diag.
Qed.

Lemma reservedSlots_gaps r arrivals :
  spaced (RateLimiter.delayMs r)
    (RateLimiter.lastRequestTime r :: reservedSlots r arrivals).
Proof.
  revert r. induction arrivals as [|now rest IH]; intros r; [done|].
  destruct (waitIfNeeded_lastRequestTime now r) as (Hlast & Hdelay & _).
  pose proof (IH (RateLimiter.waitIfNeeded now r).2) as Hspaced.
  rewrite Hdelay in Hspaced. unfold reservedSlots in *.
  cbn [schedule fmap list_fmap snd]. split; [lia|done].
Qed.

(** X6. However the callers arrive, as long as clock readings, delay and
    slots stay below 2^52, the slots the limiter reserves (the values of
    [lastRequestTime]) are no earlier than the calls and at least [delayMs]
    apart.  A caller awaits a timer due at its slot, except when the slot is
    more than 2147483647 ms away: the timer then fires after 1 ms, long
    before the slot. *)
Theorem reservedSlots_spaced r arrivals :
  withinSafeIntegers r arrivals
  → spaced (RateLimiter.delayMs r)
      (RateLimiter.lastRequestTime r :: reservedSlots r arrivals)
    ∧ Forall2 Z.le arrivals (reservedSlots r arrivals)
    ∧ Forall2 sleepsUntilSlot arrivals (schedule r arrivals).
Proof.
  intros _. split; [apply reservedSlots_gaps|].
  revert r. induction arrivals as [|now rest IH]; intros r; [done|].
  destruct (waitIfNeeded_lastRequestTime now r) as (Hlast & _ & Hsleep).
  destruct (IH (RateLimiter.waitIfNeeded now r).2) as [Hle Hsleeps].
  unfold reservedSlots in *. cbn [schedule fmap list_fmap snd].
  split; constructor; [lia|done|done|done].
Qed.

Lemma reservedSlots_spaced_witness :
  let r := RateLimiter.new 500 in
  let arrivals := [1700000000000; 1700000000100; 1700000000200]%Z in
  reservedSlots r arrivals
  = [1700000000000; 1700000000500; 1700000001000]%Z
  ∧ spaced 500 (0%Z :: reservedSlots r arrivals)
  ∧ Forall2 sleepsUntilSlot arrivals (schedule r arrivals).
Proof.
  cbv zeta. split; [reflexivity|].
  destruct (reservedSlots_spaced (RateLimiter.new 500)
              [1700000000000; 1700000000100; 1700000000200]%Z)
    as (Hspaced & _ & Hsleeps).
  - split; [by vm_compute|]. unfold reservedSlots. cbn.
    repeat (apply Forall_cons; split; [split; by vm_compute|]).
    by apply Forall_nil.
  - split; [exact Hspaced|exact Hsleeps].
Defined.

(** A delay above the timer limit defeats the limiter: the second of two
    callers that arrive together is woken after 1 ms. *)
Example timer_overflow :
  schedule (RateLimiter.new 3000000000) [1700000000000; 1700000000000]%Z
  = [(0, 1700000000000); (1, 1703000000000)]%Z.
Proof. reflexivity. Qed.

End CourtListenerFacts.

(** ** The tool layer *)

Module ToolsMore.

Section WithRuntime.
Context `{!JsRuntime}.

Lemma ltb_length_false (n : nat) (s : jsstring) :
  (n <? length s)%nat = false ↔ (length s ≤ n)%nat.
Proof. rewrite Nat.ltb_ge. done. Qed.

(** X7. [checkRedFlags] succeeds exactly when the trimmed EIN and name are
    non-empty and within 20 and 500 code units and the court client does not
    reject the search.  A response has [data] exactly when it succeeds and
    [error] exactly when it does not; when the input is invalid the response
    is the same for every store and court client, so no check was run. *)
Theorem checkRedFlags_success store courtClient input :
  let response := Tools.checkRedFlags store courtClient input in
  (ToolResponse.success response = true
   ↔ validRedFlagsInput input
     ∧ courtAnswers courtClient (trim (CheckRedFlagsInput.name input)))
  ∧ (ToolResponse.success response = true
     ↔ is_Some (ToolResponse.data response))
  ∧ (ToolResponse.success response = false
     ↔ is_Some (ToolResponse.error response))
  ∧ (¬ validRedFlagsInput input
     → ∀ store' courtClient',
         Tools.checkRedFlags store' courtClient' input = response).
Proof.
  cbv zeta. unfold Tools.checkRedFlags, validRedFlagsInput, courtAnswers.
  set (ein := trim (CheckRedFlagsInput.ein input)).
  set (name := trim (CheckRedFlagsInput.name input)).
  assert (∀ {T} (P : Prop) message,
            ¬ P
            → (ToolResponse.success (@Tools.validationError T message) = true
               ↔ P)
              ∧ (ToolResponse.success (@Tools.validationError T message) = true
                 ↔ is_Some
                     (ToolResponse.data (@Tools.validationError T message)))
              ∧ (ToolResponse.success (@Tools.validationError T message)
                 = false
                 ↔ is_Some
                     (ToolResponse.error (@Tools.validationError T message))))
    as Hinvalid.
  { intros T P message HP. simpl. split_and!; split.
    all: first [done | by intros [? [=]] | by intros _; eexists]. }
  destruct (truthy ein) eqn:Hein; simpl.
  2: { apply OfacIndexFacts.truthy_false in Hein.
       edestruct (Hinvalid RedFlagReport.t) as (HA & HB & HC);
         [|split_and!; [exact HA|exact HB|exact HC|done]].
       by intros [[? _] _]. }
  destruct (truthy name) eqn:Hname; simpl.
  2: { apply OfacIndexFacts.truthy_false in Hname.
       edestruct (Hinvalid RedFlagReport.t) as (HA & HB & HC);
         [|split_and!; [exact HA|exact HB|exact HC|done]].
       by intros [(_ & ? & _) _]. }
  apply OfacIndexFacts.truthy_true in Hein, Hname.
  destruct (Tools.MAX_EIN_LENGTH <? length ein)%nat eqn:Hlein.
  { apply Nat.ltb_lt in Hlein.
    edestruct (Hinvalid RedFlagReport.t) as (HA & HB & HC);
      [|split_and!; [exact HA|exact HB|exact HC|done]].
    intros [(_ & _ & ? & _) _]. lia. }
  destruct (Tools.MAX_NAME_LENGTH <? length name)%nat eqn:Hlname.
  { apply Nat.ltb_lt in Hlname.
    edestruct (Hinvalid RedFlagReport.t) as (HA & HB & HC);
      [|split_and!; [exact HA|exact HB|exact HC|done]].
    intros [(_ & _ & _ & ?) _]. lia. }
  apply ltb_length_false in Hlein, Hlname.
  assert (ein ≠ [] ∧ name ≠ []
          ∧ (length ein ≤ Tools.MAX_EIN_LENGTH)%nat
          ∧ (length name ≤ Tools.MAX_NAME_LENGTH)%nat) as Hvalid by done.
  destruct courtClient as [client|]; [destruct (client name) as [e|r]|].
  - edestruct (Hinvalid RedFlagReport.t) as (HA & HB & HC);
      [|split_and!; [exact HA|exact HB|exact HC|]].
    + by intros [_ [? [=]]].
    + by intros [].
  - simpl. split_and!; [split; [by eauto|done] |split; [by eauto|done]
                       |split; [done|by intros [? [=]]] |done].
  - simpl. split_and!; [split; [by eauto|done] |split; [by eauto|done]
                       |split; [done|by intros [? [=]]] |done].
Qed.

(** X8. A successful [checkRedFlags] report is made of the two store checks
    on the trimmed input and the court result: its flags are
    [aggregateFlags] of its own checks, three sources are counted, and its
    recommendation is BLOCK exactly when the IRS check says revoked or the
    OFAC check found a match. *)
Theorem checkRedFlags_report store courtClient input :
  ToolResponse.success (Tools.checkRedFlags store courtClient input) = true
  → ∃ report,
      ToolResponse.data (Tools.checkRedFlags store courtClient input)
      = Some report
      ∧ RedFlagReport.ein report = trim (CheckRedFlagsInput.ein input)
      ∧ RedFlagReport.name report = trim (CheckRedFlagsInput.name input)
      ∧ RedFlagChecks.irs_revocation (RedFlagReport.checks report)
        = IrsRevocationClient.check store (RedFlagReport.ein report)
      ∧ RedFlagChecks.ofac_sanctions (RedFlagReport.checks report)
        = OfacSdnClient.check store (RedFlagReport.name report)
      ∧ RedFlagReport.flags report
        = aggregateFlags
            (RedFlagChecks.irs_revocation (RedFlagReport.checks report))
            (RedFlagChecks.ofac_sanctions (RedFlagReport.checks report))
            (RedFlagChecks.court_records (RedFlagReport.checks report))
      ∧ RedFlagSummary.sources_checked (RedFlagReport.summary report) = 3%Z
      ∧ (RedFlagSummary.recommendation (RedFlagReport.summary report) = BLOCK
         ↔ IrsRevocationResult.revoked
             (IrsRevocationClient.check store (RedFlagReport.ein report))
           = true
           ∨ OfacSanctionsResult.found
               (OfacSdnClient.check store (RedFlagReport.name report))
             = true).
Proof.
  unfold Tools.checkRedFlags.
  repeat case_match; simpl; try done; intros _.
  all: eexists; (split; [done|]); simpl; split_and!; try done.
  all: apply ScoringMore.getRecommendation_BLOCK_checks.
Qed.

(** X9. The tools trim their input: surrounding white space in the EIN or
    the name changes no response. *)
Theorem tools_trim_input store courtClient (ein name : jsstring) :
  ToolsSingle.checkIrsRevocation store {| CheckIrsRevocationInput.ein := ein |}
  = ToolsSingle.checkIrsRevocation store
      {| CheckIrsRevocationInput.ein := trim ein |}
  ∧ ToolsSingle.checkOfacSanctions store
      {| CheckOfacSanctionsInput.name := name |}
    = ToolsSingle.checkOfacSanctions store
        {| CheckOfacSanctionsInput.name := trim name |}
  ∧ Tools.checkRedFlags store courtClient
      {| CheckRedFlagsInput.ein := ein; CheckRedFlagsInput.name := name |}
    = Tools.checkRedFlags store courtClient
        {| CheckRedFlagsInput.ein := trim ein;
           CheckRedFlagsInput.name := trim name |}.
Proof.
  unfold ToolsSingle.checkIrsRevocation, ToolsSingle.checkOfacSanctions,
    Tools.checkRedFlags.
  cbn [CheckIrsRevocationInput.ein CheckOfacSanctionsInput.name
       CheckRedFlagsInput.ein CheckRedFlagsInput.name].
  by rewrite !JsFacts.trim_trim.
Qed.

(** X10. [refreshData] never throws: whatever [store.refresh] does, the tool
    returns a response, successful exactly when the refresh returned, and
    leaves the world the refresh left. *)
Theorem refreshData_returns env input w :
  let source := default all (RefreshDataInput.source input) in
  ∃ response,
    (ToolsSingle.refreshData env input w).1 = Return response
    ∧ (ToolsSingle.refreshData env input w).2
      = (refresh env (Some source) w).2
    ∧ (ToolResponse.success response = true
       ↔ ∃ result, (refresh env (Some source) w).1 = Return result
                   ∧ ToolResponse.data response = Some result)
    ∧ (ToolResponse.success response = false
       ↔ ∃ message, (refresh env (Some source) w).1 = Throw message
                    ∧ ToolResponse.error response
                      = Some (lit "Data refresh failed: " ++ message)).
Proof.
  cbv zeta. unfold ToolsSingle.refreshData, tryCatch, bind.
  pose proof (StoreFacts.callDepth_enough env
                (Some (default all (RefreshDataInput.source input))) w)
    as [_ Hfuel].
  destruct (refresh env _ w) as [[result|message|] w']; [| |done].
  - eexists; split_and!; [done|done| |]; simpl.
    + split; [eauto|done].
    + split; [done|]. by intros (? & [=] & _).
  - eexists; split_and!; [done|done| |]; simpl.
    + split; [done|]. by intros (? & [=] & _).
    + split; [eauto|done].
Qed.

(** X11. A refresh request inside the cooldown is an ordinary failure
    result: [refreshData] returns [success = false] with the cooldown
    message and the world is untouched. *)
Theorem refreshData_cooldown env input w :
  (clock_entry env - lastRefreshAt (store w) < REFRESH_COOLDOWN_MS)%Z
  → ToolsSingle.refreshData env input w
    = (Return
         (Tools.validationError
            (lit "Data refresh failed: "
               ++ cooldownMessage
                    (ceilSeconds
                       (REFRESH_COOLDOWN_MS
                        - (clock_entry env - lastRefreshAt (store w)))))),
       w).
Proof.
  intros Hcool. unfold ToolsSingle.refreshData, tryCatch, bind.
  by rewrite (StoreFacts.refresh_rejected _ _ _ Hcool).
Qed.

End WithRuntime.

Lemma checkRedFlags_report_witness :
  ∃ report,
    ToolResponse.data
      (@Tools.checkRedFlags basicLatin Sample.irsStore None Sample.sampleInput)
    = Some report
    ∧ RedFlagReport.ein report = lit "12-3456789"
    ∧ RedFlagSummary.recommendation (RedFlagReport.summary report) = BLOCK.
Proof.
  destruct (@checkRedFlags_report basicLatin Sample.irsStore None
              Sample.sampleInput eq_refl)
    as (report & Hdata & Hein & _ & _ & _ & _ & _ & Hblock).
  exists report. split_and!; [done|by rewrite Hein|].
  apply Hblock. left. rewrite Hein. reflexivity.
Defined.

Lemma refreshData_cooldown_witness :
  let w := (@refresh basicLatin (Sample.offline 1700000000000) None
              (Sample.freshWorld Sample.cachedDisk)).2 in
  (@ToolsSingle.refreshData basicLatin (Sample.offline 1700000030000)
     {| RefreshDataInput.source := None |} w).2 = w
  ∧ ∃ response,
      (@ToolsSingle.refreshData basicLatin (Sample.offline 1700000030000)
         {| RefreshDataInput.source := None |} w).1 = Return response
      ∧ ToolResponse.error response
        = Some (lit "Data refresh failed: Refresh cooldown: try again in 30s").
Proof.
  cbv zeta.
  rewrite (@refreshData_cooldown basicLatin (Sample.offline 1700000030000)
             {| RefreshDataInput.source := None |}
             (@refresh basicLatin (Sample.offline 1700000000000) None
                (Sample.freshWorld Sample.cachedDisk)).2)
    by (vm_compute; reflexivity).
  split; [done|]. eexists. split; [done|]. vm_compute. reflexivity.
Defined.

End ToolsMore.

(** ** The revocation list parser *)

Module IrsParserFacts.

Lemma fieldAt_trimmed fields i : trim (fieldAt fields i) = fieldAt fields i.
Proof.
  unfold fieldAt. destruct (fields !! i); [apply JsFacts.trim_trim|done].
Qed.

(** What a line adds to the empty map it adds to every map. *)
Lemma parseIrsLine_lookup m line k :
  parseIrsLine m line !! k
  = match parseIrsLine ∅ line !! k with
    | Some row => Some row
    | None => m !! k
    end.
Proof.
  unfold parseIrsLine. cbv zeta.
  destruct (negb (truthy (trim line))); [by rewrite lookup_empty|].
  destruct (length _ <? 11)%nat; [by rewrite lookup_empty|].
  destruct (negb (isNineDigits _)); [by rewrite lookup_empty|].
  match goal with |- <[?i:=_]> _ !! _ = _ => destruct (decide (i = k)) end.
  - subst k. by rewrite !lookup_insert_eq.
  - by rewrite !lookup_insert_ne, lookup_empty.
Qed.

Lemma foldl_parseIrsLine_lookup lines m k :
  foldl parseIrsLine m lines !! k
  = match last (omap (λ line, parseIrsLine ∅ line !! k) lines) with
    | Some row => Some row
    | None => m !! k
    end.
Proof.
  revert m. induction lines as [|line lines IH]; intros m; [done|].
  cbn [foldl omap list_omap]. rewrite IH, (parseIrsLine_lookup m).
  destruct (parseIrsLine ∅ line !! k) as [row|]; [|done].
  rewrite last_cons. by destruct (last _).
Qed.

(** A line stores at most one row, under the row's own EIN, which is nine
    digits; every field of the row is trimmed. *)
Lemma parseIrsLine_row line k row :
  parseIrsLine ∅ line !! k = Some row
  → IrsRevocationRow.ein row = k
    ∧ isNineDigits k = true
    ∧ parseIrsLine ∅ line = {[ k := row ]}
    ∧ Forall (λ field, trim field = field)
        [IrsRevocationRow.legalName row; IrsRevocationRow.dba row;
         IrsRevocationRow.city row; IrsRevocationRow.state row;
         IrsRevocationRow.zip row; IrsRevocationRow.country row;
         IrsRevocationRow.exemptionType row;
         IrsRevocationRow.revocationDate row;
         IrsRevocationRow.postingDate row;
         IrsRevocationRow.reinstatementDate row].
Proof.
  unfold parseIrsLine. cbv zeta.
  destruct (negb (truthy (trim line))); [by rewrite lookup_empty|].
  destruct (length _ <? 11)%nat; [by rewrite lookup_empty|].
  destruct (negb (isNineDigits _)) eqn:Hnine; [by rewrite lookup_empty|].
  apply negb_false_iff in Hnine.
  match goal with |- <[?i:=_]> _ !! _ = _ → _ => destruct (decide (i = k)) end.
  - subst k. rewrite lookup_insert_eq. intros [= <-].
    cbn [IrsRevocationRow.ein IrsRevocationRow.legalName IrsRevocationRow.dba
         IrsRevocationRow.city IrsRevocationRow.state IrsRevocationRow.zip
         IrsRevocationRow.country IrsRevocationRow.exemptionType
         IrsRevocationRow.revocationDate IrsRevocationRow.postingDate
         IrsRevocationRow.reinstatementDate].
    split_and!; [done|done|done|].
    repeat constructor; apply fieldAt_trimmed.
  - by rewrite lookup_insert_ne, lookup_empty.
Qed.

(** X12. The row [parseIrsCsv] stores under an EIN is the row of the last
    line, after the header line, that yields a row under that EIN: the first
    line never counts and a later line replaces an earlier one. *)
Theorem parseIrsCsv_last_wins content k :
  parseIrsCsv content !! k
  = last (omap (λ line, parseIrsLine ∅ line !! k) (drop 1 (split 10 content))).
Proof.
  unfold parseIrsCsv. rewrite foldl_parseIrsLine_lookup.
  by destruct (last _).
Qed.

Lemma parseIrsCsv_lookup_Some content k row :
  parseIrsCsv content !! k = Some row
  → ∃ line, line ∈ drop 1 (split 10 content)
            ∧ parseIrsLine ∅ line !! k = Some row.
Proof.
  unfold parseIrsCsv. rewrite foldl_parseIrsLine_lookup.
  destruct (last _) as [row'|] eqn:Hlast; [|by rewrite lookup_empty].
  intros [= ->]. apply last_Some_elem_of, list_elem_of_omap in Hlast.
  destruct Hlast as (line & Hline & Hrow). eauto.
Qed.

Lemma isNineDigits_true k :
  isNineDigits k = true → length k = 9%nat ∧ Forall (λ c, isDigit c = true) k.
Proof.
  unfold isNineDigits. intros [Hlen Hdigits]%andb_prop.
  apply Nat.eqb_eq in Hlen.
  pose proof (proj1 (forallb_forall _ _) Hdigits) as Hdigit.
  split; [done|]. apply Forall_forall. intros c Hc. apply Hdigit.
  by apply list_elem_of_In.
Qed.

(** X13. Every row of a parsed revocation list is stored under its own EIN,
    which is exactly nine decimal digits; its fields are trimmed, and it is
    the row of a line after the header line. *)
Theorem parseIrsCsv_rows content k row :
  parseIrsCsv content !! k = Some row
  → IrsRevocationRow.ein row = k
    ∧ length k = 9%nat
    ∧ Forall (λ c, isDigit c = true) k
    ∧ trim (IrsRevocationRow.legalName row) = IrsRevocationRow.legalName row
    ∧ trim (IrsRevocationRow.reinstatementDate row)
      = IrsRevocationRow.reinstatementDate row
    ∧ ∃ line, line ∈ drop 1 (split 10 content)
              ∧ parseIrsLine ∅ line = {[ k := row ]}.
Proof.
  intros (line & Hline & Hrow)%parseIrsCsv_lookup_Some.
  apply parseIrsLine_row in Hrow as (Hein & Hnine & Hsingle & Hfields).
  apply isNineDigits_true in Hnine as [Hlen Hdigits].
  split_and!; [done|done|done| | |by eauto].
  - by inversion Hfields.
  - rewrite Forall_forall in Hfields. apply Hfields. set_solver.
Qed.

Lemma parseIrsCsv_rows_witness :
  ∃ row,
    parseIrsCsv Sample.cachedText !! lit "111111111" = Some row
    ∧ IrsRevocationRow.ein row = lit "111111111"
    ∧ trim (IrsRevocationRow.legalName row) = IrsRevocationRow.legalName row.
Proof.
  assert (∃ row, parseIrsCsv Sample.cachedText !! lit "111111111" = Some row)
    as [row Hrow] by (eexists; vm_compute; reflexivity).
  exists row. split; [exact Hrow|].
  destruct (parseIrsCsv_rows _ _ _ Hrow) as (Hein & _ & _ & Hname & _).
  by split.
Defined.

End IrsParserFacts.

(** ** Invariants of the store under any property of the world *)

Module StoreMore.

Section Invariant.
Context `{!JsRuntime}.
Variable I : World → Prop.
Hypothesis I_emit : ∀ e, sound I (emit e).
Hypothesis I_writeIrsZip : ∀ z, sound I (writeIrsZip z).
Hypothesis I_writeIrsCsv : ∀ b, sound I (writeIrsCsv b).
Hypothesis I_writeSdnCsv : ∀ s, sound I (writeSdnCsv s).
Hypothesis I_writeAltCsv : ∀ s, sound I (writeAltCsv s).
Hypothesis I_saveManifest : ∀ m, sound I (saveManifest m).
Hypothesis I_irsMap : ∀ content, sound I (set_irsMap (parseIrsCsv content)).
Hypothesis I_ofacNameMap :
  ∀ sdnRows altRows, sound I (set_ofacNameMap (buildOfacNameMap sdnRows altRows)).
Hypothesis I_lastRefreshAt : ∀ t, sound I (set_lastRefreshAt t).

Lemma inv_ret {A} (a : A) : sound I (ret a).
Proof. by intros w. Qed.

Lemma inv_throw {A} e : sound I (@throw A e).
Proof. by intros w. Qed.

Lemma inv_bind {A B} (m : M A) (k : A → M B) :
  sound I m → (∀ a, sound I (k a)) → sound I (bind m k).
Proof.
  intros Hm Hk w Hw. unfold bind. destruct (Hm w Hw) as [Hw' Hfuel].
  destruct (m w) as [[a|e|] w']; simpl in *; [by apply Hk|done..].
Qed.

Lemma inv_tryCatch {A} (body : M A) handler :
  sound I body → (∀ e, sound I (handler e)) → sound I (tryCatch body handler).
Proof.
  intros Hm Hh w Hw. unfold tryCatch. destruct (Hm w Hw) as [Hw' Hfuel].
  destruct (body w) as [[a|e|] w']; simpl in *; [done|by apply Hh|done].
Qed.

Lemma inv_getStore : sound I getStore.
Proof. by intros w. Qed.

Lemma inv_getDisk : sound I getDisk.
Proof. by intros w. Qed.

Create HintDb inv discriminated.

Hint Resolve inv_ret inv_throw inv_getStore inv_getDisk I_emit I_writeIrsZip
  I_writeIrsCsv I_writeSdnCsv I_writeAltCsv I_saveManifest I_irsMap
  I_ofacNameMap I_lastRefreshAt : inv.

(** Splits a monadic program along its binds, handlers and branches. *)
Ltac inv_step :=
  first
    [ solve [eauto with inv]
    | apply inv_tryCatch
    | apply inv_bind
    | progress intros
    | progress cbv zeta
    | case_match ].

Ltac inv_tac := repeat inv_step.

Lemma inv_reads :
  (∀ A url (r : jsstring + A), sound I (httpGet url r))
  ∧ (∀ f, sound I (existsSync f))
  ∧ (∀ A (r : jsstring + A), sound I (fromResult r))
  ∧ sound I readIrsCsv ∧ sound I readSdnCsv ∧ sound I readAltCsv
  ∧ sound I openIrsZip ∧ (∀ f, sound I (entryBuffer f))
  ∧ sound I loadManifest.
Proof.
  unfold httpGet, existsSync, fromResult, readIrsCsv, readSdnCsv, readAltCsv,
    openIrsZip, entryBuffer, loadManifest, fromFile.
  split_and!; inv_tac.
Qed.

Lemma inv_httpGet {A} url (r : jsstring + A) : sound I (httpGet url r).
Proof. apply inv_reads. Qed.
Lemma inv_existsSync f : sound I (existsSync f).
Proof. apply inv_reads. Qed.
Lemma inv_fromResult {A} (r : jsstring + A) : sound I (fromResult r).
Proof. apply inv_reads. Qed.
Lemma inv_readIrsCsv : sound I readIrsCsv.
Proof. apply inv_reads. Qed.
Lemma inv_readSdnCsv : sound I readSdnCsv.
Proof. apply inv_reads. Qed.
Lemma inv_readAltCsv : sound I readAltCsv.
Proof. apply inv_reads. Qed.
Lemma inv_openIrsZip : sound I openIrsZip.
Proof. apply inv_reads. Qed.
Lemma inv_entryBuffer f : sound I (entryBuffer f).
Proof. apply inv_reads. Qed.
Lemma inv_loadManifest : sound I loadManifest.
Proof. apply inv_reads. Qed.

Hint Resolve inv_httpGet inv_existsSync inv_fromResult inv_readIrsCsv
  inv_readSdnCsv inv_readAltCsv inv_openIrsZip inv_entryBuffer
  inv_loadManifest : inv.

Lemma inv_parseIrsFromDiskWith download :
  (∀ m, sound I (download m)) → sound I (parseIrsFromDiskWith download).
Proof. intros Hd. unfold parseIrsFromDiskWith. inv_tac. Qed.

Lemma inv_downloadAndParseIrsWith fromDisk env manifest :
  sound I fromDisk → sound I (downloadAndParseIrsWith fromDisk env manifest).
Proof. intros Hd. unfold downloadAndParseIrsWith. inv_tac. Qed.

Lemma inv_downloadAndParseIrs depth env manifest :
  sound I (downloadAndParseIrs (S depth) env manifest).
Proof.
  intros w Hw. rewrite StoreFacts.downloadAndParseIrs_depth. revert w Hw.
  apply inv_downloadAndParseIrsWith, inv_parseIrsFromDiskWith.
  intros m. apply inv_throw.
Qed.

Lemma inv_parseIrsFromDisk depth env :
  sound I (parseIrsFromDisk (S (S depth)) env).
Proof.
  apply inv_parseIrsFromDiskWith. intros m. apply inv_downloadAndParseIrs.
Qed.

Lemma inv_parseOfacFromDiskWith download :
  (∀ m, sound I (download m)) → sound I (parseOfacFromDiskWith download).
Proof. intros Hd. unfold parseOfacFromDiskWith. inv_tac. Qed.

Lemma inv_downloadAndParseOfacWith fromDisk env manifest :
  sound I fromDisk → sound I (downloadAndParseOfacWith fromDisk env manifest).
Proof. intros Hd. unfold downloadAndParseOfacWith. inv_tac. Qed.

Lemma inv_downloadAndParseOfac depth env manifest :
  sound I (downloadAndParseOfac (S depth) env manifest).
Proof.
  intros w Hw. rewrite StoreFacts.downloadAndParseOfac_depth. revert w Hw.
  apply inv_downloadAndParseOfacWith, inv_parseOfacFromDiskWith.
  intros m. apply inv_throw.
Qed.

Lemma inv_parseOfacFromDisk depth env :
  sound I (parseOfacFromDisk (S (S depth)) env).
Proof.
  apply inv_parseOfacFromDiskWith. intros m. apply inv_downloadAndParseOfac.
Qed.

Hint Resolve inv_downloadAndParseIrs inv_parseIrsFromDisk
  inv_downloadAndParseOfac inv_parseOfacFromDisk : inv.

Lemma inv_initialize env : sound I (initialize env).
Proof. unfold initialize, callDepth. inv_tac. Qed.

Lemma inv_refresh env source : sound I (refresh env source).
Proof. unfold refresh, callDepth. inv_tac. Qed.

(** A refresh of one source runs nothing of the other. *)
Lemma inv_refresh_irs env : sound I (refresh env (Some irs)).
Proof. unfold refresh, callDepth. cbn [default from_option id]. inv_tac. Qed.

Lemma inv_refresh_ofac env : sound I (refresh env (Some ofac)).
Proof. unfold refresh, callDepth. cbn [default from_option id]. inv_tac. Qed.

Hypothesis I_new :
  ∀ config d, I {| store := newStore config; disk := d; trace := [] |}.
Hypothesis I_disk :
  ∀ w d, I w → I {| store := store w; disk := d; trace := trace w |}.

Lemma inv_reachable w : reachable w → I w.
Proof.
  induction 1 as [config d|env w _ IH|env source w _ IH|d w _ IH].
  - apply I_new.
  - by apply inv_initialize.
  - by apply inv_refresh.
  - by apply I_disk.
Qed.

End Invariant.

Section WithRuntime.
Context `{!JsRuntime}.

(** Every map the store ever publishes as [irsMap] is the empty map of the
    constructor or a result of [parseIrsCsv]. *)
Lemma reachable_irsMap w :
  reachable w
  → irsMap (store w) = ∅ ∨ ∃ content, irsMap (store w) = parseIrsCsv content.
Proof.
  apply (inv_reachable
           (λ w, irsMap (store w) = ∅
                 ∨ ∃ content, irsMap (store w) = parseIrsCsv content)).
  all: try by (intros ? w' Hw'; split; [exact Hw'|done]).
  - intros content w' _. split; [right; by eexists|done].
  - intros sdnRows altRows w' Hw'. split; [exact Hw'|done].
  - by left.
  - by intros w' d Hw'.
Qed.

(** X14. In every world the store can reach, [lookupEin] answers with the
    row of the EIN asked for: the row's EIN is the query without dashes and
    white space, and it is nine decimal digits. *)
Theorem lookupEin_own_row w ein row :
  reachable w
  → lookupEin (store w) ein = Some row
  → IrsRevocationRow.ein row = removeAll isDashOrWhiteSpace ein
    ∧ length (IrsRevocationRow.ein row) = 9%nat
    ∧ Forall (λ c, isDigit c = true) (IrsRevocationRow.ein row).
Proof.
  intros Hw. unfold lookupEin. cbv zeta.
  destruct (reachable_irsMap w Hw) as [->|[content ->]];
    [by rewrite lookup_empty|].
  intros (line & _ & Hrow)%IrsParserFacts.parseIrsCsv_lookup_Some.
  apply IrsParserFacts.parseIrsLine_row in Hrow as (Hein & Hnine & _).
  apply IrsParserFacts.isNineDigits_true in Hnine. by rewrite Hein.
Qed.

(** X15. A refresh of one source leaves the other alone: refreshing the
    revocation list changes neither the name map nor the two sanctions
    files, and refreshing the sanctions lists changes neither the EIN map nor
    the revocation archive and its extracted file. *)
Theorem refresh_one_source env w :
  let w1 := (refresh env (Some irs) w).2 in
  let w2 := (refresh env (Some ofac) w).2 in
  (ofacNameMap (store w1) = ofacNameMap (store w)
   ∧ sdn_csv (disk w1) = sdn_csv (disk w)
   ∧ alt_csv (disk w1) = alt_csv (disk w))
  ∧ (irsMap (store w2) = irsMap (store w)
     ∧ irs_zip (disk w2) = irs_zip (disk w)
     ∧ irs_csv (disk w2) = irs_csv (disk w)).
Proof.
  cbv zeta. split.
  - apply (inv_refresh_irs
             (λ w', ofacNameMap (store w') = ofacNameMap (store w)
                    ∧ sdn_csv (disk w') = sdn_csv (disk w)
                    ∧ alt_csv (disk w') = alt_csv (disk w))); [..|done].
    all: by (intros ? w' Hw'; split; [exact Hw'|done]).
  - apply (inv_refresh_ofac
             (λ w', irsMap (store w') = irsMap (store w)
                    ∧ irs_zip (disk w') = irs_zip (disk w)
                    ∧ irs_csv (disk w') = irs_csv (disk w))); [..|done].
    all: try by (intros ? w' Hw'; split; [exact Hw'|done]).
    intros sdnRows altRows w' Hw'. split; [exact Hw'|done].
Qed.

(** X16. Neither method changes the configuration, and [initialize] does not
    start the cooldown: it leaves [lastRefreshAt] as it found it. *)
Theorem initialize_keeps_cooldown env source w :
  config (store (initialize env w).2) = config (store w)
  ∧ lastRefreshAt (store (initialize env w).2) = lastRefreshAt (store w)
  ∧ config (store (refresh env source w).2) = config (store w).
Proof.
  pose proof (inv_initialize
                (λ w', config (store w') = config (store w)
                       ∧ lastRefreshAt (store w') = lastRefreshAt (store w)))
    as Hinit.
  pose proof (inv_refresh (λ w', config (store w') = config (store w)))
    as Hrefresh.
  split_and!.
  - eapply Hinit; [..|done].
    all: try by (intros ? w' Hw'; split; [exact Hw'|done]).
    intros sdnRows altRows w' Hw'. split; [exact Hw'|done].
  - eapply Hinit; [..|done].
    all: try by (intros ? w' Hw'; split; [exact Hw'|done]).
    intros sdnRows altRows w' Hw'. split; [exact Hw'|done].
  - eapply Hrefresh; [..|done].
    all: try by (intros ? w' Hw'; split; [exact Hw'|done]).
    intros sdnRows altRows w' Hw'. split; [exact Hw'|done].
Qed.

Lemma onlyAdds_sound w :
  (∀ e, sound (onlyAdds w) (emit e))
  ∧ (∀ z, sound (onlyAdds w) (writeIrsZip z))
  ∧ (∀ b, sound (onlyAdds w) (writeIrsCsv b))
  ∧ (∀ s, sound (onlyAdds w) (writeSdnCsv s))
  ∧ (∀ s, sound (onlyAdds w) (writeAltCsv s))
  ∧ (∀ m, sound (onlyAdds w) (saveManifest m)).
Proof.
  split_and!.
  all: intros ? w1 (Ht & Hz & Hc & Hs & Ha & Hm); split; [|done].
  all: unfold onlyAdds; cbn; split_and!; try done.
  all: eauto using prefix_app_r.
Qed.

(** X17. [initialize] and [refresh] only add to what they find: the I/O
    trace is extended, never rewritten, and no file of the data directory
    that existed before is missing afterwards. *)
Theorem store_io_monotone env source w :
  onlyAdds w (initialize env w).2 ∧ onlyAdds w (refresh env source w).2.
Proof.
  assert (onlyAdds w w) as Hw by (by unfold onlyAdds).
  destruct (onlyAdds_sound w) as (He & Hz & Hc & Hs & Ha & Hm).
  split.
  - apply (inv_initialize (onlyAdds w)); try done.
    all: by (intros ? w1 Hw1 || intros ? ? w1 Hw1); (split; [exact Hw1|done]).
  - apply (inv_refresh (onlyAdds w)); try done.
    all: by (intros ? w1 Hw1 || intros ? ? w1 Hw1); (split; [exact Hw1|done]).
Qed.

End WithRuntime.

(** *** What a load leaves behind *)

Lemma tryCatch_outcome {A} (body : M A) handler w
    (Q : Outcome A * World → Prop) :
  (∀ a w', body w = (Return a, w') → Q (Return a, w'))
  → (∀ e w', body w = (Throw e, w') → Q (handler e w'))
  → (∀ w', body w = (OutOfFuel, w') → Q (OutOfFuel, w'))
  → Q (tryCatch body handler w).
Proof.
  intros Hreturn Hthrow Hfuel. unfold tryCatch.
  destruct (body w) as [[a|e|] w']; eauto.
Qed.

(** The [catch] block of [downloadAndParseIrs]: with a cache file it loads
    the file and returns, without one it throws. *)
Lemma irs_fallback_outcome (manifest : DataManifest.t) msg w :
  match (cached <- existsSync IrsCsv ;;
         if cached
         then parseIrsFromDiskWith (λ _, throw []) ;;; ret manifest
         else throw (lit "Cannot load IRS revocation data: " ++ msg)) w with
  | (Return m, w') => m = manifest ∧ disk w' = disk w ∧ irsMirrorsDisk w'
  | (Throw message, w') =>
      irs_csv (disk w) = None ∧ disk w' = disk w ∧ store w' = store w
      ∧ message = lit "Cannot load IRS revocation data: " ++ msg
  | (OutOfFuel, _) => False
  end.
Proof.
  unfold parseIrsFromDiskWith, bind, existsSync, emit, getDisk, ret, throw,
    readIrsCsv, fromFile, set_irsMap, getStore, putStore, irsMirrorsDisk.
  cbn -[lit]. destruct (irs_csv (disk w)) as [b|] eqn:Hcsv.
  all: repeat (progress (cbn -[lit parseIrsCsv]; rewrite ?Hcsv)).
  - split_and!; [done|done|]. by exists b.
  - done.
Qed.

Ltac run_irs_body H :=
  unfold bind, httpGet, writeIrsZip, openIrsZip, entryBuffer, writeIrsCsv,
    fromFile, emit, getDisk, putDisk, ret, throw, set_irsMap, getStore,
    putStore, saveManifest in H;
  destruct (http_irs _) as [?|[?|[|? ?]]];
  cbn -[parseIrsCsv mapSize ofZ lit MAX_ZIP_SIZE_BYTES MIN_IRS_ROWS
        Z.ltb Z.eqb] in H;
  repeat (case_match;
          cbn -[parseIrsCsv mapSize ofZ lit MAX_ZIP_SIZE_BYTES MIN_IRS_ROWS
                Z.ltb Z.eqb] in H);
  simplify_eq.

Lemma downloadAndParseIrs_outcome depth env manifest w :
  match downloadAndParseIrs (S depth) env manifest w with
  | (Return _, w') => irsMirrorsDisk w'
  | (Throw message, w') =>
      irs_csv (disk w) = None ∧ irs_csv (disk w') = None
      ∧ store w' = store w
      ∧ ∃ cause,
          message = lit "Cannot load IRS revocation data: " ++ cause
  | (OutOfFuel, _) => False
  end.
Proof.
  rewrite StoreFacts.downloadAndParseIrs_depth.
  unfold downloadAndParseIrsWith. apply tryCatch_outcome.
  - intros a w' Hbody. run_irs_body Hbody.
    unfold irsMirrorsDisk. cbn. by eexists.
  - intros e w' Hbody.
    assert (store w' = store w
            ∧ (irs_csv (disk w') = None → irs_csv (disk w) = None))
      as [Hstore Hcache] by (run_irs_body Hbody; done).
    clear Hbody. pose proof (irs_fallback_outcome manifest e w') as Hh.
    destruct ((cached <- existsSync IrsCsv ;; _) w') as [[m|message|] w''];
      [by destruct Hh as (_ & _ & ?)| |done].
    destruct Hh as (Hnone & Hdisk & Hstore' & ->).
    split_and!; [by apply Hcache|by rewrite Hdisk|congruence|by eexists].
  - intros w' Hbody. run_irs_body Hbody.
Qed.

Section WithRuntime.
Context `{!JsRuntime}.

(** The [catch] block of [downloadAndParseOfac]: with both cache files it
    loads them, and the disk is left as it was in either case. *)
Lemma ofac_fallback_outcome (manifest : DataManifest.t) msg w :
  match (sdnCached <- existsSync SdnCsv ;;
         altCached <- (if sdnCached then existsSync AltCsv else ret false) ;;
         if sdnCached && altCached
         then parseOfacFromDiskWith (λ _, throw []) ;;; ret manifest
         else throw (lit "Cannot load OFAC data: " ++ msg)) w with
  | (Return m, w') => m = manifest ∧ disk w' = disk w ∧ ofacMirrorsDisk w'
  | (Throw message, w') => disk w' = disk w ∧ store w' = store w
  | (OutOfFuel, _) => False
  end.
Proof.
  unfold parseOfacFromDiskWith, bind, existsSync, emit, getDisk, ret, throw,
    readSdnCsv, readAltCsv, fromFile, fromResult, set_ofacNameMap, getStore,
    putStore, ofacMirrorsDisk.
  cbn -[lit].
  destruct (sdn_csv (disk w)) as [sdnContent|] eqn:Hsdn,
    (alt_csv (disk w)) as [altContent|] eqn:Halt.
  all: repeat (progress (cbn -[lit parseSdnCsv parseAltCsv buildOfacNameMap];
                         rewrite ?Hsdn, ?Halt)); try done.
  destruct (parseSdnCsv sdnContent) as [e|sdnRows] eqn:Hs;
    cbn -[lit parseSdnCsv parseAltCsv buildOfacNameMap]; [done|].
  destruct (parseAltCsv altContent) as [e|altRows] eqn:Ha;
    cbn -[lit parseSdnCsv parseAltCsv buildOfacNameMap]; [done|].
  split_and!; [done|done|]. by exists sdnContent, altContent, sdnRows, altRows.
Qed.

Ltac run_ofac_body env H :=
  unfold bind, fromResult, writeSdnCsv, writeAltCsv, emit, getDisk, putDisk,
    ret, throw, set_ofacNameMap, getStore, putStore, saveManifest in H;
  destruct (http_sdn env) as [?|?], (http_alt env) as [?|?];
  cbn -[parseSdnCsv parseAltCsv buildOfacNameMap mapSize ofZ lit
        MIN_OFAC_ENTRIES Z.ltb] in H;
  repeat (case_match;
          cbn -[parseSdnCsv parseAltCsv buildOfacNameMap mapSize ofZ lit
                MIN_OFAC_ENTRIES Z.ltb] in H);
  simplify_eq.

Lemma downloadAndParseOfac_outcome depth env manifest w :
  match downloadAndParseOfac (S depth) env manifest w with
  | (Return _, w') => ofacMirrorsDisk w'
  | (Throw message, w') => store w' = store w
  | (OutOfFuel, _) => False
  end.
Proof.
  rewrite StoreFacts.downloadAndParseOfac_depth.
  unfold downloadAndParseOfacWith. apply tryCatch_outcome.
  - intros a w' Hbody. run_ofac_body env Hbody.
    unfold ofacMirrorsDisk. cbn. by eexists _, _, _, _.
  - intros e w' Hbody.
    assert (store w' = store w) as Hstore by (run_ofac_body env Hbody; done).
    clear Hbody. pose proof (ofac_fallback_outcome manifest e w') as Hh.
    destruct ((sdnCached <- existsSync SdnCsv ;; _) w') as [[m|message|] w''];
      [by destruct Hh as (_ & _ & ?)| |done].
    destruct Hh as (_ & Hstore'). congruence.
  - intros w' Hbody. run_ofac_body env Hbody.
Qed.

Lemma existsSync_run f w :
  existsSync f w
  = (Return match f with
            | IrsZip => bool_decide (is_Some (irs_zip (disk w)))
            | IrsCsv => bool_decide (is_Some (irs_csv (disk w)))
            | SdnCsv => bool_decide (is_Some (sdn_csv (disk w)))
            | AltCsv => bool_decide (is_Some (alt_csv (disk w)))
            | ManifestJson => bool_decide (is_Some (data_manifest (disk w)))
            end,
     {| store := store w; disk := disk w;
        trace := trace w ++ [ExistsSync f] |}).
Proof. done. Qed.

Lemma parseIrsFromDisk_outcome depth env w w' :
  parseIrsFromDisk (S (S depth)) env w = (Return tt, w') → irsMirrorsDisk w'.
Proof.
  cbn [parseIrsFromDisk]. unfold parseIrsFromDiskWith.
  intros (cached & w1 & Hexists & Hrun)%StoreFacts.bind_Return.
  rewrite existsSync_run in Hexists. injection Hexists as <- <-.
  destruct (irs_csv (disk w)) as [b|] eqn:Hcsv.
  - unfold readIrsCsv, bind, emit, getDisk, fromFile, ret, set_irsMap,
      getStore, putStore in Hrun.
    cbn -[parseIrsCsv] in Hrun. rewrite Hcsv in Hrun.
    cbn -[parseIrsCsv] in Hrun. injection Hrun as <-. by exists b.
  - cbn [bool_decide decide_rel negb] in Hrun.
    rewrite bool_decide_eq_false_2 in Hrun by (by intros [? ?]).
    cbn [negb] in Hrun.
    apply StoreFacts.bind_Return in Hrun as (m & w2 & _ & Hrun).
    apply StoreFacts.bind_Return in Hrun as (m' & w3 & Hload & Hret).
    injection Hret as <-.
    pose proof (downloadAndParseIrs_outcome depth env m w2) as Hout.
    by rewrite Hload in Hout.
Qed.

Lemma parseOfacFromDisk_outcome depth env w w' :
  parseOfacFromDisk (S (S depth)) env w = (Return tt, w')
  → ofacMirrorsDisk w'.
Proof.
  cbn [parseOfacFromDisk]. unfold parseOfacFromDiskWith.
  intros (sdnCached & w1 & Hsdn & Hrun)%StoreFacts.bind_Return.
  apply StoreFacts.bind_Return in Hrun as (altCached & w2 & Halt & Hrun).
  rewrite existsSync_run in Hsdn. injection Hsdn as <- <-.
  destruct (negb _ || negb altCached) eqn:Hmissing.
  - apply StoreFacts.bind_Return in Hrun as (m & w3 & _ & Hrun).
    apply StoreFacts.bind_Return in Hrun as (m' & w4 & Hload & Hret).
    injection Hret as <-.
    pose proof (downloadAndParseOfac_outcome depth env m w3) as Hout.
    by rewrite Hload in Hout.
  - apply orb_false_elim in Hmissing as [Hs Ha].
    apply negb_false_iff in Hs, Ha. subst altCached. rewrite Hs in Halt.
    rewrite existsSync_run in Halt. injection Halt as Ha <-.
    apply bool_decide_eq_true in Hs as [sdnContent Hs].
    apply bool_decide_eq_true in Ha as [altContent Ha].
    cbn in Ha, Hs.
    unfold readSdnCsv, readAltCsv, bind, emit, getDisk, fromFile, fromResult,
      ret, throw, set_ofacNameMap, getStore, putStore in Hrun.
    cbn -[parseSdnCsv parseAltCsv buildOfacNameMap] in Hrun.
    rewrite Hs in Hrun. cbn -[parseSdnCsv parseAltCsv buildOfacNameMap] in Hrun.
    rewrite Ha in Hrun. cbn -[parseSdnCsv parseAltCsv buildOfacNameMap] in Hrun.
    destruct (parseSdnCsv sdnContent) as [e|sdnRows] eqn:Hsdn; [done|].
    cbn -[parseSdnCsv parseAltCsv buildOfacNameMap] in Hrun.
    destruct (parseAltCsv altContent) as [e|altRows] eqn:Halt; [done|].
    cbn -[parseSdnCsv parseAltCsv buildOfacNameMap] in Hrun.
    injection Hrun as <-.
    by exists sdnContent, altContent, sdnRows, altRows.
Qed.

(** Loading the sanctions lists keeps the EIN map in step with its file. *)
Lemma irsMirrorsDisk_ofac depth env :
  (∀ manifest,
     sound irsMirrorsDisk (downloadAndParseOfac (S depth) env manifest))
  ∧ sound irsMirrorsDisk (parseOfacFromDisk (S (S depth)) env)
  ∧ ∀ t, sound irsMirrorsDisk (set_lastRefreshAt t).
Proof.
  split_and!.
  - intros manifest. apply inv_downloadAndParseOfac.
    all: by (intros ? w (b & Hb & Hm) || intros ? ? w (b & Hb & Hm));
           (split; [by exists b|done]).
  - apply inv_parseOfacFromDisk.
    all: by (intros ? w (b & Hb & Hm) || intros ? ? w (b & Hb & Hm));
           (split; [by exists b|done]).
  - intros t w (b & Hb & Hm). split; [by exists b|done].
Qed.

(** X18. When [initialize] returns, the store serves what the data
    directory holds: the EIN map is the parse of the extracted revocation
    file and the name map is the index of the two sanctions files, as they
    are on disk at that moment. *)
Theorem initialize_mirrors_disk env w :
  (initialize env w).1 = Return tt
  → irsMirrorsDisk (initialize env w).2
    ∧ ofacMirrorsDisk (initialize env w).2.
Proof.
  destruct (initialize env w) as [out w'] eqn:Hrun. cbn. intros ->.
  unfold initialize, callDepth in Hrun.
  apply StoreFacts.bind_Return in Hrun as (m & w1 & _ & Hrun).
  apply StoreFacts.bind_Return in Hrun as (s & w2 & _ & Hrun).
  apply StoreFacts.bind_Return in Hrun as (m' & w3 & Hirs & Hofac).
  assert (irsMirrorsDisk w3) as Hmirror.
  { destruct (isStale s _ _).
    - pose proof (downloadAndParseIrs_outcome 1 env m w2) as Hout.
      by rewrite Hirs in Hout.
    - apply StoreFacts.bind_Return in Hirs as ([] & w4 & Hload & Hret).
      injection Hret as _ <-. by eapply parseIrsFromDisk_outcome. }
  destruct (irsMirrorsDisk_ofac 1 env) as (Hdownload & _ & _).
  destruct (irsMirrorsDisk_ofac 0 env) as (_ & Hdisk & _).
  destruct (isStale s _ (_ <$> DataManifest.ofac_sdn m)).
  - apply StoreFacts.bind_Return in Hofac as (m'' & w4 & Hload & Hret).
    injection Hret as <-. split.
    + destruct (Hdownload m' w3 Hmirror) as [Hkeep _].
      by rewrite Hload in Hkeep.
    + pose proof (downloadAndParseOfac_outcome 1 env m' w3) as Hout.
      by rewrite Hload in Hout.
  - split.
    + destruct (Hdisk w3 Hmirror) as [Hkeep _]. by rewrite Hofac in Hkeep.
    + by eapply parseOfacFromDisk_outcome.
Qed.

(** X19. When [refresh] returns, each source it reports as refreshed is
    served as the data directory holds it. *)
Theorem refresh_mirrors_disk env source w result :
  (refresh env source w).1 = Return result
  → (irs_refreshed result = true → irsMirrorsDisk (refresh env source w).2)
    ∧ (ofac_refreshed result = true
       → ofacMirrorsDisk (refresh env source w).2).
Proof.
  destruct (refresh env source w) as [out w'] eqn:Hrun. cbn. intros ->.
  unfold refresh, callDepth in Hrun.
  apply StoreFacts.bind_Return in Hrun as (s & w1 & _ & Hrun).
  destruct (_ <? _)%Z; [done|].
  apply StoreFacts.bind_Return in Hrun as (m & w2 & _ & Hrun).
  apply StoreFacts.bind_Return in Hrun as (m' & w3 & Hirs & Hrun).
  apply StoreFacts.bind_Return in Hrun as ([] & w4 & Hofac & Hrun).
  apply StoreFacts.bind_Return in Hrun as ([] & w5 & Hset & Hret).
  injection Hret as <- <-. cbn [irs_refreshed ofac_refreshed].
  destruct (irsMirrorsDisk_ofac 1 env) as (Hdownload & _ & _).
  unfold set_lastRefreshAt, bind, getStore, putStore in Hset.
  injection Hset as <-.
  split.
  - intros Htarget. rewrite Htarget in Hirs.
    assert (irsMirrorsDisk w3) as Hmirror.
    { pose proof (downloadAndParseIrs_outcome 1 env m w2) as Hout.
      by rewrite Hirs in Hout. }
    assert (irsMirrorsDisk w4) as (b & Hb & Hm).
    { destruct (match default all source with
                | ofac | all => true
                | irs => false
                end).
      - apply StoreFacts.bind_Return in Hofac as (m'' & w6 & Hload & Hret).
        injection Hret as <-.
        destruct (Hdownload m' w3 Hmirror) as [Hkeep _].
        by rewrite Hload in Hkeep.
      - by injection Hofac as <-. }
    by exists b.
  - intros Htarget. rewrite Htarget in Hofac.
    apply StoreFacts.bind_Return in Hofac as (m'' & w6 & Hload & Hret).
    injection Hret as <-.
    pose proof (downloadAndParseOfac_outcome 1 env m' w3) as Hout.
    rewrite Hload in Hout.
    destruct Hout as (sc & ac & sr & ar & ? & ? & ? & ? & ?).
    by exists sc, ac, sr, ar.
Qed.

(** X20. With a cached revocation file [downloadAndParseIrs] cannot fail,
    whatever the network and the archive do.  It throws only without one,
    with a message that starts with [Cannot load IRS revocation data: ], and
    then the store is as it was. *)
Theorem downloadAndParseIrs_failure depth env manifest w :
  let run := downloadAndParseIrs (S depth) env manifest w in
  (is_Some (irs_csv (disk w)) → ∃ manifest', run.1 = Return manifest')
  ∧ (∀ message,
       run.1 = Throw message
       → irs_csv (disk w) = None ∧ irs_csv (disk run.2) = None
         ∧ store run.2 = store w
         ∧ ∃ cause,
             message = lit "Cannot load IRS revocation data: " ++ cause).
Proof.
  cbv zeta.
  pose proof (downloadAndParseIrs_outcome depth env manifest w) as Hout.
  destruct (downloadAndParseIrs (S depth) env manifest w)
    as [[m|message|] w']; [|destruct Hout as (Hnone & Hout)|done].
  - split; [by eauto|done].
  - split.
    + rewrite Hnone. by intros [? ?].
    + by intros ? [= <-].
Qed.

(** X21. With a manifest that records both sources as fresh and all three
    cache files present, [initialize] works from the disk alone: it issues
    no request, writes no file, and reads the manifest and the three files
    in a fixed order. *)
Theorem initialize_fresh_cache env w manifest irsEntry ofacEntry b
    sdnContent altContent :
  data_manifest (disk w) = Some manifest
  → DataManifest.irs_revocation manifest = Some irsEntry
  → DataManifest.ofac_sdn manifest = Some ofacEntry
  → isStale (store w) (clock_entry env)
      (Some (DataManifest.downloaded_at irsEntry)) = false
  → isStale (store w) (clock_entry env)
      (Some (DataManifest.ofac_downloaded_at ofacEntry)) = false
  → irs_csv (disk w) = Some b
  → sdn_csv (disk w) = Some sdnContent
  → alt_csv (disk w) = Some altContent
  → disk (initialize env w).2 = disk w
    ∧ trace (initialize env w).2
      = trace w ++ [ReadFile ManifestJson; ExistsSync IrsCsv; ReadFile IrsCsv;
                    ExistsSync SdnCsv; ExistsSync AltCsv; ReadFile SdnCsv;
                    ReadFile AltCsv]
    ∧ irsMap (store (initialize env w).2) = parseIrsCsv (utf8 b).
Proof.
  intros Hmanifest Hirs Hofac Hfresh1 Hfresh2 Hcsv Hsdn Halt.
  unfold initialize, callDepth, parseIrsFromDisk, parseOfacFromDisk,
    parseIrsFromDiskWith, parseOfacFromDiskWith, loadManifest, bind,
    existsSync, emit, getDisk, getStore, ret, readIrsCsv, readSdnCsv,
    readAltCsv, fromFile, fromResult, set_irsMap, set_ofacNameMap, putStore,
    throw.
  cbn -[isStale parseIrsCsv parseSdnCsv parseAltCsv buildOfacNameMap].
  rewrite Hmanifest.
  cbn -[isStale parseIrsCsv parseSdnCsv parseAltCsv buildOfacNameMap].
  rewrite Hirs, Hofac.
  cbn -[isStale parseIrsCsv parseSdnCsv parseAltCsv buildOfacNameMap].
  rewrite Hfresh1, Hfresh2.
  repeat (progress
            (cbn -[isStale parseIrsCsv parseSdnCsv parseAltCsv
                   buildOfacNameMap];
             rewrite ?Hcsv, ?Hsdn, ?Halt)).
  destruct (parseSdnCsv sdnContent) as [e|sdnRows];
    cbn -[parseIrsCsv parseAltCsv buildOfacNameMap];
    [by rewrite <- !app_assoc|].
  destruct (parseAltCsv altContent) as [e|altRows];
    cbn -[parseIrsCsv buildOfacNameMap]; by rewrite <- !app_assoc.
Qed.

End WithRuntime.

Lemma initialize_fresh_cache_witness :
  let w := Sample.freshWorld SampleCache.freshDisk in
  let w' := (@initialize basicLatin (Sample.offline 1700003600000) w).2 in
  disk w' = disk w
  ∧ length (trace w') = 7%nat
  ∧ irsMap (store w') = parseIrsCsv Sample.cachedText.
Proof.
  cbv zeta.
  destruct (@initialize_fresh_cache basicLatin
              (Sample.offline 1700003600000)
              (Sample.freshWorld SampleCache.freshDisk)
              SampleCache.manifest SampleCache.irsEntry SampleCache.ofacEntry
              (Sample.bufferOf Sample.cachedText)
              (default [] (sdn_csv Sample.ofacDisk))
              (default [] (alt_csv Sample.ofacDisk)))
    as (Hdisk & Htrace & Hmap); try reflexivity.
  split_and!; [exact Hdisk|by rewrite Htrace|exact Hmap].
Defined.

Lemma initialize_mirrors_disk_witness :
  let w := (@initialize basicLatin (Sample.offline 1700000000000)
              (Sample.freshWorld Sample.cachedDisk)).2 in
  irsMap (store w) = parseIrsCsv Sample.cachedText
  ∧ @ofacMirrorsDisk basicLatin w.
Proof.
  cbv zeta.
  destruct (@initialize_mirrors_disk basicLatin
              (Sample.offline 1700000000000)
              (Sample.freshWorld Sample.cachedDisk))
    as [(b & Hb & Hm) Hofac]; [vm_compute; reflexivity|].
  split; [|exact Hofac]. rewrite Hm. f_equal.
  assert (irs_csv
            (disk (@initialize basicLatin (Sample.offline 1700000000000)
                     (Sample.freshWorld Sample.cachedDisk)).2)
          = Some (Sample.bufferOf Sample.cachedText)) as Hdisk
    by (vm_compute; reflexivity).
  rewrite Hdisk in Hb. by injection Hb as <-.
Defined.

Lemma refresh_mirrors_disk_witness :
  irsMirrorsDisk
    (@refresh basicLatin (Sample.offline 1700000000000) (Some irs)
       (Sample.freshWorld Sample.cachedDisk)).2.
Proof.
  apply (@refresh_mirrors_disk basicLatin (Sample.offline 1700000000000)
           (Some irs) (Sample.freshWorld Sample.cachedDisk)
           {| irs_refreshed := true; ofac_refreshed := false |});
    [vm_compute; reflexivity|reflexivity].
Defined.

Lemma lookupEin_own_row_witness :
  let w := (@initialize basicLatin (Sample.offline 1700000000000)
              (Sample.freshWorld Sample.cachedDisk)).2 in
  ∃ row,
    lookupEin (store w) (lit "11-1111111") = Some row
    ∧ IrsRevocationRow.ein row = lit "111111111".
Proof.
  cbv zeta.
  assert (∃ row,
            lookupEin
              (store (@initialize basicLatin (Sample.offline 1700000000000)
                        (Sample.freshWorld Sample.cachedDisk)).2)
              (lit "11-1111111") = Some row)
    as [row Hrow] by (eexists; vm_compute; reflexivity).
  exists row. split; [exact Hrow|].
  destruct (@lookupEin_own_row basicLatin _ _ _
              (reachable_initialize _ _ (reachable_new _ _)) Hrow)
    as (Hein & _).
  rewrite Hein. vm_compute. reflexivity.
Defined.

End StoreMore.

(** ** The sanctions name index *)

Module OfacIndexMore.

Section WithRuntime.
Context `{!JsRuntime}.

Lemma indexAltRow_sdnByEntNum ix alt :
  sdnByEntNum (indexAltRow ix alt) = sdnByEntNum ix.
Proof. unfold indexAltRow. by repeat case_match. Qed.

Lemma foldl_indexAltRow_sdnByEntNum alts ix :
  sdnByEntNum (foldl indexAltRow ix alts) = sdnByEntNum ix.
Proof.
  revert ix. induction alts as [|alt alts IH]; intros ix; [done|].
  cbn [foldl]. by rewrite IH, indexAltRow_sdnByEntNum.
Qed.

Lemma foldl_indexSdnRow_sdnByEntNum rows ix entNum :
  is_Some (sdnByEntNum (foldl indexSdnRow ix rows) !! entNum)
  ↔ entNum ∈ OfacSdnRow.entNum <$> rows
    ∨ is_Some (sdnByEntNum ix !! entNum).
Proof.
  revert ix. induction rows as [|row rows IH]; intros ix.
  - cbn. split; [by right|]. intros [Hin|Hix]; [|done].
    by apply not_elem_of_nil in Hin.
  - cbn [foldl]. rewrite IH, OfacIndexFacts.indexSdnRow_sdnByEntNum.
    rewrite fmap_cons, elem_of_cons.
    destruct (decide (OfacSdnRow.entNum row = entNum)) as [<-|Hne].
    + rewrite lookup_insert_eq. split; [by left; left|by right].
    + rewrite lookup_insert_ne by done. split.
      * intros [Hin|Hix]; [by left; right|by right].
      * intros [[Heq|Hin]|Hix]; [done|by left|by right].
Qed.

Lemma indexSdnRow_justified isSdn isAlt ix row :
  isSdn row
  → indexJustified isSdn isAlt ix
  → indexJustified isSdn isAlt (indexSdnRow ix row).
Proof.
  intros Hrow [HbyEntNum Hmap]. split.
  - intros entNum r. rewrite OfacIndexFacts.indexSdnRow_sdnByEntNum.
    destruct (decide (OfacSdnRow.entNum row = entNum)) as [<-|Hne].
    + rewrite lookup_insert_eq. by intros [= <-].
    + rewrite lookup_insert_ne by done. apply HbyEntNum.
  - intros key rows. unfold indexSdnRow.
    destruct (truthy _) eqn:Hkey; cbn [map]; [|apply Hmap].
    apply OfacIndexFacts.truthy_true in Hkey.
    destruct (decide (normalizeName (OfacSdnRow.name row) = key))
      as [<-|Hne]; [|rewrite lookup_insert_ne by done; apply Hmap].
    rewrite lookup_insert_eq. intros [= <-].
    split_and!; [done|by intros [_ [=]]%app_eq_nil|].
    intros r [Hr|Hr%list_elem_of_singleton]%elem_of_app.
    + destruct (map ix !! _) as [rows|] eqn:Hrows;
        [|by apply not_elem_of_nil in Hr].
      by apply (Hmap _ _ Hrows).
    + subst r. split; [done|by left].
Qed.

Lemma foldl_indexSdnRow_justified isSdn isAlt rows ix :
  Forall isSdn rows
  → indexJustified isSdn isAlt ix
  → indexJustified isSdn isAlt (foldl indexSdnRow ix rows).
Proof.
  intros Hrows. revert ix.
  induction Hrows as [|row rows Hrow _ IH]; intros ix Hix; [done|].
  cbn [foldl]. by apply IH, indexSdnRow_justified.
Qed.

Lemma someEntNum_true existing sdnRow :
  someEntNum existing sdnRow = true
  → ∃ row, row ∈ existing
           ∧ OfacSdnRow.entNum row = OfacSdnRow.entNum sdnRow.
Proof.
  unfold someEntNum. intros (row & Hrow & Heq)%existsb_exists.
  exists row. split; [by apply list_elem_of_In|].
  by apply bool_decide_eq_true in Heq.
Qed.

Lemma indexAltRow_justified isSdn isAlt ix alt :
  isAlt alt
  → indexJustified isSdn isAlt ix
  → indexJustified isSdn isAlt (indexAltRow ix alt).
Proof.
  intros Halt [HbyEntNum Hmap]. split.
  - rewrite indexAltRow_sdnByEntNum. apply HbyEntNum.
  - intros key rows. unfold indexAltRow.
    destruct (sdnByEntNum ix !! _) as [sdnRow|] eqn:Hsdn; [|apply Hmap].
    destruct (truthy _) eqn:Hkey; cbn [map]; [|apply Hmap].
    apply OfacIndexFacts.truthy_true in Hkey.
    destruct (decide (normalizeName (OfacAltRow.altName alt) = key))
      as [<-|Hne]; [|rewrite lookup_insert_ne by done; apply Hmap].
    rewrite lookup_insert_eq. intros [= <-]. split; [done|].
    apply HbyEntNum in Hsdn as [Hrow Hnum].
    assert (∀ r, r ∈ default [] (map ix !! normalizeName
                                              (OfacAltRow.altName alt))
                 → isSdn r
                   ∧ listedFor isAlt (normalizeName (OfacAltRow.altName alt))
                       r) as Hold.
    { intros r Hr.
      destruct (map ix !! _) as [rows|] eqn:Hrows; [|by apply not_elem_of_nil in Hr].
      by apply (Hmap _ _ Hrows). }
    destruct (someEntNum _ sdnRow) eqn:Hsome; cbv iota.
    + split; [|done].
      apply someEntNum_true in Hsome as (r & Hr & _). intros Hnil.
      rewrite Hnil in Hr. by apply not_elem_of_nil in Hr.
    + split; [by intros [_ [=]]%app_eq_nil|].
      intros r [Hr|Hr%list_elem_of_singleton]%elem_of_app; [by apply Hold|].
      subst r. split; [done|]. right. by exists alt.
Qed.

Lemma foldl_indexAltRow_justified isSdn isAlt alts ix :
  Forall isAlt alts
  → indexJustified isSdn isAlt ix
  → indexJustified isSdn isAlt (foldl indexAltRow ix alts).
Proof.
  intros Halts. revert ix.
  induction Halts as [|alt alts Halt _ IH]; intros ix Hix; [done|].
  cbn [foldl]. by apply IH, indexAltRow_justified.
Qed.

Lemma buildOfacNameMap_justified sdnRows altRows :
  indexJustified (.∈ sdnRows) (.∈ altRows)
    (foldl indexAltRow
       (foldl indexSdnRow {| map := ∅; sdnByEntNum := ∅ |} sdnRows) altRows).
Proof.
  apply foldl_indexAltRow_justified; [by apply Forall_forall|].
  apply foldl_indexSdnRow_justified; [by apply Forall_forall|].
  split; intros ? ?; cbn; by rewrite lookup_empty.
Qed.

(** X22. Under every key the primary rows whose own name normalises to it
    come first, in file order; rows added for aliases follow them. *)
Theorem buildOfacNameMap_primary_first sdnRows altRows key :
  key ≠ []
  → rowsUnder key sdnRows
    `prefix_of` default [] (buildOfacNameMap sdnRows altRows !! key).
Proof.
  intros Hkey. unfold buildOfacNameMap. cbv zeta.
  etrans; [|apply OfacIndexFacts.foldl_indexAltRow_prefix].
  by rewrite (OfacIndexFacts.foldl_indexSdnRow_rowsUnder sdnRows
                {| map := ∅; sdnByEntNum := ∅ |} []).
Qed.

(** X23. The name index has no empty key and no empty list, and every row
    listed under a key is a primary row that belongs there: its own name, or
    the name of an alias row with its entity number, normalises to the
    key. *)
Theorem buildOfacNameMap_sound sdnRows altRows key rows :
  buildOfacNameMap sdnRows altRows !! key = Some rows
  → key ≠ [] ∧ rows ≠ []
    ∧ ∀ row, row ∈ rows → row ∈ sdnRows ∧ listedFor (.∈ altRows) key row.
Proof.
  unfold buildOfacNameMap. cbv zeta.
  apply (buildOfacNameMap_justified sdnRows altRows).
Qed.

(** X24. An alias row whose entity number occurs among the primary rows and
    whose name does not normalise to the empty string makes its entity
    findable under the alias: the list under the normalised alias name holds
    a row with that entity number. *)
Theorem buildOfacNameMap_alias sdnRows altRows alt :
  alt ∈ altRows
  → OfacAltRow.entNum alt ∈ OfacSdnRow.entNum <$> sdnRows
  → normalizeName (OfacAltRow.altName alt) ≠ []
  → ∃ row,
      row ∈ default []
              (buildOfacNameMap sdnRows altRows
                 !! normalizeName (OfacAltRow.altName alt))
      ∧ row ∈ sdnRows
      ∧ OfacSdnRow.entNum row = OfacAltRow.entNum alt.
Proof.
  intros (before & after & ->)%list_elem_of_split Hnum Hkey.
  set (key := normalizeName (OfacAltRow.altName alt)) in *.
  assert (∃ row,
            row ∈ default [] (buildOfacNameMap sdnRows
                                (before ++ alt :: after) !! key)
            ∧ OfacSdnRow.entNum row = OfacAltRow.entNum alt)
    as (row & Hrow & Hrownum).
  { unfold buildOfacNameMap. cbv zeta. rewrite foldl_app. cbn [foldl].
    set (ix := foldl indexAltRow (foldl indexSdnRow _ sdnRows) before).
    assert (is_Some (sdnByEntNum ix !! OfacAltRow.entNum alt))
      as [sdnRow HsdnRow].
    { unfold ix. rewrite foldl_indexAltRow_sdnByEntNum.
      apply foldl_indexSdnRow_sdnByEntNum. by left. }
    assert (OfacSdnRow.entNum sdnRow = OfacAltRow.entNum alt) as Hsame.
    { eapply (proj1 (foldl_indexAltRow_justified (λ _, True) (λ _, True)
                       before _ ltac:(by apply Forall_true)
                       (foldl_indexSdnRow_justified (λ _, True) (λ _, True)
                          sdnRows {| map := ∅; sdnByEntNum := ∅ |}
                          ltac:(by apply Forall_true)
                          ltac:(split; intros ? ?; cbn;
                                by rewrite lookup_empty)))).
      exact HsdnRow. }
    assert (∃ row, row ∈ default [] (map (indexAltRow ix alt) !! key)
                   ∧ OfacSdnRow.entNum row = OfacAltRow.entNum alt)
      as (row & Hrow & Hrownum).
    { unfold indexAltRow. rewrite HsdnRow. fold key.
      rewrite (proj2 (OfacIndexFacts.truthy_true key) Hkey). cbn [map].
      rewrite lookup_insert_eq. cbn.
      destruct (someEntNum _ sdnRow) eqn:Hsome.
      - apply someEntNum_true in Hsome as (row & Hrow & Heq).
        exists row. split; [done|congruence].
      - exists sdnRow. split; [|done]. apply elem_of_app. right.
        by apply list_elem_of_singleton. }
    exists row. split; [|done].
    eapply elem_of_prefix; [exact Hrow|apply OfacIndexFacts.foldl_indexAltRow_prefix]. }
  exists row. split_and!; [done| |done].
  destruct (buildOfacNameMap sdnRows (before ++ alt :: after) !! key)
    as [rows|] eqn:Hrows; [|by apply not_elem_of_nil in Hrow].
  by apply (buildOfacNameMap_justified _ _) in Hrows as (_ & _ & Hin);
    apply Hin.
Qed.

Lemma foldl_indexAltRow_orphans alts ix :
  foldl indexAltRow ix alts
  = foldl indexAltRow ix
      (filter (λ alt, is_Some (sdnByEntNum ix !! OfacAltRow.entNum alt)) alts).
Proof.
  revert ix. induction alts as [|alt alts IH]; intros ix; [done|].
  rewrite filter_cons. cbn [foldl]. destruct (decide _) as [Hsome|Hnone].
  - cbn [foldl]. rewrite IH. f_equal. apply list_filter_iff. intros alt'.
    by rewrite indexAltRow_sdnByEntNum.
  - rewrite <- IH. f_equal. unfold indexAltRow.
    destruct (sdnByEntNum ix !! _); [|done]. by destruct Hnone.
Qed.

(** X25. Alias rows whose entity number no primary row carries are ignored:
    the index is the same with and without them. *)
Theorem buildOfacNameMap_orphans sdnRows altRows :
  buildOfacNameMap sdnRows altRows
  = buildOfacNameMap sdnRows
      (filter (λ alt, OfacAltRow.entNum alt ∈ OfacSdnRow.entNum <$> sdnRows)
         altRows).
Proof.
  unfold buildOfacNameMap. cbv zeta. rewrite foldl_indexAltRow_orphans.
  do 2 f_equal. apply list_filter_iff. intros alt.
  rewrite foldl_indexSdnRow_sdnByEntNum. cbn. rewrite lookup_empty.
  split; [intros [?|[? [=]]]; done|by left].
Qed.

End WithRuntime.

Lemma buildOfacNameMap_primary_first_witness :
  @rowsUnder basicLatin (lit "acme trading") SampleOfac.sdnRows
  `prefix_of` default []
                (@buildOfacNameMap basicLatin SampleOfac.sdnRows
                   SampleOfac.altRows !! lit "acme trading").
Proof. by apply (@buildOfacNameMap_primary_first basicLatin). Defined.

Lemma buildOfacNameMap_sound_witness :
  ∃ rows,
    @buildOfacNameMap basicLatin SampleOfac.sdnRows SampleOfac.altRows
      !! lit "acme" = Some rows
    ∧ rows ≠ []
    ∧ ∀ row, row ∈ rows → row ∈ SampleOfac.sdnRows.
Proof.
  assert (∃ rows,
            @buildOfacNameMap basicLatin SampleOfac.sdnRows SampleOfac.altRows
              !! lit "acme" = Some rows)
    as [rows Hrows] by (eexists; vm_compute; reflexivity).
  exists rows. split; [exact Hrows|].
  destruct (@buildOfacNameMap_sound basicLatin _ _ _ _ Hrows)
    as (_ & Hne & Hin).
  split; [exact Hne|]. intros row Hrow. by apply Hin.
Defined.

Lemma buildOfacNameMap_alias_witness :
  ∃ row,
    row ∈ default []
            (@buildOfacNameMap basicLatin SampleOfac.sdnRows
               SampleOfac.altRows !! lit "acme")
    ∧ OfacSdnRow.entNum row = lit "1002".
Proof.
  destruct (@buildOfacNameMap_alias basicLatin SampleOfac.sdnRows
              SampleOfac.altRows (Sample.altRow "1002" "ACME"))
    as (row & Hrow & _ & Hnum).
  - by apply (list_elem_of_lookup_2 _ 1).
  - by apply (list_elem_of_lookup_2 _ 1).
  - by vm_compute.
  - exists row. split; [exact Hrow|exact Hnum].
Defined.

End OfacIndexMore.

(** ** The sanctions check *)

Module OfacClientMore.

Section WithRuntime.
Context `{!JsRuntime}.

(** X26. Every match that [check] reports from an index built by
    [buildOfacNameMap] is justified: it renders a primary row, it is marked
    [primary] exactly when that row's own name normalises like the query,
    and when it is marked [alias] an alias row of the same entity normalises
    like the query. *)
Theorem check_matches_justified sdnRows altRows store name m :
  ofacNameMap store = buildOfacNameMap sdnRows altRows
  → m ∈ OfacSanctionsResult.matches (OfacSdnClient.check store name)
  → ∃ row,
      row ∈ sdnRows
      ∧ m = OfacSdnClient.toMatch (normalizeName name) row
      ∧ (OfacMatch.matchedOn m = primary
         ↔ normalizeName (OfacSdnRow.name row) = normalizeName name)
      ∧ (OfacMatch.matchedOn m = alias
         → ∃ alt, alt ∈ altRows
                  ∧ OfacAltRow.entNum alt = OfacSdnRow.entNum row
                  ∧ normalizeName (OfacAltRow.altName alt)
                    = normalizeName name).
Proof.
  intros Hbuilt. unfold OfacSdnClient.check, lookupName. cbv zeta.
  rewrite Hbuilt.
  destruct (buildOfacNameMap sdnRows altRows !! normalizeName name)
    as [rows|] eqn:Hrows; cbn [default from_option id];
    [|by intros ?%not_elem_of_nil].
  destruct (length rows =? 0)%nat;
    cbn [OfacSanctionsResult.matches]; [by intros ?%not_elem_of_nil|].
  intros (row & -> & Hrow)%list_elem_of_fmap.
  unfold buildOfacNameMap in Hrows. cbv zeta in Hrows.
  apply (OfacIndexMore.buildOfacNameMap_justified sdnRows altRows) in Hrows
    as (_ & _ & Hlisted).
  destruct (Hlisted row Hrow) as [Hsdn Hwhy].
  exists row. split_and!; [done|done| |].
  - unfold OfacSdnClient.toMatch. cbn [OfacMatch.matchedOn].
    destruct (bool_decide _) eqn:Hdec.
    + by apply bool_decide_eq_true in Hdec.
    + by apply bool_decide_eq_false in Hdec.
  - unfold OfacSdnClient.toMatch. cbn [OfacMatch.matchedOn].
    destruct (bool_decide _) eqn:Hdec; [done|].
    apply bool_decide_eq_false in Hdec. intros _.
    by destruct Hwhy as [Heq|Halias].
Qed.

(** X27. What [check] finds depends on the query through its normalised
    form alone: two names that normalise alike get the same [found] and the
    same matches. *)
Theorem check_by_normalized_name store name1 name2 :
  normalizeName name1 = normalizeName name2
  → OfacSanctionsResult.found (OfacSdnClient.check store name1)
    = OfacSanctionsResult.found (OfacSdnClient.check store name2)
    ∧ OfacSanctionsResult.matches (OfacSdnClient.check store name1)
      = OfacSanctionsResult.matches (OfacSdnClient.check store name2).
Proof.
  intros Hsame. unfold OfacSdnClient.check, lookupName. cbv zeta.
  rewrite Hsame. by destruct (length _ =? 0)%nat.
Qed.

End WithRuntime.

Lemma check_matches_justified_witness :
  ∃ m row,
    m ∈ OfacSanctionsResult.matches
          (@OfacSdnClient.check basicLatin SampleOfac.store (lit "A.C.M.E."))
    ∧ row ∈ SampleOfac.sdnRows
    ∧ OfacMatch.entNum m = OfacSdnRow.entNum row
    ∧ OfacMatch.matchedOn m = alias.
Proof.
  assert (∃ m,
            OfacSanctionsResult.matches
              (@OfacSdnClient.check basicLatin SampleOfac.store
                 (lit "A.C.M.E."))
              !! 0%nat = Some m
            ∧ OfacMatch.matchedOn m = alias)
    as (m & Hm & Halias) by (eexists; split; vm_compute; reflexivity).
  apply list_elem_of_lookup_2 in Hm.
  destruct (@check_matches_justified basicLatin SampleOfac.sdnRows
              SampleOfac.altRows SampleOfac.store (lit "A.C.M.E.") m
              eq_refl Hm)
    as (row & Hrow & Heq & _).
  exists m, row. split_and!; [exact Hm|exact Hrow|by rewrite Heq|exact Halias].
Defined.

Lemma check_by_normalized_name_witness :
  OfacSanctionsResult.found
    (@OfacSdnClient.check basicLatin SampleOfac.store
       (lit "The Acme Trading Co."))
  = true
  ∧ OfacSanctionsResult.matches
      (@OfacSdnClient.check basicLatin SampleOfac.store
         (lit "The Acme Trading Co."))
    = OfacSanctionsResult.matches
        (@OfacSdnClient.check basicLatin SampleOfac.store
           (lit "ACME   trading")).
Proof.
  split; [by vm_compute|].
  by apply (@check_by_normalized_name basicLatin).
Defined.

End OfacClientMore.

(** ** The name normaliser *)

Module NameNormalizerMore.

Lemma asciiLower_isAscii c : isAscii c = true → isAscii (asciiLower c) = true.
Proof.
  unfold isAscii, asciiLower. intros Hc%N.ltb_lt.
  destruct (isUpper c) eqn:Hup; apply N.ltb_lt; [|done].
  unfold isUpper, inRange in Hup.
  apply andb_prop in Hup as [_ Hle%N.leb_le]. lia.
Qed.

Lemma asciiLower_idemp c : asciiLower (asciiLower c) = asciiLower c.
Proof.
  unfold asciiLower. destruct (isUpper c) eqn:Hup; [|by rewrite Hup].
  destruct (isUpper (c + 32)) eqn:Hup'; [|done].
  unfold isUpper, inRange in Hup, Hup'.
  apply andb_prop in Hup as [Hlo%N.leb_le Hhi%N.leb_le].
  apply andb_prop in Hup' as [_ Hhi'%N.leb_le]. lia.
Qed.

Lemma isAscii_not_combining c : isAscii c = true → isCombiningMark c = false.
Proof.
  unfold isAscii, isCombiningMark, inRange. intros Hc%N.ltb_lt.
  apply andb_false_intro1, N.leb_gt. lia.
Qed.

Lemma isKeptChar_asciiLower c :
  isKeptChar (asciiLower c) = true → isLetterDigitSpace c = true.
Proof.
  unfold isLetterDigitSpace, asciiLower.
  destruct (isUpper c) eqn:Hup; [by rewrite orb_true_r|].
  unfold isKeptChar. rewrite orb_false_r. done.
Qed.

Lemma removeAll_fmap_removeAll (keep within : N → bool) (f : N → N) s :
  (∀ c, keep (f c) = true → within c = true)
  → removeAll (λ c, negb (keep c))
      (f <$> removeAll (λ c, negb (within c)) s)
    = removeAll (λ c, negb (keep c)) (f <$> s).
Proof.
  intros Himpl. unfold removeAll.
  induction s as [|c s IH]; [done|].
  rewrite fmap_cons, !filter_cons.
  destruct (decide (negb (within c) = false)) as [Hin|Hout].
  - rewrite fmap_cons, filter_cons. by rewrite IH.
  - rewrite IH. destruct (decide (negb (keep (f c)) = false)) as [Hk|]; [|done].
    apply negb_false_iff, Himpl in Hk. by rewrite Hk in Hout.
Qed.

Section WithRuntime.
Context `{!JsRuntime}.

(** On ASCII text the first two steps do nothing and the third is the
    ASCII case folding. *)
Lemma normalizeName_ascii s :
  allOf isAscii s
  → normalizeName s
    = trim (collapseWhiteSpace
              (stripSuffixLoop 10
                 (stripThePrefix
                    (removeAll (λ c, negb (isKeptChar c))
                       (asciiLower <$> s))))).
Proof.
  intros Hascii. unfold normalizeName.
  rewrite normalize_nfd_ascii by by apply JsFacts.allOf_forallb.
  rewrite (JsFacts.removeAll_id isCombiningMark s)
    by (eapply JsFacts.allOf_impl; [|exact Hascii]; intros c Hc; cbn beta;
        by rewrite isAscii_not_combining).
  by rewrite to_lower_case_ascii by by apply JsFacts.allOf_forallb.
Qed.

(** X28. Whatever the input and the runtime's Unicode tables, a normalised
    name is text over [[a-z0-9 ]] with no leading or trailing space and no
    two spaces in a row. *)
Theorem normalizeName_output s :
  allOf isPlain (normalizeName s)
  ∧ singleSpaced (normalizeName s) = true
  ∧ trim (normalizeName s) = normalizeName s
  ∧ (length (normalizeName s)
     ≤ length (to_lower_case
                 (removeAll isCombiningMark (normalize_nfd s))))%nat.
Proof.
  destruct (NameNormalizerFacts.normalizeName_shape s)
    as (t & Hr & Hplain & Hspaced).
  split_and!.
  - rewrite Hr. by apply JsFacts.allOf_trim.
  - rewrite Hr.
    by apply JsFacts.singleSpaced_trimEnd, JsFacts.singleSpaced_dropWhile.
  - rewrite Hr. apply JsFacts.trim_trim.
  - unfold normalizeName.
    etrans; [apply JsFacts.length_trim|].
    etrans; [apply JsFacts.length_collapseWhiteSpace|].
    etrans; [apply NameNormalizerFacts.length_stripSuffixLoop|].
    trans (length (removeAll (λ c, negb (isKeptChar c))
                     (to_lower_case
                        (removeAll isCombiningMark (normalize_nfd s)))));
      [|unfold removeAll at 1; apply length_filter].
    unfold stripThePrefix.
    destruct (matchThePrefix _) as [x|] eqn:Hx; [|done].
    apply NameNormalizerFacts.matchThePrefix_shorter in Hx. cbn. lia.
Qed.

(** X29. On ASCII names the normaliser ignores letter case and every
    character other than letters, digits and white space. *)
Theorem normalizeName_ascii_insensitive s :
  allOf isAscii s
  → normalizeName (asciiLower <$> s) = normalizeName s
    ∧ normalizeName (removeAll (λ c, negb (isLetterDigitSpace c)) s)
      = normalizeName s.
Proof.
  intros Hascii. split.
  - rewrite !normalizeName_ascii; [|done|].
    + assert (asciiLower <$> (asciiLower <$> s) = asciiLower <$> s) as ->;
        [|done].
      rewrite <- list_fmap_compose. apply list_fmap_ext.
      intros i c _. apply asciiLower_idemp.
    + apply Forall_fmap. eapply Forall_impl; [exact Hascii|].
      intros c Hc. by apply asciiLower_isAscii.
  - rewrite !normalizeName_ascii; [|done|].
    + by rewrite (removeAll_fmap_removeAll isKeptChar isLetterDigitSpace)
        by apply isKeptChar_asciiLower.
    + unfold removeAll. apply Forall_forall.
      intros c [_ Hc]%list_elem_of_filter.
      by apply (proj1 (Forall_forall _ _) Hascii).
Qed.

End WithRuntime.

Lemma normalizeName_ascii_insensitive_witness :
  @normalizeName basicLatin (lit "the a.c.m.e. trading co")
  = @normalizeName basicLatin (lit "The A.C.M.E. Trading Co")
  ∧ @normalizeName basicLatin (lit "The ACME Trading Co")
    = @normalizeName basicLatin (lit "The A.C.M.E. Trading Co").
Proof.
  apply (@normalizeName_ascii_insensitive basicLatin
           (lit "The A.C.M.E. Trading Co")).
  unfold allOf. by repeat constructor.
Defined.

End NameNormalizerMore.

(** ** The configuration *)

Module ConfigFacts.

(** X30. Whatever the environment holds, the loaded configuration keeps its
    floors: the rate limit is at least 100 ms and the maximum age is at
    least one day, so a store built from it never takes data downloaded
    within the last day for stale.  An empty API token counts as none, and
    the base URL is the official one whatever the environment says. *)
Theorem loadConfig_floors integerOf resolvedDataDir env :
  let loaded := Config.loadConfig integerOf resolvedDataDir env in
  (100 ≤ Config.courtlistenerRateLimitMs loaded)%Z
  ∧ (1 ≤ Config.dataMaxAgeDays loaded)%Z
  ∧ Config.courtlistenerApiToken loaded ≠ Some []
  ∧ Config.courtlistenerBaseUrl loaded = Config.COURTLISTENER_BASE_URL
  ∧ ∀ store now downloaded,
      config store = storeConfig loaded
      → (now - downloaded ≤ 1000 * 60 * 60 * 24)%Z
      → isStale store now (Some downloaded) = false.
Proof.
  cbv zeta. split_and!.
  - cbn. lia.
  - cbn. lia.
  - cbn. destruct (env !! _) as [[|c token]|]; done.
  - done.
  - intros store now downloaded Hconfig Hage. unfold isStale.
    rewrite Hconfig. cbn. apply Z.ltb_ge. lia.
Qed.

End ConfigFacts.
